(** * TupleVariation: packed point numbers, packed deltas and tuple headers

    A shallow embedding of [Lib/fontTools/ttLib/tables/TupleVariation.py].
    Python integers are [Z], byte strings are lists of [Byte.byte], exceptions
    are an explicit error outcome, [while] loops are fixpoints on a fuel
    argument that the calling definition supplies. Running out of fuel is an
    error of its own, [OutOfFuel]; the encoders and decoders are shown never
    to raise it, whatever their input. *)

From Stdlib Require Import Strings.String Strings.Byte.
From Stdlib Require Import ZArith List Lia Bool Permutation.
From Stdlib Require Import Sorting.Sorted Sorting.Mergesort Orders.
Import ListNotations.
Open Scope Z_scope.

(** ** Exceptions and the error monad *)

Inductive exn : Set :=
| IndexError
| ValueError
| AssertionError
| StructError
| TypeError
| OutOfFuel.

Inductive outcome (A : Type) : Type :=
| Ok (a : A)
| Raise (e : exn).
Arguments Ok {A} a.
Arguments Raise {A} e.

Definition bind {A B : Type} (m : outcome A) (k : A -> outcome B) : outcome B :=
  match m with
  | Ok a => k a
  | Raise e => Raise e
  end.

Declare Scope py_scope.
Delimit Scope py_scope with py.
Notation "x <- m ;; k" := (bind m (fun x => k))
  (at level 61, m at next level, right associativity) : py_scope.
Notation "' p <- m ;; k" := (bind m (fun v => let p := v in k))
  (at level 61, p pattern, m at next level, right associativity) : py_scope.
Open Scope py_scope.

Definition assert (b : bool) : outcome unit :=
  if b then Ok tt else Raise AssertionError.

(** ** Python sequences *)

Definition bytes := list byte.

Definition len {A : Type} (l : list A) : Z := Z.of_nat (length l).

(** [l[i]]: a negative index counts from the end, anything outside raises. *)
Definition py_getitem {A : Type} (l : list A) (i : Z) : outcome A :=
  let j := if i <? 0 then i + len l else i in
  if j <? 0 then Raise IndexError
  else match nth_error l (Z.to_nat j) with
       | Some a => Ok a
       | None => Raise IndexError
       end.

(** A slice bound is shifted when negative and then clipped to [0, len]. *)
Definition py_clip {A : Type} (l : list A) (i : Z) : Z :=
  if i <? 0 then Z.max (i + len l) 0 else Z.min i (len l).

(** [l[lo:hi]] *)
Definition py_slice {A : Type} (l : list A) (lo hi : Z) : list A :=
  let a := py_clip l lo in
  let b := py_clip l hi in
  firstn (Z.to_nat (b - a)) (skipn (Z.to_nat a) l).

(** [range(lo, hi)] and [range(n)] *)
Fixpoint count_from (lo : Z) (n : nat) : list Z :=
  match n with
  | O => []
  | S n' => lo :: count_from (lo + 1) n'
  end.

Definition py_range (lo hi : Z) : list Z := count_from lo (Z.to_nat (hi - lo)).

Definition range (n : Z) : list Z := py_range 0 n.

(** ** Bytes *)

Definition byteord (b : byte) : Z := Z.of_N (Byte.to_N b).

(** The byte whose value is [n mod 256]. *)
Definition byte_of_Z (n : Z) : byte :=
  match Byte.of_N (Z.to_N (n mod 256)) with
  | Some b => b
  | None => Byte.x00
  end.

(** [bytechr(n)] raises [ValueError] unless [0 <= n < 256]. *)
Definition bytechr (n : Z) : outcome bytes :=
  if (0 <=? n) && (n <? 256) then Ok [byte_of_Z n] else Raise ValueError.

(** [struct.pack('b', v)] *)
Definition pack_b (v : Z) : outcome bytes :=
  if (-128 <=? v) && (v <=? 127) then Ok [byte_of_Z v] else Raise StructError.

(** [struct.pack('>h', v)] *)
Definition pack_h (v : Z) : outcome bytes :=
  if (-32768 <=? v) && (v <=? 32767)
  then Ok [byte_of_Z (Z.shiftr v 8); byte_of_Z (Z.land v 255)]
  else Raise StructError.

(** [struct.pack('>H', v)] *)
Definition pack_H (v : Z) : outcome bytes :=
  if (0 <=? v) && (v <=? 65535)
  then Ok [byte_of_Z (Z.shiftr v 8); byte_of_Z (Z.land v 255)]
  else Raise StructError.

(** [struct.pack('>HH', a, b)] *)
Definition pack_HH (a b : Z) : outcome bytes :=
  x <- pack_H a ;;
  y <- pack_H b ;;
  Ok (x ++ y).

(** *** [array.array], read from a byte string

    The source reads in native byte order and swaps on a little-endian
    machine, so the items are big-endian on every machine. *)

Definition signed (bits : Z) (u : Z) : Z :=
  if u <? 2 ^ (bits - 1) then u else u - 2 ^ bits.

Fixpoint words_of (s : bytes) : outcome (list Z) :=
  match s with
  | [] => Ok []
  | [_] => Raise ValueError
  | hi :: lo :: s' =>
      ws <- words_of s' ;;
      Ok (Z.lor (Z.shiftl (byteord hi) 8) (byteord lo) :: ws)
  end.

(** [array.array("B")] *)
Definition array_B (s : bytes) : outcome (list Z) := Ok (map byteord s).
(** [array.array("b")] *)
Definition array_b (s : bytes) : outcome (list Z) :=
  Ok (map (fun c => signed 8 (byteord c)) s).
(** [array.array("H")] *)
Definition array_H (s : bytes) : outcome (list Z) := words_of s.
(** [array.array("h")] *)
Definition array_h (s : bytes) : outcome (list Z) :=
  ws <- words_of s ;; Ok (map (signed 16) ws).

(** ** Constants *)

Definition EMBEDDED_PEAK_TUPLE : Z := 0x8000.
Definition INTERMEDIATE_REGION : Z := 0x4000.
Definition PRIVATE_POINT_NUMBERS : Z := 0x2000.

Definition DELTAS_ARE_ZERO : Z := 0x80.
Definition DELTAS_ARE_WORDS : Z := 0x40.
Definition DELTA_RUN_COUNT_MASK : Z := 0x3f.

Definition POINTS_ARE_WORDS : Z := 0x80.
Definition POINT_RUN_COUNT_MASK : Z := 0x7f.

(** ** Packed deltas: the encoder *)

(** [for i in range(offset, pos): stream.write(pack(deltas[i]))] *)
Fixpoint write_deltas (pack : Z -> outcome bytes) (deltas : list Z)
    (indices : list Z) (stream : bytes) : outcome bytes :=
  match indices with
  | [] => Ok stream
  | i :: rest =>
      v <- py_getitem deltas i ;;
      s <- pack v ;;
      write_deltas pack deltas rest (stream ++ s)
  end.

Fixpoint encodeDeltaRunAsZeroes_loop (fuel : nat) (deltas : list Z)
    (pos runLength : Z) : outcome (Z * Z) :=
  match fuel with
  | O => Raise OutOfFuel
  | S fuel' =>
      if (pos <? len deltas) && (runLength <? 64) then
        v <- py_getitem deltas pos ;;
        if v =? 0
        then encodeDeltaRunAsZeroes_loop fuel' deltas (pos + 1) (runLength + 1)
        else Ok (pos, runLength)
      else Ok (pos, runLength)
  end.

Definition encodeDeltaRunAsZeroes_ (deltas : list Z) (offset : Z)
    (stream : bytes) : outcome (Z * bytes) :=
  '(pos, runLength) <- encodeDeltaRunAsZeroes_loop 65 deltas offset 0 ;;
  _ <- assert ((runLength >=? 1) && (runLength <=? 64)) ;;
  h <- bytechr (Z.lor DELTAS_ARE_ZERO (runLength - 1)) ;;
  Ok (pos, stream ++ h).

Fixpoint encodeDeltaRunAsBytes_loop (fuel : nat) (deltas : list Z)
    (pos runLength : Z) : outcome (Z * Z) :=
  match fuel with
  | O => Raise OutOfFuel
  | S fuel' =>
      if (pos <? len deltas) && (runLength <? 64) then
        value <- py_getitem deltas pos ;;
        if (value <? -128) || (value >? 127) then Ok (pos, runLength)
        else
          stop <- (if (value =? 0) && (pos + 1 <? len deltas)
                   then next <- py_getitem deltas (pos + 1) ;; Ok (next =? 0)
                   else Ok false) ;;
          if stop : bool then Ok (pos, runLength)
          else encodeDeltaRunAsBytes_loop fuel' deltas (pos + 1) (runLength + 1)
      else Ok (pos, runLength)
  end.

Definition encodeDeltaRunAsBytes_ (deltas : list Z) (offset : Z)
    (stream : bytes) : outcome (Z * bytes) :=
  '(pos, runLength) <- encodeDeltaRunAsBytes_loop 65 deltas offset 0 ;;
  _ <- assert ((runLength >=? 1) && (runLength <=? 64)) ;;
  h <- bytechr (runLength - 1) ;;
  stream' <- write_deltas pack_b deltas (py_range offset pos) (stream ++ h) ;;
  Ok (pos, stream').

Definition isByteEncodable (value : Z) : bool :=
  (value >=? -128) && (value <=? 127).

Fixpoint encodeDeltaRunAsWords_loop (fuel : nat) (deltas : list Z)
    (pos runLength : Z) : outcome (Z * Z) :=
  match fuel with
  | O => Raise OutOfFuel
  | S fuel' =>
      if (pos <? len deltas) && (runLength <? 64) then
        value <- py_getitem deltas pos ;;
        if value =? 0 then Ok (pos, runLength)
        else
          stop <- (if isByteEncodable value && (pos + 1 <? len deltas)
                   then next <- py_getitem deltas (pos + 1) ;;
                        Ok (isByteEncodable next)
                   else Ok false) ;;
          if stop : bool then Ok (pos, runLength)
          else encodeDeltaRunAsWords_loop fuel' deltas (pos + 1) (runLength + 1)
      else Ok (pos, runLength)
  end.

Definition encodeDeltaRunAsWords_ (deltas : list Z) (offset : Z)
    (stream : bytes) : outcome (Z * bytes) :=
  '(pos, runLength) <- encodeDeltaRunAsWords_loop 65 deltas offset 0 ;;
  _ <- assert ((runLength >=? 1) && (runLength <=? 64)) ;;
  h <- bytechr (Z.lor DELTAS_ARE_WORDS (runLength - 1)) ;;
  stream' <- write_deltas pack_h deltas (py_range offset pos) (stream ++ h) ;;
  Ok (pos, stream').

Fixpoint compileDeltaValues_loop (fuel : nat) (deltas : list Z) (pos : Z)
    (stream : bytes) : outcome bytes :=
  match fuel with
  | O => Raise OutOfFuel
  | S fuel' =>
      if pos <? len deltas then
        value <- py_getitem deltas pos ;;
        '(pos', stream') <-
          (if value =? 0 then encodeDeltaRunAsZeroes_ deltas pos stream
           else if (value >=? -128) && (value <=? 127)
                then encodeDeltaRunAsBytes_ deltas pos stream
                else encodeDeltaRunAsWords_ deltas pos stream) ;;
        compileDeltaValues_loop fuel' deltas pos' stream'
      else Ok stream
  end.

(** Every run advances [pos], so [len(deltas) + 1] rounds are enough. *)
Definition compileDeltaValues_ (deltas : list Z) : outcome bytes :=
  compileDeltaValues_loop (S (length deltas)) deltas 0 [].

(** ** Packed deltas: the decoder *)

Fixpoint decompileDeltas_loop (fuel : nat) (numDeltas : Z) (data : bytes)
    (result : list Z) (pos : Z) : outcome (list Z * Z) :=
  match fuel with
  | O => Raise OutOfFuel
  | S fuel' =>
      if len result <? numDeltas then
        c <- py_getitem data pos ;;
        let runHeader := byteord c in
        let pos := pos + 1 in
        let numDeltasInRun := Z.land runHeader DELTA_RUN_COUNT_MASK + 1 in
        if negb (Z.land runHeader DELTAS_ARE_ZERO =? 0) then
          decompileDeltas_loop fuel' numDeltas data
            (result ++ repeat 0 (Z.to_nat numDeltasInRun)) pos
        else
          let deltasSize :=
            if negb (Z.land runHeader DELTAS_ARE_WORDS =? 0)
            then numDeltasInRun * 2 else numDeltasInRun in
          deltas <-
            (if negb (Z.land runHeader DELTAS_ARE_WORDS =? 0)
             then array_h (py_slice data pos (pos + deltasSize))
             else array_b (py_slice data pos (pos + deltasSize))) ;;
          _ <- assert (len deltas =? numDeltasInRun) ;;
          decompileDeltas_loop fuel' numDeltas data (result ++ deltas)
            (pos + deltasSize)
      else Ok (result, pos)
  end.

(** Every run adds at least one value, so [numDeltas + 1] rounds are enough. *)
Definition decompileDeltas_ (numDeltas : Z) (data : bytes) (offset : Z)
    : outcome (list Z * Z) :=
  '(result, pos) <-
    decompileDeltas_loop (S (Z.to_nat numDeltas)) numDeltas data [] offset ;;
  _ <- assert (len result =? numDeltas) ;;
  Ok (result, pos).

(** ** Header size *)

Definition getTupleSize_ (flags axisCount : Z) : Z :=
  let size := 4 in
  let size :=
    if negb (Z.land flags EMBEDDED_PEAK_TUPLE =? 0)
    then size + axisCount * 2 else size in
  let size :=
    if negb (Z.land flags INTERMEDIATE_REGION =? 0)
    then size + axisCount * 4 else size in
  size.

(** ** Packed point numbers: the encoder *)

(** [list.sort()] on integers: the one ascending rearrangement. *)
Module ZOrder <: TotalLeBool.
Definition t := Z.
Definition leb := Z.leb.
Definition leb_total (x y : Z) : leb x y = true \/ leb y x = true :=
  match Z.le_ge_cases x y with
  | or_introl H => or_introl (proj2 (Z.leb_le x y) H)
  | or_intror H => or_intror (proj2 (Z.leb_le y x) H)
  end.
End ZOrder.
Module ZSort := Sort ZOrder.

Definition sorted (l : list Z) : list Z := ZSort.sort l.

Definition bytesjoin (chunks : list bytes) : bytes := concat chunks.

Definition MAX_RUN_LENGTH : Z := 127.

(** An empty [None] and [False] are falsy, [True] is truthy. *)
Definition truthy (b : option bool) : bool :=
  match b with
  | Some true => true
  | _ => false
  end.

(** The inner [while] of [compilePoints]: one run. *)
Fixpoint compilePoints_run (fuel : nat) (points : list Z) (numPoints : Z)
    (pos lastValue runLength : Z) (useByteEncoding : option bool)
    (run : bytes) : outcome (Z * Z * Z * option bool * bytes) :=
  match fuel with
  | O => Raise OutOfFuel
  | S fuel' =>
      if (pos <? numPoints) && (runLength <=? MAX_RUN_LENGTH) then
        curValue <- py_getitem points pos ;;
        let delta := curValue - lastValue in
        let useByte :=
          match useByteEncoding with
          | None => (0 <=? delta) && (delta <=? 0xff)
          | Some b => b
          end in
        if useByte && ((delta >? 0xff) || (delta <? 0)) then
          Ok (pos, lastValue, runLength, Some useByte, run)
        else
          w <- (if useByte then bytechr delta
                else hi <- bytechr (Z.shiftr delta 8) ;;
                     lo <- bytechr (Z.land delta 0xff) ;;
                     Ok (hi ++ lo)) ;;
          compilePoints_run fuel' points numPoints (pos + 1) curValue
            (runLength + 1) (Some useByte) (run ++ w)
      else Ok (pos, lastValue, runLength, useByteEncoding, run)
  end.

(** The outer [while] of [compilePoints]. *)
Fixpoint compilePoints_loop (fuel : nat) (points : list Z) (numPoints : Z)
    (pos lastValue : Z) (result : list bytes) : outcome (list bytes) :=
  match fuel with
  | O => Raise OutOfFuel
  | S fuel' =>
      if pos <? numPoints then
        '(pos', lastValue', runLength, useByteEncoding, run) <-
          compilePoints_run 130 points numPoints pos lastValue 0 None [] ;;
        runHeader <-
          (if truthy useByteEncoding then bytechr (runLength - 1)
           else bytechr (Z.lor (runLength - 1) POINTS_ARE_WORDS)) ;;
        compilePoints_loop fuel' points numPoints pos' lastValue'
          (result ++ [runHeader; run])
      else Ok result
  end.

(** The set [points] is given as the list of its members, each once, in any
    order. *)
Definition compilePoints (points : list Z) (numPointsInGlyph : Z)
    : outcome bytes :=
  if len points =? numPointsInGlyph then Ok [x00]
  else
    let points := sorted points in
    let numPoints := len points in
    result <-
      (if numPoints <? 0x80 then
         c <- bytechr numPoints ;; Ok [c]
       else
         hi <- bytechr (Z.lor (Z.shiftr numPoints 8) 0x80) ;;
         lo <- bytechr (Z.land numPoints 0xff) ;;
         Ok [hi ++ lo]) ;;
    result <-
      compilePoints_loop (S (length points)) points numPoints 0 0 result ;;
    Ok (bytesjoin result).

(** ** Packed point numbers: the decoder *)

(** What [log.warning] receives: the offending points and the table. The
    message text is not modelled. *)
Inductive warning : Type :=
| PointOutOfRange (badPoints : list Z) (tableTag : string).

(** The count prefix, one or two bytes. *)
Definition decompilePoints_numPointsInData (data : bytes) (offset : Z)
    : outcome (Z * Z) :=
  let pos := offset in
  c <- py_getitem data pos ;;
  let numPointsInData := byteord c in
  let pos := pos + 1 in
  if negb (Z.land numPointsInData POINTS_ARE_WORDS =? 0) then
    c' <- py_getitem data pos ;;
    Ok (Z.lor (Z.shiftl (Z.land numPointsInData POINT_RUN_COUNT_MASK) 8)
              (byteord c'),
        pos + 1)
  else Ok (numPointsInData, pos).

Fixpoint decompilePoints_loop (fuel : nat) (numPointsInData : Z)
    (data : bytes) (result : list Z) (pos : Z) : outcome (list Z * Z) :=
  match fuel with
  | O => Raise OutOfFuel
  | S fuel' =>
      if len result <? numPointsInData then
        c <- py_getitem data pos ;;
        let runHeader := byteord c in
        let pos := pos + 1 in
        let numPointsInRun := Z.land runHeader POINT_RUN_COUNT_MASK + 1 in
        let pointsSize :=
          if negb (Z.land runHeader POINTS_ARE_WORDS =? 0)
          then numPointsInRun * 2 else numPointsInRun in
        points <-
          (if negb (Z.land runHeader POINTS_ARE_WORDS =? 0)
           then array_H (py_slice data pos (pos + pointsSize))
           else array_B (py_slice data pos (pos + pointsSize))) ;;
        _ <- assert (len points =? numPointsInRun) ;;
        decompilePoints_loop fuel' numPointsInData data (result ++ points)
          (pos + pointsSize)
      else Ok (result, pos)
  end.

(** Convert relative to absolute. *)
Fixpoint to_absolute (current : Z) (result : list Z) : list Z :=
  match result with
  | [] => []
  | delta :: rest => (current + delta) :: to_absolute (current + delta) rest
  end.

Definition out_of_range (numPoints p : Z) : bool :=
  (p <? 0) || (p >=? numPoints).

Definition string_in (s : string) (l : list string) : bool :=
  existsb (String.eqb s) l.

(** Returns the points, the new offset and the warnings logged. *)
Definition decompilePoints_ (numPoints : Z) (data : bytes) (offset : Z)
    (tableTag : string) : outcome (list Z * Z * list warning) :=
  _ <- assert (string_in tableTag ["cvar"%string; "gvar"%string]) ;;
  '(numPointsInData, pos) <- decompilePoints_numPointsInData data offset ;;
  if numPointsInData =? 0 then Ok (range numPoints, pos, [])
  else
    '(result, pos) <-
      decompilePoints_loop (S (Z.to_nat numPointsInData)) numPointsInData
        data [] pos ;;
    let result := to_absolute 0 result in
    let badPoints := nodup Z.eq_dec (filter (out_of_range numPoints) result) in
    let log :=
      match badPoints with
      | [] => []
      | _ => [PointOutOfRange badPoints tableTag]
      end in
    Ok (result, pos, log).

(** ** The TupleVariation aggregate and [compile] *)

(** One entry of [coordinates]: a pair of deltas ('gvar') or one delta
    ('cvar'); [None] where unset. *)
Inductive delta : Type :=
| XY (x y : Z)
| CVT (value : Z).

(** [c[0]] and [c[1]]: an integer cannot be indexed. *)
Definition delta_getitem (c : delta) (i : Z) : outcome Z :=
  match c with
  | XY x y =>
      if (i =? 0) || (i =? -2) then Ok x
      else if (i =? 1) || (i =? -1) then Ok y
      else Raise IndexError
  | CVT _ => Raise TypeError
  end.

Fixpoint bytes_eqb (a b : bytes) : bool :=
  match a, b with
  | [], [] => true
  | x :: a', y :: b' => Byte.eqb x y && bytes_eqb a' b'
  | _, _ => false
  end.

(** A [dict], as the list of its items; a key occurs once. *)
Fixpoint dict_get {K V : Type} (eqb : K -> K -> bool) (d : list (K * V))
    (k : K) : option V :=
  match d with
  | [] => None
  | (k', v) :: d' => if eqb k k' then Some v else dict_get eqb d' k
  end.

Section Compile.

(** Python floats and [fontTools.misc.fixedTools.floatToFixed], which the
    coordinate encoder uses, are taken as given. *)
Variable float : Type.
Variable zero : float.
Variable flt : float -> float -> bool.
Variable feq : float -> float -> bool.
Variable floatToFixed : float -> Z -> Z.

(** [min(a, b)] and [max(a, b)] keep [a] unless [b] is strictly better. *)
Definition py_min (a b : float) : float := if flt b a then b else a.
Definition py_max (a b : float) : float := if flt a b then b else a.

Record TupleVariation : Type := {
  axes : list (string * (float * float * float));
  coordinates : list (option delta)
}.

Definition axes_get (self : TupleVariation) (axis : string)
    : float * float * float :=
  match dict_get String.eqb (axes self) axis with
  | Some v => v
  | None => (zero, zero, zero)
  end.

Fixpoint getUsedPoints_from (i : Z) (coordinates : list (option delta))
    : list Z :=
  match coordinates with
  | [] => []
  | Some _ :: rest => i :: getUsedPoints_from (i + 1) rest
  | None :: rest => getUsedPoints_from (i + 1) rest
  end.

Definition getUsedPoints (self : TupleVariation) : list Z :=
  getUsedPoints_from 0 (coordinates self).

Fixpoint compileCoord_axes (self : TupleVariation) (axisTags : list string)
    : outcome (list bytes) :=
  match axisTags with
  | [] => Ok []
  | axis :: rest =>
      let '(_minValue, value, _maxValue) := axes_get self axis in
      c <- pack_h (floatToFixed value 14) ;;
      result <- compileCoord_axes self rest ;;
      Ok (c :: result)
  end.

Definition compileCoord (self : TupleVariation) (axisTags : list string)
    : outcome bytes :=
  result <- compileCoord_axes self axisTags ;;
  Ok (bytesjoin result).

Fixpoint compileIntermediateCoord_needed (self : TupleVariation)
    (axisTags : list string) : bool :=
  match axisTags with
  | [] => false
  | axis :: rest =>
      let '(minValue, value, maxValue) := axes_get self axis in
      let defaultMinValue := py_min value zero in
      let defaultMaxValue := py_max value zero in
      if negb (feq minValue defaultMinValue)
         || negb (feq maxValue defaultMaxValue)
      then true
      else compileIntermediateCoord_needed self rest
  end.

Fixpoint compileIntermediateCoord_axes (self : TupleVariation)
    (axisTags : list string) : outcome (list bytes * list bytes) :=
  match axisTags with
  | [] => Ok ([], [])
  | axis :: rest =>
      let '(minValue, _value, maxValue) := axes_get self axis in
      lo <- pack_h (floatToFixed minValue 14) ;;
      hi <- pack_h (floatToFixed maxValue 14) ;;
      '(minCoords, maxCoords) <- compileIntermediateCoord_axes self rest ;;
      Ok (lo :: minCoords, hi :: maxCoords)
  end.

Definition compileIntermediateCoord (self : TupleVariation)
    (axisTags : list string) : outcome (option bytes) :=
  if negb (compileIntermediateCoord_needed self axisTags) then Ok None
  else
    '(minCoords, maxCoords) <- compileIntermediateCoord_axes self axisTags ;;
    Ok (Some (bytesjoin (minCoords ++ maxCoords))).

Fixpoint compileDeltas_collect (self : TupleVariation) (points : list Z)
    : outcome (list Z * list Z) :=
  match points with
  | [] => Ok ([], [])
  | p :: rest =>
      c <- py_getitem (coordinates self) p ;;
      match c with
      | Some c =>
          x <- delta_getitem c 0 ;;
          y <- delta_getitem c 1 ;;
          '(deltaX, deltaY) <- compileDeltas_collect self rest ;;
          Ok (x :: deltaX, y :: deltaY)
      | None => compileDeltas_collect self rest
      end
  end.

Definition compileDeltas (self : TupleVariation) (points : list Z)
    : outcome bytes :=
  '(deltaX, deltaY) <- compileDeltas_collect self (sorted points) ;;
  xs <- compileDeltaValues_ deltaX ;;
  ys <- compileDeltaValues_ deltaY ;;
  Ok (xs ++ ys).

Definition compile (self : TupleVariation) (axisTags : list string)
    (sharedCoordIndices : list (bytes * Z)) (sharedPoints : option (list Z))
    : outcome (bytes * bytes) :=
  let tupleData := [] in
  _ <- assert (forallb (fun tag => string_in tag axisTags)
                 (map fst (axes self))) ;;
  coord <- compileCoord self axisTags ;;
  let '(flags, tupleData) :=
    match dict_get bytes_eqb sharedCoordIndices coord with
    | Some index => (index, tupleData)
    | None => (EMBEDDED_PEAK_TUPLE, tupleData ++ [coord])
    end in
  intermediateCoord <- compileIntermediateCoord self axisTags ;;
  let '(flags, tupleData) :=
    match intermediateCoord with
    | Some ic => (Z.lor flags INTERMEDIATE_REGION, tupleData ++ [ic])
    | None => (flags, tupleData)
    end in
  '(flags, auxData) <-
    match sharedPoints with
    | Some sharedPoints =>
        auxData <- compileDeltas self sharedPoints ;;
        Ok (flags, auxData)
    | None =>
        let flags := Z.lor flags PRIVATE_POINT_NUMBERS in
        let points := getUsedPoints self in
        let numPointsInGlyph := len (coordinates self) in
        ps <- compilePoints points numPointsInGlyph ;;
        ds <- compileDeltas self points ;;
        Ok (flags, ps ++ ds)
    end ;;
  header <- pack_HH (len auxData) flags ;;
  Ok (header ++ bytesjoin tupleData, auxData).

End Compile.

Arguments axes {float} _.
Arguments coordinates {float} _.

(** ** [hasImpact] *)

Fixpoint hasImpact_coordinates (coordinates : list (option delta)) : bool :=
  match coordinates with
  | [] => false
  | Some _ :: _ => true
  | None :: rest => hasImpact_coordinates rest
  end.

Definition hasImpact {float : Type} (self : TupleVariation float) : bool :=
  hasImpact_coordinates (coordinates self).

(** ** Reading coordinates *)

(** [struct.unpack(">h", s)[0]]: the string must be two bytes long. *)
Definition unpack_h (s : bytes) : outcome Z :=
  match s with
  | [hi; lo] => Ok (signed 16 (Z.lor (Z.shiftl (byteord hi) 8) (byteord lo)))
  | _ => Raise StructError
  end.

(** [d[k] = v] on a [dict] given as the list of its items. *)
Fixpoint dict_set {K V : Type} (eqb : K -> K -> bool) (d : list (K * V))
    (k : K) (v : V) : list (K * V) :=
  match d with
  | [] => [(k, v)]
  | (k', v') :: d' =>
      if eqb k k' then (k', v) :: d' else (k', v') :: dict_set eqb d' k v
  end.

Section Decompile.

(** [fontTools.misc.fixedTools.fixedToFloat] is taken as given. *)
Variable float : Type.
Variable fixedToFloat : Z -> Z -> float.

Fixpoint decompileCoord_axes (axisTags : list string) (data : bytes)
    (coord : list (string * float)) (pos : Z)
    : outcome (list (string * float) * Z) :=
  match axisTags with
  | [] => Ok (coord, pos)
  | axis :: rest =>
      v <- unpack_h (py_slice data pos (pos + 2)) ;;
      decompileCoord_axes rest data
        (dict_set String.eqb coord axis (fixedToFloat v 14)) (pos + 2)
  end.

Definition decompileCoord_ (axisTags : list string) (data : bytes)
    (offset : Z) : outcome (list (string * float) * Z) :=
  decompileCoord_axes axisTags data [] offset.

Fixpoint decompileCoords_rounds (rounds : list Z) (axisTags : list string)
    (data : bytes) (result : list (list (string * float))) (pos : Z)
    : outcome (list (list (string * float)) * Z) :=
  match rounds with
  | [] => Ok (result, pos)
  | _ :: rounds' =>
      '(coord, pos') <- decompileCoord_ axisTags data pos ;;
      decompileCoords_rounds rounds' axisTags data (result ++ [coord]) pos'
  end.

Definition decompileCoords_ (axisTags : list string) (numCoords : Z)
    (data : bytes) (offset : Z)
    : outcome (list (list (string * float)) * Z) :=
  decompileCoords_rounds (range numCoords) axisTags data [] offset.

End Decompile.

(** ** Vocabulary of the statements *)

Definition int8 (v : Z) : Prop := -128 <= v <= 127.
Definition int16 (v : Z) : Prop := -32768 <= v <= 32767.

(** [enc], wherever it sits in the data, is one run that the delta decoder
    reads as the values [run]. *)
Definition decodes_delta_run (enc : bytes) (run : list Z) : Prop :=
  forall fuel numDeltas pre post result,
    len result < numDeltas ->
    decompileDeltas_loop (S fuel) numDeltas (pre ++ enc ++ post) result
      (len pre)
    = decompileDeltas_loop fuel numDeltas (pre ++ enc ++ post)
        (result ++ run) (len pre + len enc).

(** [enc], wherever it sits in the data, is read by the delta decoder as
    exactly the values [values], which complete the expected count. *)
Definition decodes_deltas (enc : bytes) (values : list Z) : Prop :=
  forall fuel numDeltas pre post result,
    numDeltas = len result + len values ->
    (length values < fuel)%nat ->
    decompileDeltas_loop fuel numDeltas (pre ++ enc ++ post) result (len pre)
    = Ok (result ++ values, len pre + len enc).

(** The differences that the point encoder writes for [points], starting
    from [last], and the last point reached. *)
Fixpoint deltas_of (last : Z) (points : list Z) : list Z :=
  match points with
  | [] => []
  | p :: rest => (p - last) :: deltas_of p rest
  end.

Fixpoint last_of (last : Z) (points : list Z) : Z :=
  match points with
  | [] => last
  | p :: rest => last_of p rest
  end.

(** [points] go strictly up, from above [last]. *)
Fixpoint ascending (last : Z) (points : list Z) : Prop :=
  match points with
  | [] => True
  | p :: rest => last < p /\ ascending p rest
  end.

(** What one point difference looks like in a byte run and in a word run. *)
Definition point_item (useByteEncoding : bool) (d : Z) : bytes :=
  if useByteEncoding then [byte_of_Z d]
  else [byte_of_Z (Z.shiftr d 8); byte_of_Z (Z.land d 0xff)].

(** The same two notions for the point decoder. *)
Definition decodes_point_run (enc : bytes) (run : list Z) : Prop :=
  forall fuel numPointsInData pre post result,
    len result < numPointsInData ->
    decompilePoints_loop (S fuel) numPointsInData (pre ++ enc ++ post) result
      (len pre)
    = decompilePoints_loop fuel numPointsInData (pre ++ enc ++ post)
        (result ++ run) (len pre + len enc).

Definition decodes_points (enc : bytes) (values : list Z) : Prop :=
  forall fuel numPointsInData pre post result,
    numPointsInData = len result + len values ->
    (length values < fuel)%nat ->
    decompilePoints_loop fuel numPointsInData (pre ++ enc ++ post) result
      (len pre)
    = Ok (result ++ values, len pre + len enc).

(** The point-set round trip: [S] compiles, and the bytes decode, from
    offset 0, to the members of [S] in ascending order, to the end of the
    bytes, with nothing logged. *)
Definition points_roundtrip (S : list Z) (N : Z) (tableTag : string) : Prop :=
  exists enc,
    compilePoints S N = Ok enc /\
    decompilePoints_ N enc 0 tableTag = Ok (sorted S, len enc, []).

(** * Proofs *)

(** ** Ranges and checks by enumeration *)

Lemma count_from_length lo n : length (count_from lo n) = n.
Proof. revert lo; induction n; simpl; intros; congruence. Qed.

Lemma In_count_from n : forall lo v,
  lo <= v < lo + Z.of_nat n -> In v (count_from lo n).
Proof.
  induction n; simpl; intros lo v H; [lia|].
  destruct (Z.eq_dec lo v); [left; assumption|right].
  apply IHn. lia.
Qed.

Lemma count_from_bounds n : forall lo v,
  In v (count_from lo n) -> lo <= v < lo + Z.of_nat n.
Proof.
  induction n; simpl; intros lo v H; [contradiction|].
  destruct H as [H|H]; [lia|]. apply IHn in H. lia.
Qed.

Lemma In_py_range lo hi v : lo <= v < hi -> In v (py_range lo hi).
Proof. intros H. apply In_count_from. lia. Qed.

Lemma check_range (P : Z -> bool) lo hi :
  forallb P (py_range lo hi) = true ->
  forall v, lo <= v < hi -> P v = true.
Proof.
  intros H v Hv. rewrite forallb_forall in H. apply H, In_py_range, Hv.
Qed.

Lemma count_from_app n m : forall lo,
  count_from lo (n + m) = count_from lo n ++ count_from (lo + Z.of_nat n) m.
Proof.
  induction n; intros lo.
  - simpl. f_equal. lia.
  - cbn [count_from Nat.add app]. rewrite IHn. do 3 f_equal. lia.
Qed.

Lemma len_app {A} (a b : list A) : len (a ++ b) = len a + len b.
Proof. unfold len. rewrite length_app. lia. Qed.

Lemma len_nonneg {A} (l : list A) : 0 <= len l.
Proof. unfold len. lia. Qed.

Lemma len_cons {A} (x : A) (l : list A) : len (x :: l) = 1 + len l.
Proof. unfold len. cbn [length]. lia. Qed.

Lemma len_nil {A} : len (@nil A) = 0.
Proof. reflexivity. Qed.

Lemma len_range n : 0 <= n -> len (range n) = n.
Proof.
  intros H. unfold len, range, py_range. rewrite count_from_length. lia.
Qed.

(** ** Bytes *)

Lemma byteord_bounds b : 0 <= byteord b < 256.
Proof.
  unfold byteord. pose proof (Byte.to_N_bounded b). lia.
Qed.

Lemma byteord_byte_of_Z n : 0 <= n < 256 -> byteord (byte_of_Z n) = n.
Proof.
  intros H. apply Z.eqb_eq.
  apply (check_range (fun n => byteord (byte_of_Z n) =? n) 0 256); auto.
Qed.

Lemma byte_of_Z_byteord b : byte_of_Z (byteord b) = b.
Proof. destruct b; reflexivity. Qed.

(** ** Sequence access *)

Lemma py_getitem_app {A} (pre post : list A) (x : A) :
  py_getitem (pre ++ x :: post) (len pre) = Ok x.
Proof.
  unfold py_getitem. pose proof (len_nonneg pre).
  destruct (Z.ltb_spec (len pre) 0); [lia|].
  destruct (Z.ltb_spec (len pre) 0); [lia|].
  unfold len. rewrite Nat2Z.id, nth_error_app2 by lia.
  rewrite Nat.sub_diag. reflexivity.
Qed.

Lemma py_getitem_at {A} (pre post : list A) (x : A) (i : Z) :
  i = len pre -> py_getitem (pre ++ x :: post) i = Ok x.
Proof. intros ->. apply py_getitem_app. Qed.

Lemma py_slice_app {A} (pre mid post : list A) (lo hi : Z) :
  lo = len pre -> hi = len pre + len mid ->
  py_slice (pre ++ mid ++ post) lo hi = mid.
Proof.
  intros -> ->. unfold py_slice, py_clip.
  pose proof (len_nonneg pre). pose proof (len_nonneg mid).
  pose proof (len_nonneg post).
  rewrite !len_app.
  destruct (Z.ltb_spec (len pre) 0); [lia|].
  destruct (Z.ltb_spec (len pre + len mid) 0); [lia|].
  rewrite !Z.min_l by lia.
  replace (len pre + len mid - len pre) with (len mid) by lia.
  unfold len. rewrite !Nat2Z.id.
  rewrite skipn_app, skipn_all, Nat.sub_diag. simpl.
  rewrite firstn_app, firstn_all, Nat.sub_diag. simpl.
  apply app_nil_r.
Qed.

(** ** Testing a flag bit *)

Lemma land_pow2 a n :
  0 <= n -> Z.land a (2 ^ n) = if Z.testbit a n then 2 ^ n else 0.
Proof.
  intros Hn. apply Z.bits_inj'. intros m Hm.
  rewrite Z.land_spec, Z.pow2_bits_eqb by assumption.
  destruct (Z.eqb_spec n m) as [->|Hne].
  - destruct (Z.testbit a m) eqn:E; simpl.
    + rewrite Z.pow2_bits_true; auto.
    + rewrite Z.bits_0. reflexivity.
  - rewrite andb_false_r.
    destruct (Z.testbit a n).
    + rewrite Z.pow2_bits_false; auto.
    + rewrite Z.bits_0. reflexivity.
Qed.

Lemma flag_test a n :
  0 <= n -> negb (Z.land a (2 ^ n) =? 0) = Z.testbit a n.
Proof.
  intros Hn. rewrite land_pow2 by assumption.
  destruct (Z.testbit a n).
  - assert (0 < 2 ^ n) by (apply Z.pow_pos_nonneg; lia).
    destruct (Z.eqb_spec (2 ^ n) 0); [lia|reflexivity].
  - reflexivity.
Qed.

(** ** C9: the header size *)

(** C9. For every flags word and axis count, [getTupleSize_] is 4, plus
    [2 * axisCount] when bit 0x8000 (EMBEDDED_PEAK_TUPLE) of the flags is
    set, plus [4 * axisCount] when bit 0x4000 (INTERMEDIATE_REGION) is set. *)
Theorem getTupleSize_law (flags axisCount : Z) :
  getTupleSize_ flags axisCount
  = 4 + (if Z.testbit flags 15 then 2 * axisCount else 0)
      + (if Z.testbit flags 14 then 4 * axisCount else 0).
Proof.
  unfold getTupleSize_, EMBEDDED_PEAK_TUPLE, INTERMEDIATE_REGION.
  change 0x8000 with (2 ^ 15). change 0x4000 with (2 ^ 14).
  rewrite !flag_test by lia.
  destruct (Z.testbit flags 15), (Z.testbit flags 14); lia.
Qed.

(** ** The delta encoder, run by run

    The list of deltas is split as [done ++ rest], with [pos = len done]. *)

Lemma snoc_app {A} (done : list A) (x : A) (rest : list A) :
  done ++ x :: rest = (done ++ [x]) ++ rest.
Proof. rewrite <- app_assoc. reflexivity. Qed.

Lemma len_snoc {A} (done : list A) (x : A) : len (done ++ [x]) = len done + 1.
Proof. rewrite len_app. reflexivity. Qed.

Lemma py_getitem_next {A} (done rest : list A) (x y : A) :
  py_getitem (done ++ x :: y :: rest) (len done + 1) = Ok y.
Proof.
  rewrite snoc_app. apply py_getitem_at. symmetry. apply len_snoc.
Qed.

Lemma pos_in_range {A} (done rest : list A) (x : A) :
  (len done <? len (done ++ x :: rest)) = true.
Proof. apply Z.ltb_lt. rewrite len_app, len_cons. pose proof (len_nonneg rest). lia. Qed.

Lemma pos_at_end {A} (done : list A) :
  (len done <? len (done ++ [])) = false.
Proof. rewrite app_nil_r. apply Z.ltb_irrefl. Qed.

Create Rewrite HintDb len.
#[local] Hint Rewrite @len_app @len_cons @len_nil : len.
Ltac len_simpl := autorewrite with len in *.

Lemma zeroes_loop_spec : forall rest fuel done runLength,
  0 <= runLength <= 64 ->
  (Z.to_nat (64 - runLength) < fuel)%nat ->
  exists zs rest',
    rest = zs ++ rest' /\
    Forall (fun v => v = 0) zs /\
    runLength + len zs <= 64 /\
    encodeDeltaRunAsZeroes_loop fuel (done ++ rest) (len done) runLength
      = Ok (len done + len zs, runLength + len zs) /\
    (forall x r, rest = x :: r -> x = 0 -> runLength < 64 -> zs <> []).
Proof.
  induction rest as [|x r IH]; intros fuel done rl Hrl Hfuel;
    (destruct fuel as [|fuel]; [lia|]); cbn [encodeDeltaRunAsZeroes_loop].
  - exists [], []. rewrite pos_at_end. cbn [andb]. len_simpl.
    repeat split; auto; try lia; try (f_equal; f_equal; lia).
    intros ? ? [=].
  - rewrite pos_in_range. cbn [andb].
    destruct (Z.ltb_spec rl 64) as [Hlt|Hge].
    + rewrite py_getitem_app. cbn [bind].
      destruct (Z.eqb_spec x 0) as [->|Hx].
      * destruct (IH fuel (done ++ [0]) (rl + 1))
          as (zs & rest' & E & Hz & Hb & Hrun & _); [lia|lia|].
        exists (0 :: zs), rest'.
        rewrite <- snoc_app, len_snoc in Hrun. len_simpl.
        repeat split; auto; try lia.
        -- cbn. congruence.
        -- rewrite Hrun. f_equal. f_equal; lia.
        -- intros; discriminate.
      * exists [], (x :: r). len_simpl.
        repeat split; auto; try lia; try (f_equal; f_equal; lia).
        intros ? ? [= <- <-] ?. contradiction.
    + exists [], (x :: r). len_simpl.
      repeat split; auto; try lia; try (f_equal; f_equal; lia).
Qed.

Lemma next_in_range {A} (done rest : list A) (x y : A) :
  (len done + 1 <? len (done ++ x :: y :: rest)) = true.
Proof. apply Z.ltb_lt. len_simpl. pose proof (len_nonneg rest). lia. Qed.

Lemma next_at_end {A} (done : list A) (x : A) :
  (len done + 1 <? len (done ++ [x])) = false.
Proof. apply Z.ltb_ge. len_simpl. lia. Qed.

(** One round of the byte-run loop, at a value that fits a byte. *)
Lemma bytes_loop_step fuel done x rest runLength :
  runLength < 64 -> -128 <= x <= 127 ->
  encodeDeltaRunAsBytes_loop (S fuel) (done ++ x :: rest) (len done) runLength
  = if (x =? 0) && match rest with y :: _ => y =? 0 | [] => false end
    then Ok (len done, runLength)
    else encodeDeltaRunAsBytes_loop fuel (done ++ x :: rest) (len done + 1)
           (runLength + 1).
Proof.
  intros Hrl Hx. cbn [encodeDeltaRunAsBytes_loop].
  rewrite pos_in_range, py_getitem_app. cbn [andb bind].
  destruct (Z.ltb_spec runLength 64); [|lia].
  destruct (Z.ltb_spec x (-128)); [lia|].
  destruct (Z.gtb_spec x 127); [lia|]. cbn [orb].
  destruct (x =? 0); cbn [andb bind]; [|reflexivity].
  destruct rest as [|y rest].
  - rewrite next_at_end. reflexivity.
  - rewrite next_in_range, py_getitem_next. cbn [bind]. reflexivity.
Qed.

Ltac stop_here x r :=
  exists [], (x :: r); len_simpl;
  repeat split; auto; try lia; try (f_equal; f_equal; lia);
  try (intros; lia).

Lemma bytes_loop_spec : forall rest fuel done runLength,
  0 <= runLength <= 64 ->
  (Z.to_nat (64 - runLength) < fuel)%nat ->
  exists bs rest',
    rest = bs ++ rest' /\
    Forall (fun v => -128 <= v <= 127) bs /\
    runLength + len bs <= 64 /\
    encodeDeltaRunAsBytes_loop fuel (done ++ rest) (len done) runLength
      = Ok (len done + len bs, runLength + len bs) /\
    (forall x r, rest = x :: r -> -128 <= x <= 127 -> x <> 0 ->
                 runLength < 64 -> bs <> []).
Proof.
  induction rest as [|x r IH]; intros fuel done rl Hrl Hfuel;
    (destruct fuel as [|fuel]; [lia|]).
  - cbn [encodeDeltaRunAsBytes_loop].
    exists [], []. rewrite pos_at_end. cbn [andb]. len_simpl.
    repeat split; auto; try lia; try (f_equal; f_equal; lia).
    intros; discriminate.
  - destruct (Z.ltb_spec rl 64) as [Hlt|Hge].
    2:{ cbn [encodeDeltaRunAsBytes_loop]. rewrite pos_in_range. cbn [andb].
        destruct (Z.ltb_spec rl 64); [lia|]. stop_here x r. }
    destruct (Z_le_dec (-128) x) as [Hlo|Hlo], (Z_le_dec x 127) as [Hhi|Hhi].
    2,3,4: cbn [encodeDeltaRunAsBytes_loop];
      rewrite pos_in_range, py_getitem_app; cbn [andb bind];
      destruct (Z.ltb_spec rl 64); [|lia];
      destruct (Z.ltb_spec x (-128)), (Z.gtb_spec x 127); try lia;
      cbn [orb]; stop_here x r; intros ? ? [= <- <-]; lia.
    rewrite bytes_loop_step by lia.
    destruct ((x =? 0) && match r with y :: _ => y =? 0 | [] => false end)
      eqn:Estop.
    + stop_here x r. intros ? ? [= <- <-] _ Hx _.
      apply andb_prop in Estop. destruct Estop as [E0 _].
      apply Z.eqb_eq in E0. contradiction.
    + destruct (IH fuel (done ++ [x]) (rl + 1))
        as (bs & rest' & E & Hb & Hlen & Hrun & _); [lia|lia|].
      exists (x :: bs), rest'.
      rewrite <- snoc_app, len_snoc in Hrun. len_simpl.
      repeat split; auto; try lia.
      * cbn. congruence.
      * rewrite Hrun. f_equal. f_equal; lia.
      * intros; discriminate.
Qed.

(** One round of the word-run loop. *)
Lemma words_loop_step fuel done x rest runLength :
  runLength < 64 ->
  encodeDeltaRunAsWords_loop (S fuel) (done ++ x :: rest) (len done) runLength
  = if (x =? 0)
       || (isByteEncodable x
           && match rest with y :: _ => isByteEncodable y | [] => false end)
    then Ok (len done, runLength)
    else encodeDeltaRunAsWords_loop fuel (done ++ x :: rest) (len done + 1)
           (runLength + 1).
Proof.
  intros Hrl. cbn [encodeDeltaRunAsWords_loop].
  rewrite pos_in_range, py_getitem_app. cbn [andb bind].
  destruct (Z.ltb_spec runLength 64); [|lia].
  destruct (x =? 0); cbn [orb]; [reflexivity|].
  destruct (isByteEncodable x); cbn [andb bind]; [|reflexivity].
  destruct rest as [|y rest].
  - rewrite next_at_end. reflexivity.
  - rewrite next_in_range, py_getitem_next. cbn [bind]. reflexivity.
Qed.

Lemma isByteEncodable_spec v :
  isByteEncodable v = true <-> -128 <= v <= 127.
Proof. unfold isByteEncodable. lia. Qed.

Lemma words_loop_spec : forall rest fuel done runLength,
  0 <= runLength <= 64 ->
  (Z.to_nat (64 - runLength) < fuel)%nat ->
  exists ws rest',
    rest = ws ++ rest' /\
    runLength + len ws <= 64 /\
    encodeDeltaRunAsWords_loop fuel (done ++ rest) (len done) runLength
      = Ok (len done + len ws, runLength + len ws) /\
    (forall x r, rest = x :: r -> isByteEncodable x = false ->
                 runLength < 64 -> ws <> []).
Proof.
  induction rest as [|x r IH]; intros fuel done rl Hrl Hfuel;
    (destruct fuel as [|fuel]; [lia|]).
  - cbn [encodeDeltaRunAsWords_loop].
    exists [], []. rewrite pos_at_end. cbn [andb]. len_simpl.
    repeat split; auto; try lia; try (f_equal; f_equal; lia).
    intros; discriminate.
  - destruct (Z.ltb_spec rl 64) as [Hlt|Hge].
    2:{ cbn [encodeDeltaRunAsWords_loop]. rewrite pos_in_range. cbn [andb].
        destruct (Z.ltb_spec rl 64); [lia|]. stop_here x r. }
    rewrite words_loop_step by lia.
    destruct ((x =? 0) || _) eqn:Estop.
    + stop_here x r. intros ? ? [= <- <-] Hx _.
      rewrite Hx in Estop. cbn [andb] in Estop. rewrite orb_false_r in Estop.
      apply Z.eqb_eq in Estop. subst x. discriminate.
    + destruct (IH fuel (done ++ [x]) (rl + 1))
        as (ws & rest' & E & Hlen & Hrun & _); [lia|lia|].
      exists (x :: ws), rest'.
      rewrite <- snoc_app, len_snoc in Hrun. len_simpl.
      repeat split; auto; try lia.
      * cbn. congruence.
      * rewrite Hrun. f_equal. f_equal; lia.
      * intros; discriminate.
Qed.

(** The payload loop writes the packed values of the run. *)
Lemma py_range_cons lo hi : lo < hi -> py_range lo hi = lo :: py_range (lo + 1) hi.
Proof.
  intros H. unfold py_range.
  replace (Z.to_nat (hi - lo)) with (S (Z.to_nat (hi - (lo + 1)))) by lia.
  reflexivity.
Qed.

Lemma py_range_nil lo hi : hi <= lo -> py_range lo hi = [].
Proof.
  intros H. unfold py_range. replace (Z.to_nat (hi - lo)) with O by lia.
  reflexivity.
Qed.

Lemma write_deltas_spec (pack : Z -> outcome bytes) (P : Z -> Prop)
    (f : Z -> bytes) :
  (forall v, P v -> pack v = Ok (f v)) ->
  forall run done rest stream,
    Forall P run ->
    write_deltas pack (done ++ run ++ rest)
      (py_range (len done) (len done + len run)) stream
    = Ok (stream ++ flat_map f run).
Proof.
  intros Hpack. induction run as [|x run IH]; intros done rest stream HP.
  - rewrite py_range_nil by (len_simpl; lia). cbn. rewrite app_nil_r.
    reflexivity.
  - inversion HP as [|? ? Hx HP']; subst.
    rewrite py_range_cons by (len_simpl; pose proof (len_nonneg run); lia).
    cbn [write_deltas app]. rewrite py_getitem_app. cbn [bind].
    rewrite (Hpack x Hx). cbn [bind].
    rewrite snoc_app.
    replace (len done + len (x :: run)) with (len (done ++ [x]) + len run)
      by (len_simpl; lia).
    rewrite <- len_snoc with (x := x). rewrite IH by assumption.
    cbn [flat_map]. rewrite app_assoc. reflexivity.
Qed.

(** ** Run headers and payload items, bit by bit *)

Lemma delta_header_bits k :
  1 <= k <= 64 ->
  let z := Z.lor DELTAS_ARE_ZERO (k - 1) in
  let b := k - 1 in
  let w := Z.lor DELTAS_ARE_WORDS (k - 1) in
  (0 <= z < 256 /\ Z.land z DELTA_RUN_COUNT_MASK + 1 = k
   /\ (Z.land z DELTAS_ARE_ZERO =? 0) = false) /\
  (0 <= b < 256 /\ Z.land b DELTA_RUN_COUNT_MASK + 1 = k
   /\ (Z.land b DELTAS_ARE_ZERO =? 0) = true
   /\ (Z.land b DELTAS_ARE_WORDS =? 0) = true) /\
  (0 <= w < 256 /\ Z.land w DELTA_RUN_COUNT_MASK + 1 = k
   /\ (Z.land w DELTAS_ARE_ZERO =? 0) = true
   /\ (Z.land w DELTAS_ARE_WORDS =? 0) = false).
Proof.
  intros Hk.
  pose (P := fun k =>
    let z := Z.lor DELTAS_ARE_ZERO (k - 1) in
    let b := k - 1 in
    let w := Z.lor DELTAS_ARE_WORDS (k - 1) in
    ((0 <=? z) && (z <? 256) && (Z.land z DELTA_RUN_COUNT_MASK + 1 =? k)
     && negb (Z.land z DELTAS_ARE_ZERO =? 0))
    && ((0 <=? b) && (b <? 256) && (Z.land b DELTA_RUN_COUNT_MASK + 1 =? k)
        && (Z.land b DELTAS_ARE_ZERO =? 0) && (Z.land b DELTAS_ARE_WORDS =? 0))
    && ((0 <=? w) && (w <? 256) && (Z.land w DELTA_RUN_COUNT_MASK + 1 =? k)
        && (Z.land w DELTAS_ARE_ZERO =? 0)
        && negb (Z.land w DELTAS_ARE_WORDS =? 0))).
  assert (H : P k = true)
    by (apply (check_range P 1 65); [vm_compute; reflexivity | lia]).
  unfold P in H. cbv zeta in *.
  repeat (apply andb_prop in H; destruct H as [H ?]).
  repeat match goal with
         | H : negb _ = true |- _ => apply negb_true_iff in H
         end.
  repeat split; try lia; assumption.
Qed.

Lemma signed8_pack v :
  int8 v -> signed 8 (byteord (byte_of_Z v)) = v.
Proof.
  intros H. apply Z.eqb_eq.
  apply (check_range (fun v => signed 8 (byteord (byte_of_Z v)) =? v)
           (-128) 128); [vm_compute; reflexivity | unfold int8 in H; lia].
Qed.

Lemma signed16_pack v :
  int16 v ->
  signed 16 (Z.lor (Z.shiftl (byteord (byte_of_Z (Z.shiftr v 8))) 8)
                   (byteord (byte_of_Z (Z.land v 255)))) = v.
Proof.
  intros H. apply Z.eqb_eq.
  apply (check_range
           (fun v => signed 16
              (Z.lor (Z.shiftl (byteord (byte_of_Z (Z.shiftr v 8))) 8)
                     (byteord (byte_of_Z (Z.land v 255)))) =? v)
           (-32768) 32768); [vm_compute; reflexivity | unfold int16 in H; lia].
Qed.

(** ** The delta decoder, run by run *)

Lemma zero_run_decodes k :
  1 <= k <= 64 ->
  decodes_delta_run [byte_of_Z (Z.lor DELTAS_ARE_ZERO (k - 1))]
    (repeat 0 (Z.to_nat k)).
Proof.
  intros Hk fuel numDeltas pre post result Hlt.
  destruct (delta_header_bits k Hk) as ((Hr & Hn & Hz) & _).
  cbn [decompileDeltas_loop app].
  destruct (Z.ltb_spec (len result) numDeltas); [|lia].
  rewrite py_getitem_app. cbn [bind].
  rewrite byteord_byte_of_Z by assumption.
  rewrite Hz, Hn. cbn [negb]. len_simpl. reflexivity.
Qed.

Lemma byte_run_decodes bs :
  1 <= len bs <= 64 -> Forall int8 bs ->
  decodes_delta_run (byte_of_Z (len bs - 1) :: flat_map (fun v => [byte_of_Z v]) bs)
    bs.
Proof.
  intros Hk Hbs fuel numDeltas pre post result Hlt.
  destruct (delta_header_bits (len bs) Hk) as (_ & (Hr & Hn & Hz & Hw) & _).
  cbn [decompileDeltas_loop app].
  destruct (Z.ltb_spec (len result) numDeltas); [|lia].
  rewrite py_getitem_app. cbn [bind].
  rewrite byteord_byte_of_Z by assumption.
  rewrite Hz, Hw, Hn. cbn [negb].
  assert (Hlen : len (flat_map (fun v => [byte_of_Z v]) bs) = len bs).
  { clear. induction bs; [reflexivity|]. cbn [flat_map app]. len_simpl. lia. }
  rewrite snoc_app.
  rewrite (py_slice_app (pre ++ [_])) by (len_simpl; lia).
  unfold array_b. cbn [bind].
  assert (Hmap : map (fun c => signed 8 (byteord c))
                   (flat_map (fun v => [byte_of_Z v]) bs) = bs).
  { clear - Hbs. induction Hbs as [|x l Hx _ IH]; [reflexivity|].
    cbn [flat_map app map]. rewrite signed8_pack by assumption.
    f_equal. assumption. }
  rewrite Hmap. rewrite Z.eqb_refl. cbn [assert bind].
  len_simpl. rewrite Hlen. f_equal. lia.
Qed.

Lemma words_of_pack ws :
  Forall int16 ws ->
  array_h (flat_map (fun v => [byte_of_Z (Z.shiftr v 8); byte_of_Z (Z.land v 255)]) ws)
  = Ok ws.
Proof.
  unfold array_h. induction 1 as [|x l Hx _ IH]; [reflexivity|].
  cbn [flat_map app words_of].
  destruct (words_of _) as [ws'|e]; [|discriminate].
  cbn [bind map] in *. rewrite signed16_pack by assumption.
  congruence.
Qed.

Lemma word_run_decodes ws :
  1 <= len ws <= 64 -> Forall int16 ws ->
  decodes_delta_run
    (byte_of_Z (Z.lor DELTAS_ARE_WORDS (len ws - 1))
     :: flat_map (fun v => [byte_of_Z (Z.shiftr v 8); byte_of_Z (Z.land v 255)]) ws)
    ws.
Proof.
  intros Hk Hws fuel numDeltas pre post result Hlt.
  destruct (delta_header_bits (len ws) Hk) as (_ & _ & (Hr & Hn & Hz & Hw)).
  cbn [decompileDeltas_loop app].
  destruct (Z.ltb_spec (len result) numDeltas); [|lia].
  rewrite py_getitem_app. cbn [bind].
  rewrite byteord_byte_of_Z by assumption.
  rewrite Hz, Hw, Hn. cbn [negb].
  assert (Hlen : len (flat_map (fun v => [byte_of_Z (Z.shiftr v 8);
                                          byte_of_Z (Z.land v 255)]) ws)
                 = len ws * 2).
  { clear. induction ws; [reflexivity|]. cbn [flat_map app]. len_simpl. lia. }
  rewrite snoc_app.
  rewrite (py_slice_app (pre ++ [_])) by (len_simpl; lia).
  rewrite words_of_pack by assumption. cbn [bind].
  rewrite Z.eqb_refl. cbn [assert bind].
  len_simpl. rewrite Hlen. f_equal. lia.
Qed.

(** ** Each run encoder writes a run that the decoder reads back *)

Lemma len_pos_of_nonnil {A} (l : list A) : l <> [] -> 1 <= len l.
Proof. destruct l; [congruence|]. intros _. len_simpl. pose proof (len_nonneg l). lia. Qed.

Lemma all_zero_repeat zs :
  Forall (fun v => v = 0) zs -> zs = repeat 0 (Z.to_nat (len zs)).
Proof.
  induction 1 as [|x l Hx _ IH]; [reflexivity|].
  len_simpl. pose proof (len_nonneg l).
  replace (Z.to_nat (1 + len l)) with (S (Z.to_nat (len l))) by lia.
  cbn [repeat]. congruence.
Qed.

Lemma bytechr_ok n : 0 <= n < 256 -> bytechr n = Ok [byte_of_Z n].
Proof.
  intros H. unfold bytechr.
  destruct (Z.leb_spec 0 n), (Z.ltb_spec n 256); try lia. reflexivity.
Qed.

Lemma assert_run_length k :
  1 <= k <= 64 -> assert ((k >=? 1) && (k <=? 64)) = Ok tt.
Proof.
  intros H. destruct (Z.geb_spec k 1), (Z.leb_spec k 64); try lia. reflexivity.
Qed.

Lemma encodeDeltaRunAsZeroes_spec done r stream :
  exists run rest' enc,
    0 :: r = run ++ rest' /\ run <> [] /\
    encodeDeltaRunAsZeroes_ (done ++ 0 :: r) (len done) stream
      = Ok (len done + len run, stream ++ enc) /\
    decodes_delta_run enc run.
Proof.
  destruct (zeroes_loop_spec (0 :: r) 65 done 0)
    as (zs & rest' & E & Hz & Hlen & Hrun & Hne); [lia|lia|].
  specialize (Hne 0 r eq_refl eq_refl ltac:(lia)).
  pose proof (len_pos_of_nonnil zs Hne) as Hk.
  destruct (delta_header_bits (len zs) ltac:(lia)) as ((Hr & _) & _).
  exists zs, rest', [byte_of_Z (Z.lor DELTAS_ARE_ZERO (len zs - 1))].
  repeat split; auto.
  - unfold encodeDeltaRunAsZeroes_. rewrite Hrun. cbn [bind Z.add].
    rewrite assert_run_length by lia. cbn [bind].
    rewrite bytechr_ok by assumption. reflexivity.
  - rewrite (all_zero_repeat zs Hz) at 2. apply zero_run_decodes. lia.
Qed.

Lemma pack_b_ok v : int8 v -> pack_b v = Ok [byte_of_Z v].
Proof.
  unfold int8, pack_b. intros H.
  destruct (Z.leb_spec (-128) v), (Z.leb_spec v 127); try lia. reflexivity.
Qed.

Lemma pack_h_ok v :
  int16 v ->
  pack_h v = Ok [byte_of_Z (Z.shiftr v 8); byte_of_Z (Z.land v 255)].
Proof.
  unfold int16, pack_h. intros H.
  destruct (Z.leb_spec (-32768) v), (Z.leb_spec v 32767); try lia. reflexivity.
Qed.

Lemma encodeDeltaRunAsBytes_spec done x r stream :
  int8 x -> x <> 0 ->
  exists run rest' enc,
    x :: r = run ++ rest' /\ run <> [] /\
    encodeDeltaRunAsBytes_ (done ++ x :: r) (len done) stream
      = Ok (len done + len run, stream ++ enc) /\
    decodes_delta_run enc run.
Proof.
  intros Hx Hx0.
  destruct (bytes_loop_spec (x :: r) 65 done 0)
    as (bs & rest' & E & Hb & Hlen & Hrun & Hne); [lia|lia|].
  specialize (Hne x r eq_refl Hx Hx0 ltac:(lia)).
  pose proof (len_pos_of_nonnil bs Hne) as Hk.
  destruct (delta_header_bits (len bs) ltac:(lia)) as (_ & (Hr & _) & _).
  exists bs, rest',
    (byte_of_Z (len bs - 1) :: flat_map (fun v => [byte_of_Z v]) bs).
  repeat split; auto.
  - unfold encodeDeltaRunAsBytes_. rewrite Hrun. cbn [bind Z.add].
    rewrite assert_run_length by lia. cbn [bind].
    rewrite bytechr_ok by assumption. cbn [bind].
    rewrite E.
    rewrite (write_deltas_spec pack_b int8 (fun v => [byte_of_Z v]) pack_b_ok)
      by assumption.
    cbn [bind]. rewrite <- app_assoc. reflexivity.
  - apply byte_run_decodes; [lia|assumption].
Qed.

Lemma encodeDeltaRunAsWords_spec done x r stream :
  Forall int16 (x :: r) -> isByteEncodable x = false ->
  exists run rest' enc,
    x :: r = run ++ rest' /\ run <> [] /\
    encodeDeltaRunAsWords_ (done ++ x :: r) (len done) stream
      = Ok (len done + len run, stream ++ enc) /\
    decodes_delta_run enc run.
Proof.
  intros Hall Hx.
  destruct (words_loop_spec (x :: r) 65 done 0)
    as (ws & rest' & E & Hlen & Hrun & Hne); [lia|lia|].
  specialize (Hne x r eq_refl Hx ltac:(lia)).
  pose proof (len_pos_of_nonnil ws Hne) as Hk.
  destruct (delta_header_bits (len ws) ltac:(lia)) as (_ & _ & (Hr & _)).
  assert (Hws : Forall int16 ws).
  { rewrite E in Hall. apply Forall_app in Hall. tauto. }
  exists ws, rest',
    (byte_of_Z (Z.lor DELTAS_ARE_WORDS (len ws - 1))
     :: flat_map (fun v => [byte_of_Z (Z.shiftr v 8); byte_of_Z (Z.land v 255)]) ws).
  repeat split; auto.
  - unfold encodeDeltaRunAsWords_. rewrite Hrun. cbn [bind Z.add].
    rewrite assert_run_length by lia. cbn [bind].
    rewrite bytechr_ok by assumption. cbn [bind].
    rewrite E.
    rewrite (write_deltas_spec pack_h int16 _ pack_h_ok) by assumption.
    cbn [bind]. rewrite <- app_assoc. reflexivity.
  - apply word_run_decodes; [lia|assumption].
Qed.

(** ** C2: the delta round trip *)

Lemma compileDeltaValues_loop_spec : forall n rest,
  (length rest <= n)%nat ->
  forall done stream fuel,
    (length rest < fuel)%nat ->
    Forall int16 rest ->
    exists enc,
      compileDeltaValues_loop fuel (done ++ rest) (len done) stream
        = Ok (stream ++ enc) /\
      decodes_deltas enc rest.
Proof.
  induction n as [|n IH]; intros rest Hn done stream fuel Hfuel Hall;
    (destruct fuel as [|fuel]; [lia|]).
  - destruct rest; [|cbn in Hn; lia].
    exists []. cbn [compileDeltaValues_loop]. rewrite pos_at_end, app_nil_r.
    split; [reflexivity|].
    intros [|fuel'] numDeltas pre post result Hnum Hf; [cbn in Hf; lia|].
    cbn [decompileDeltas_loop]. len_simpl.
    destruct (Z.ltb_spec (len result) numDeltas); [lia|].
    rewrite app_nil_r. f_equal. f_equal. lia.
  - destruct rest as [|x r].
    { exists []. cbn [compileDeltaValues_loop]. rewrite pos_at_end, app_nil_r.
      split; [reflexivity|].
      intros [|fuel'] numDeltas pre post result Hnum Hf; [cbn in Hf; lia|].
      cbn [decompileDeltas_loop]. len_simpl.
      destruct (Z.ltb_spec (len result) numDeltas); [lia|].
      rewrite app_nil_r. f_equal. f_equal. lia. }
    assert (Hstep : exists run rest' enc,
      x :: r = run ++ rest' /\ run <> [] /\
      (if x =? 0 then encodeDeltaRunAsZeroes_ (done ++ x :: r) (len done) stream
       else if (x >=? -128) && (x <=? 127)
            then encodeDeltaRunAsBytes_ (done ++ x :: r) (len done) stream
            else encodeDeltaRunAsWords_ (done ++ x :: r) (len done) stream)
      = Ok (len done + len run, stream ++ enc) /\
      decodes_delta_run enc run).
    { destruct (Z.eqb_spec x 0) as [->|Hx0].
      - apply encodeDeltaRunAsZeroes_spec.
      - destruct ((x >=? -128) && (x <=? 127)) eqn:E.
        + apply encodeDeltaRunAsBytes_spec; [unfold int8; lia|assumption].
        + apply encodeDeltaRunAsWords_spec; assumption. }
    destruct Hstep as (run & rest' & enc1 & E & Hne & Hrun & Hdec).
    cbn [compileDeltaValues_loop].
    rewrite pos_in_range, py_getitem_app. cbn [bind].
    rewrite Hrun. cbn [bind].
    assert (Hlr : (length rest' < length (x :: r))%nat).
    { rewrite E, length_app. destruct run; [congruence|]. cbn. lia. }
    assert (Hall' : Forall int16 rest').
    { rewrite E in Hall. apply Forall_app in Hall. tauto. }
    destruct (IH rest' ltac:(lia) (done ++ run) (stream ++ enc1) fuel
                ltac:(lia) Hall') as (enc2 & Hloop & Hdec2).
    exists (enc1 ++ enc2). rewrite E.
    rewrite len_app, <- app_assoc in Hloop.
    split; [rewrite Hloop, <- app_assoc; reflexivity|].
    intros [|fuel'] numDeltas pre post result Hnum Hf; [lia|].
    rewrite <- (app_assoc enc1 enc2 post).
    rewrite Hdec by (len_simpl; pose proof (len_pos_of_nonnil run Hne); pose proof (len_nonneg rest'); lia).
    specialize (Hdec2 fuel' numDeltas (pre ++ enc1) post (result ++ run)).
    rewrite <- !app_assoc in Hdec2. len_simpl.
    rewrite Hdec2.
    + f_equal. f_equal. lia.
    + lia.
    + rewrite length_app in Hf. destruct run; [congruence|]. cbn in Hf. lia.
Qed.

(** C2. Every sequence [D] of integers in [-32768, 32767] compiles to bytes
    from which [decompileDeltas_], asked for [len D] values at offset 0,
    returns [D] itself and the length of those bytes. *)
Theorem delta_roundtrip (D : list Z) :
  Forall int16 D ->
  exists enc,
    compileDeltaValues_ D = Ok enc /\
    decompileDeltas_ (len D) enc 0 = Ok (D, len enc).
Proof.
  intros HD.
  destruct (compileDeltaValues_loop_spec (length D) D (le_n _) [] []
              (S (length D)) (Nat.lt_succ_diag_r _) HD) as (enc & Hc & Hd).
  exists enc. split; [exact Hc|].
  unfold decompileDeltas_.
  specialize (Hd (S (Z.to_nat (len D))) (len D) [] [] []).
  cbn [app len length Z.of_nat] in Hd. rewrite app_nil_r in Hd.
  rewrite Hd.
  - cbn [bind]. rewrite Z.eqb_refl. reflexivity.
  - len_simpl. reflexivity.
  - unfold len. lia.
Qed.

Lemma delta_roundtrip_witness :
  exists enc,
    compileDeltaValues_ [15; 15; 0; 0; -300; 7; 0; 32767; -32768] = Ok enc /\
    decompileDeltas_ (len [15; 15; 0; 0; -300; 7; 0; 32767; -32768]) enc 0
    = Ok ([15; 15; 0; 0; -300; 7; 0; 32767; -32768], len enc).
Proof.
  apply (delta_roundtrip [15; 15; 0; 0; -300; 7; 0; 32767; -32768]).
  repeat constructor; unfold int16; lia.
Defined.

(** ** C5: a short run of zeroes is one byte *)

Lemma zero_run_byte k :
  1 <= k <= 64 ->
  compileDeltaValues_ (repeat 0 (Z.to_nat k))
  = Ok [byte_of_Z (Z.lor DELTAS_ARE_ZERO (k - 1))].
Proof.
  intros Hk.
  pose (P := fun k =>
    match compileDeltaValues_ (repeat 0 (Z.to_nat k)) with
    | Ok [b] => byteord b =? Z.lor DELTAS_ARE_ZERO (k - 1)
    | _ => false
    end).
  assert (H : P k = true)
    by (apply (check_range P 1 65); [vm_compute; reflexivity | lia]).
  unfold P in H.
  destruct (compileDeltaValues_ _) as [[|b [|? ?]]|]; try discriminate.
  apply Z.eqb_eq in H. rewrite <- H, byte_of_Z_byteord. reflexivity.
Qed.

(** C5, as the code has it. An all-zero delta sequence of length [k] with
    [1 <= k <= 64] compiles to exactly one byte, of value [0x80 | (k - 1)]. *)
Theorem zero_compression_bound (D : list Z) :
  Forall (fun v => v = 0) D ->
  1 <= len D <= 64 ->
  compileDeltaValues_ D = Ok [byte_of_Z (Z.lor DELTAS_ARE_ZERO (len D - 1))]
  /\ byteord (byte_of_Z (Z.lor DELTAS_ARE_ZERO (len D - 1)))
     = Z.lor 0x80 (len D - 1).
Proof.
  intros Hz Hk. split.
  - rewrite (all_zero_repeat D Hz) at 1. apply zero_run_byte, Hk.
  - destruct (delta_header_bits (len D) Hk) as ((Hr & _) & _).
    apply byteord_byte_of_Z, Hr.
Qed.

Lemma zero_compression_bound_witness :
  compileDeltaValues_ [0; 0; 0; 0; 0]
  = Ok [byte_of_Z (Z.lor DELTAS_ARE_ZERO (len [0; 0; 0; 0; 0] - 1))]
  /\ byteord (byte_of_Z (Z.lor DELTAS_ARE_ZERO (len [0; 0; 0; 0; 0] - 1)))
     = Z.lor 0x80 (len [0; 0; 0; 0; 0] - 1).
Proof.
  apply (zero_compression_bound [0; 0; 0; 0; 0]).
  - repeat constructor.
  - vm_compute. split; discriminate.
Defined.

(** The empty sequence is all zeroes and no longer than 64, and compiles to
    no byte at all. *)
Lemma zero_compression_empty :
  Forall (fun v => v = 0) (@nil Z) /\ len (@nil Z) <= 64 /\
  compileDeltaValues_ [] = Ok [] /\
  ~ (exists b, compileDeltaValues_ [] = Ok [b]).
Proof.
  repeat split.
  - constructor.
  - vm_compute. discriminate.
  - intros [b H]. vm_compute in H. discriminate.
Qed.

(** ** C6: an interior zero in a byte run *)

(** C6. In a byte run, at a value that fits a byte and with room left in the
    run, the run ends here exactly when this value is 0 and the next one is
    0 too; otherwise the value stays in the run. So [15, 15, 0, 15, 15]
    compiles to [04 0F 0F 00 0F 0F] and [15, 15, 0, 0, 15, 15] to
    [01 0F 0F 81 01 0F 0F]. *)
Theorem interior_zero_heuristic (fuel : nat) (done : list Z) (x : Z)
    (rest : list Z) (runLength : Z) :
  runLength < 64 -> int8 x ->
  encodeDeltaRunAsBytes_loop (S fuel) (done ++ x :: rest) (len done) runLength
  = (if (x =? 0) && match rest with y :: _ => y =? 0 | [] => false end
     then Ok (len done, runLength)
     else encodeDeltaRunAsBytes_loop fuel (done ++ x :: rest) (len done + 1)
            (runLength + 1))
  /\ compileDeltaValues_ [15; 15; 0; 15; 15]
     = Ok [x04; x0f; x0f; x00; x0f; x0f]
  /\ compileDeltaValues_ [15; 15; 0; 0; 15; 15]
     = Ok [x01; x0f; x0f; x81; x01; x0f; x0f].
Proof.
  intros Hrl Hx. split; [|split; reflexivity].
  apply bytes_loop_step; assumption.
Qed.

Lemma interior_zero_heuristic_witness :
  encodeDeltaRunAsBytes_loop 4 ([15; 15] ++ 0 :: [0; 15; 15]) (len [15; 15]) 2
  = Ok (len [15; 15], 2).
Proof.
  exact (proj1 (interior_zero_heuristic 3 [15; 15] 0 [0; 15; 15] 2
                  ltac:(lia) ltac:(unfold int8; lia))).
Defined.

(** ** C7: the zero flag wins over the word flag *)

(** C7. When the header byte of a run has bit 0x80 (DELTAS_ARE_ZERO) set, the
    decoder appends [(header & 0x3F) + 1] zeroes and moves past the header
    only, whatever bit 0x40 (DELTAS_ARE_WORDS) is; when that is the whole
    count asked for, the call returns these zeroes and [offset + 1]. *)
Theorem zero_flag_precedence (fuel : nat) (numDeltas : Z) (data : bytes)
    (result : list Z) (pos : Z) (c : byte) :
  py_getitem data pos = Ok c ->
  Z.land (byteord c) DELTAS_ARE_ZERO <> 0 ->
  let zeroes := repeat 0 (Z.to_nat (Z.land (byteord c) 0x3F + 1)) in
  (len result < numDeltas ->
   decompileDeltas_loop (S fuel) numDeltas data result pos
   = decompileDeltas_loop fuel numDeltas data (result ++ zeroes) (pos + 1))
  /\ decompileDeltas_ (Z.land (byteord c) 0x3F + 1) data pos
     = Ok (zeroes, pos + 1).
Proof.
  intros Hc Hz zeroes.
  assert (Hn : 0 <= Z.land (byteord c) 0x3F).
  { apply Z.land_nonneg. right. lia. }
  assert (Hstep : forall fuel numDeltas result,
    len result < numDeltas ->
    decompileDeltas_loop (S fuel) numDeltas data result pos
    = decompileDeltas_loop fuel numDeltas data (result ++ zeroes) (pos + 1)).
  { intros f n r Hlt. cbn [decompileDeltas_loop].
    destruct (Z.ltb_spec (len r) n); [|lia].
    rewrite Hc. cbn [bind].
    destruct (Z.eqb_spec (Z.land (byteord c) DELTAS_ARE_ZERO) 0); [contradiction|].
    reflexivity. }
  split; [apply Hstep|].
  unfold decompileDeltas_.
  rewrite Hstep by (len_simpl; lia).
  assert (Hlen : len zeroes = Z.land (byteord c) 0x3F + 1).
  { unfold zeroes, len. rewrite repeat_length. lia. }
  replace (Z.to_nat (Z.land (byteord c) 63 + 1))
    with (S (Z.to_nat (Z.land (byteord c) 63))) by lia.
  cbn [decompileDeltas_loop app].
  rewrite Hlen, Z.ltb_irrefl. cbn [bind].
  rewrite Hlen, Z.eqb_refl. reflexivity.
Qed.

Lemma zero_flag_precedence_witness :
  decompileDeltas_ (Z.land (byteord xc2) 0x3F + 1) [x07; xc2; x55] 1
  = Ok (repeat 0 (Z.to_nat (Z.land (byteord xc2) 0x3F + 1)), 1 + 1).
Proof.
  exact (proj2 (zero_flag_precedence 0 3 [x07; xc2; x55] [] 1 xc2
                  eq_refl ltac:(vm_compute; discriminate))).
Defined.

(** ** C3 and C10: the single zero byte *)

Lemma decompilePoints_zero numPoints data offset tableTag :
  string_in tableTag ["cvar"%string; "gvar"%string] = true ->
  py_getitem data offset = Ok x00 ->
  decompilePoints_ numPoints data offset tableTag
  = Ok (range numPoints, offset + 1, []).
Proof.
  intros Htag Hc. unfold decompilePoints_, decompilePoints_numPointsInData.
  rewrite Htag, Hc. reflexivity.
Qed.

Lemma compilePoints_nil numPointsInGlyph :
  compilePoints [] numPointsInGlyph = Ok [x00].
Proof.
  unfold compilePoints. destruct (len [] =? numPointsInGlyph); reflexivity.
Qed.

Lemma range_nil n : n <= 0 -> range n = [].
Proof. intros H. apply py_range_nil. lia. Qed.

(** C3. For every [N], a set holding exactly the points [0 .. N-1] compiles,
    with [numPointsInGlyph = N], to the single byte 0x00; and where the byte
    at [offset] is 0x00, [decompilePoints_] with [numPoints = N] returns
    [0, 1, ..., N-1] and [offset + 1]. *)
Theorem all_points_shortcut (N : Z) (points : list Z) (data : bytes)
    (offset : Z) (tableTag : string) :
  Permutation points (range N) ->
  string_in tableTag ["cvar"%string; "gvar"%string] = true ->
  py_getitem data offset = Ok x00 ->
  compilePoints points N = Ok [x00]
  /\ decompilePoints_ N data offset tableTag = Ok (range N, offset + 1, [])
  /\ decompilePoints_ N [x00] 0 tableTag = Ok (range N, 1, []).
Proof.
  intros Hperm Htag Hc. split; [|split].
  - destruct (Z_le_dec N 0) as [Hle|Hgt].
    + rewrite range_nil in Hperm by assumption.
      apply Permutation_sym, Permutation_nil in Hperm. subst points.
      apply compilePoints_nil.
    + unfold compilePoints.
      assert (Hlen : len points = N).
      { unfold len. rewrite (Permutation_length Hperm).
        apply len_range. lia. }
      rewrite Hlen, Z.eqb_refl. reflexivity.
  - apply decompilePoints_zero; assumption.
  - apply (decompilePoints_zero N [x00] 0); [assumption|reflexivity].
Qed.

Lemma all_points_shortcut_witness :
  compilePoints [2; 0; 3; 1] 4 = Ok [x00]
  /\ decompilePoints_ 4 [x2a; x00; x07] 1 "gvar" = Ok (range 4, 1 + 1, [])
  /\ decompilePoints_ 4 [x00] 0 "gvar" = Ok (range 4, 1, []).
Proof.
  apply (all_points_shortcut 4 [2; 0; 3; 1] [x2a; x00; x07] 1 "gvar").
  - change (range 4) with [0; 1; 2; 3].
    apply Permutation_sym.
    apply (perm_trans (l' := [0; 2; 1; 3])).
    + constructor. apply perm_swap.
    + apply (perm_trans (l' := [2; 0; 1; 3])); [apply perm_swap|].
      do 2 constructor. apply perm_swap.
  - reflexivity.
  - reflexivity.
Defined.

(** C10. For every [N], the empty set compiles to the single byte 0x00, the
    encoding of all points; decoding that byte with [numPoints = N] gives
    the points [0 .. N-1], which for [N > 0] is not the empty set that went
    in. *)
Theorem empty_set_is_all_points (N : Z) (tableTag : string) :
  string_in tableTag ["cvar"%string; "gvar"%string] = true ->
  compilePoints [] N = Ok [x00]
  /\ compilePoints [] N = compilePoints (range N) N
  /\ decompilePoints_ N [x00] 0 tableTag = Ok (range N, 1, [])
  /\ (0 < N -> range N <> sorted []).
Proof.
  intros Htag. repeat split.
  - apply compilePoints_nil.
  - rewrite compilePoints_nil. symmetry.
    destruct (Z_le_dec N 0) as [Hle|Hgt].
    + rewrite range_nil by assumption. apply compilePoints_nil.
    + unfold compilePoints. rewrite len_range by lia.
      rewrite Z.eqb_refl. reflexivity.
  - apply (decompilePoints_zero N [x00] 0); [assumption|reflexivity].
  - intros HN. unfold range. rewrite py_range_cons by lia. discriminate.
Qed.

Lemma empty_set_is_all_points_witness :
  compilePoints [] 3 = Ok [x00]
  /\ compilePoints [] 3 = compilePoints (range 3) 3
  /\ decompilePoints_ 3 [x00] 0 "cvar" = Ok (range 3, 1, [])
  /\ (0 < 3 -> range 3 <> sorted []).
Proof. apply (empty_set_is_all_points 3 "cvar"). reflexivity. Defined.

(** ** C8: points out of range are reported and returned *)

Lemma out_of_range_spec numPoints p :
  out_of_range numPoints p = true <-> p < 0 \/ numPoints <= p.
Proof. unfold out_of_range. lia. Qed.

(** C8. Take data whose count prefix is not zero and whose runs decode, that
    is, decoding succeeds for some point count [N0] and gives the points
    [pts]. Then for every [numPoints] the decoder returns normally, with the
    same points at the same places and the same new offset; each point that
    is negative or at least [numPoints] is named in the one warning logged,
    and nothing is logged exactly when every point is in range. *)
Theorem out_of_range_points_recovered (numPoints N0 : Z) (data : bytes)
    (offset : Z) (tableTag : string) (n pos0 : Z) (pts : list Z) (pos : Z)
    (log0 : list warning) :
  decompilePoints_numPointsInData data offset = Ok (n, pos0) ->
  n <> 0 ->
  decompilePoints_ N0 data offset tableTag = Ok (pts, pos, log0) ->
  exists log,
    decompilePoints_ numPoints data offset tableTag = Ok (pts, pos, log)
    /\ (forall p, In p pts -> p < 0 \/ numPoints <= p ->
          exists bad, log = [PointOutOfRange bad tableTag] /\ In p bad)
    /\ (log = [] <-> Forall (fun p => 0 <= p < numPoints) pts).
Proof.
  intros Hcount Hn Hdec. unfold decompilePoints_ in *.
  destruct (assert _) as [[]|]; [|discriminate]. cbn [bind] in *.
  rewrite Hcount in *. cbn [bind] in *.
  destruct (Z.eqb_spec n 0); [contradiction|].
  destruct (decompilePoints_loop _ _ _ _ _) as [[result pos']|]; [|discriminate].
  cbn [bind] in *. injection Hdec as <- <- _.
  set (pts := to_absolute 0 result).
  set (bad := nodup Z.eq_dec (filter (out_of_range numPoints) pts)).
  assert (Hbad : forall p, In p bad <-> In p pts /\ (p < 0 \/ numPoints <= p)).
  { intros p. unfold bad. rewrite nodup_In, filter_In, out_of_range_spec.
    reflexivity. }
  eexists. split; [reflexivity|]. fold bad. split.
  - intros p Hin Hout.
    assert (Hp : In p bad) by (apply Hbad; auto).
    destruct bad as [|b bad']; [contradiction|].
    eexists. split; [reflexivity|assumption].
  - rewrite Forall_forall. split.
    + intros Hlog p Hin.
      destruct (Z_lt_dec p 0) as [Hneg|]; [|destruct (Z_le_dec numPoints p) as [Hbig|]];
        try lia.
      * assert (Hp : In p bad) by (apply Hbad; auto).
        destruct bad; [contradiction|discriminate].
      * assert (Hp : In p bad) by (apply Hbad; auto).
        destruct bad; [contradiction|discriminate].
    + intros Hall. destruct bad as [|b bad'] eqn:E; [reflexivity|].
      assert (Hb : In b (b :: bad')) by (left; reflexivity).
      apply Hbad in Hb. destruct Hb as [Hin Hout].
      specialize (Hall b Hin). lia.
Qed.

Lemma out_of_range_points_recovered_witness :
  exists log,
    decompilePoints_ 10 [x02; x01; x05; xc8] 0 "gvar" = Ok ([5; 205], 4, log)
    /\ (forall p, In p [5; 205] -> p < 0 \/ 10 <= p ->
          exists bad, log = [PointOutOfRange bad "gvar"] /\ In p bad)
    /\ (log = [] <-> Forall (fun p => 0 <= p < 10) [5; 205]).
Proof.
  apply (out_of_range_points_recovered 10 1000 [x02; x01; x05; xc8] 0 "gvar"
           2 1 [5; 205] 4 []).
  - reflexivity.
  - discriminate.
  - reflexivity.
Defined.

(** ** The point encoder, run by run *)

Lemma point_header_bits k :
  1 <= k <= 128 ->
  let b := k - 1 in
  let w := Z.lor (k - 1) POINTS_ARE_WORDS in
  (0 <= b < 256 /\ Z.land b POINT_RUN_COUNT_MASK + 1 = k
   /\ (Z.land b POINTS_ARE_WORDS =? 0) = true) /\
  (0 <= w < 256 /\ Z.land w POINT_RUN_COUNT_MASK + 1 = k
   /\ (Z.land w POINTS_ARE_WORDS =? 0) = false).
Proof.
  intros Hk.
  pose (P := fun k =>
    let b := k - 1 in
    let w := Z.lor (k - 1) POINTS_ARE_WORDS in
    ((0 <=? b) && (b <? 256) && (Z.land b POINT_RUN_COUNT_MASK + 1 =? k)
     && (Z.land b POINTS_ARE_WORDS =? 0))
    && ((0 <=? w) && (w <? 256) && (Z.land w POINT_RUN_COUNT_MASK + 1 =? k)
        && negb (Z.land w POINTS_ARE_WORDS =? 0))).
  assert (H : P k = true)
    by (apply (check_range P 1 129); [vm_compute; reflexivity | lia]).
  unfold P in H. cbv zeta in *.
  repeat (apply andb_prop in H; destruct H as [H ?]).
  repeat match goal with
         | H : negb _ = true |- _ => apply negb_true_iff in H
         end.
  repeat split; try lia; assumption.
Qed.

Lemma word_item_bits d :
  0 <= d <= 65535 ->
  0 <= Z.shiftr d 8 < 256 /\ 0 <= Z.land d 0xff < 256 /\
  Z.lor (Z.shiftl (byteord (byte_of_Z (Z.shiftr d 8))) 8)
        (byteord (byte_of_Z (Z.land d 0xff))) = d.
Proof.
  intros Hd.
  pose (P := fun d =>
    (0 <=? Z.shiftr d 8) && (Z.shiftr d 8 <? 256)
    && (0 <=? Z.land d 0xff) && (Z.land d 0xff <? 256)
    && (Z.lor (Z.shiftl (byteord (byte_of_Z (Z.shiftr d 8))) 8)
              (byteord (byte_of_Z (Z.land d 0xff))) =? d)).
  assert (H : P d = true)
    by (apply (check_range P 0 65536); [vm_compute; reflexivity | lia]).
  unfold P in H.
  repeat (apply andb_prop in H; destruct H as [H ?]).
  repeat split; lia.
Qed.

Lemma points_run_loop_spec : forall rest fuel done last runLength
    (b : bool) run numPoints,
  numPoints = len done + len rest ->
  0 <= runLength <= 128 ->
  (Z.to_nat (128 - runLength) < fuel)%nat ->
  ascending last rest ->
  Forall (fun p => p < 65536) rest ->
  0 <= last ->
  exists taken rest',
    rest = taken ++ rest' /\
    runLength + len taken <= 128 /\
    compilePoints_run fuel (done ++ rest) numPoints (len done) last runLength
      (Some b) run
    = Ok (len done + len taken, last_of last taken, runLength + len taken,
          Some b, run ++ flat_map (point_item b) (deltas_of last taken)) /\
    (b = true -> Forall (fun d => 0 <= d <= 255) (deltas_of last taken)) /\
    Forall (fun d => 0 <= d <= 65535) (deltas_of last taken) /\
    ascending (last_of last taken) rest'.
Proof.
  induction rest as [|x r IH];
    intros fuel done last rl b run numPoints Hnum Hrl Hfuel Hasc Hmax Hlast;
    (destruct fuel as [|fuel]; [lia|]); cbn [compilePoints_run].
  - exists [], []. len_simpl.
    destruct (Z.ltb_spec (len done) numPoints); [lia|].
    cbn [andb deltas_of flat_map last_of app].
    rewrite !app_nil_r, !Z.add_0_r.
    repeat split; auto; try lia.
  - destruct Hasc as [Hlt Hasc]. inversion Hmax as [|? ? Hx Hmax']; subst.
    len_simpl. pose proof (len_nonneg r).
    destruct (Z.ltb_spec (len done) (len done + (1 + len r))); [|lia].
    cbn [andb]. unfold MAX_RUN_LENGTH.
    assert (Hstop :
      exists taken rest',
        x :: r = taken ++ rest' /\
        rl + len taken <= 128 /\
        Ok (len done, last, rl, Some b, run)
        = Ok (len done + len taken, last_of last taken, rl + len taken,
              Some b, run ++ flat_map (point_item b) (deltas_of last taken)) /\
        (b = true -> Forall (fun d => 0 <= d <= 255) (deltas_of last taken)) /\
        Forall (fun d => 0 <= d <= 65535) (deltas_of last taken) /\
        ascending (last_of last taken) rest').
    { exists [], (x :: r). len_simpl.
      cbn [deltas_of flat_map last_of ascending app].
      rewrite !app_nil_r, !Z.add_0_r.
      repeat split; auto; try lia. }
    destruct (Z.leb_spec rl 127) as [Hroom|Hfull]; [|exact Hstop].
    rewrite py_getitem_app. cbn [bind].
    assert (Hcont : forall w,
      w = point_item b (x - last) ->
      (b = true -> 0 <= x - last <= 255) ->
      exists taken rest',
        x :: r = taken ++ rest' /\
        rl + len taken <= 128 /\
        compilePoints_run fuel (done ++ x :: r) (len done + (1 + len r))
          (len done + 1) x (rl + 1) (Some b) (run ++ w)
        = Ok (len done + len taken, last_of last taken, rl + len taken,
              Some b, run ++ flat_map (point_item b) (deltas_of last taken)) /\
        (b = true -> Forall (fun d => 0 <= d <= 255) (deltas_of last taken)) /\
        Forall (fun d => 0 <= d <= 65535) (deltas_of last taken) /\
        ascending (last_of last taken) rest').
    { intros w -> Hbyte.
      destruct (IH fuel (done ++ [x]) x (rl + 1) b
                  (run ++ point_item b (x - last)) (len done + (1 + len r)))
        as (taken & rest' & E & Hlen & Hrun & Hb & Hw & Ha);
        try assumption; try (len_simpl; lia).
      exists (x :: taken), rest'.
      rewrite <- snoc_app, len_snoc in Hrun. len_simpl.
      cbn [deltas_of flat_map last_of app].
      repeat split; auto; try lia.
      - cbn. congruence.
      - rewrite Hrun, <- app_assoc, !Z.add_assoc. reflexivity.
      - constructor; [lia|assumption]. }
    destruct b; cbn [andb].
    + destruct (Z.gtb_spec (x - last) 255) as [Hbig|Hsmall]; cbn [orb].
      * exact Hstop.
      * destruct (Z.ltb_spec (x - last) 0); [lia|].
        rewrite bytechr_ok by lia. cbn [bind].
        apply Hcont; [reflexivity|lia].
    + destruct (word_item_bits (x - last) ltac:(lia)) as (Hhi & Hlo & _).
      rewrite !bytechr_ok by assumption. cbn [bind app].
      apply Hcont; [reflexivity|discriminate].
Qed.

Lemma ascending_app_l l1 : forall a l2,
  ascending a (l1 ++ l2) -> ascending a l1.
Proof.
  induction l1 as [|x l1 IH]; intros a l2 H; [exact I|].
  destruct H as [H1 H2]. split; [assumption|]. eapply IH, H2.
Qed.

Lemma last_of_ge l : forall a, ascending a l -> a <= last_of a l.
Proof.
  induction l as [|x l IH]; intros a H; cbn [last_of]; [lia|].
  destruct H as [H1 H2]. apply IH in H2. lia.
Qed.

Lemma deltas_of_app l1 : forall a l2,
  deltas_of a (l1 ++ l2) = deltas_of a l1 ++ deltas_of (last_of a l1) l2.
Proof.
  induction l1 as [|x l1 IH]; intros a l2; [reflexivity|].
  cbn [app deltas_of last_of]. rewrite IH. reflexivity.
Qed.

Lemma deltas_of_length l : forall a, len (deltas_of a l) = len l.
Proof.
  induction l as [|x l IH]; intros a; [reflexivity|].
  cbn [deltas_of]. len_simpl. rewrite IH. reflexivity.
Qed.

Lemma to_absolute_deltas_of l : forall a, to_absolute a (deltas_of a l) = l.
Proof.
  induction l as [|x l IH]; intros a; [reflexivity|].
  cbn [deltas_of to_absolute]. replace (a + (x - a)) with x by lia.
  rewrite IH. reflexivity.
Qed.

(** The inner loop from its entry: the first point picks the encoding. *)
Lemma compilePoints_run_spec fuel done x r last numPoints :
  (129 < fuel)%nat ->
  numPoints = len done + len (x :: r) ->
  last <= x -> ascending x r ->
  Forall (fun p => p < 65536) (x :: r) ->
  0 <= last ->
  exists taken rest' (b : bool),
    x :: r = taken ++ rest' /\
    1 <= len taken <= 128 /\
    compilePoints_run fuel (done ++ x :: r) numPoints (len done) last 0 None
      []
    = Ok (len done + len taken, last_of last taken, len taken, Some b,
          flat_map (point_item b) (deltas_of last taken)) /\
    (b = true -> Forall (fun d => 0 <= d <= 255) (deltas_of last taken)) /\
    Forall (fun d => 0 <= d <= 65535) (deltas_of last taken) /\
    ascending (last_of last taken) rest' /\
    0 <= last_of last taken.
Proof.
  intros Hfuel Hnum Hle Hasc Hmax Hlast.
  inversion Hmax as [|? ? Hx Hmax']; subst.
  destruct fuel as [|fuel]; [lia|]. cbn [compilePoints_run].
  len_simpl. pose proof (len_nonneg r).
  destruct (Z.ltb_spec (len done) (len done + (1 + len r))); [|lia].
  unfold MAX_RUN_LENGTH. cbn [andb Z.leb Z.compare].
  rewrite py_getitem_app. cbn [bind].
  destruct (Z.leb_spec 0 (x - last)); [|lia]. cbn [andb].
  set (b := x - last <=? 255).
  assert (Hb : b = true -> 0 <= x - last <= 255) by (unfold b; lia).
  assert (Hw : bind (if b then bytechr (x - last)
                     else hi <- bytechr (Z.shiftr (x - last) 8) ;;
                          lo <- bytechr (Z.land (x - last) 255) ;;
                          Ok (hi ++ lo))
                    (fun w => Ok w) = Ok (point_item b (x - last))).
  { destruct b.
    - rewrite bytechr_ok by lia. reflexivity.
    - destruct (word_item_bits (x - last) ltac:(lia)) as (Hhi & Hlo & _).
      rewrite !bytechr_ok by assumption. reflexivity. }
  assert (Hgo : b && ((x - last >? 255) || (x - last <? 0)) = false).
  { destruct b eqn:Eb; [|reflexivity]. specialize (Hb eq_refl).
    destruct (Z.gtb_spec (x - last) 255), (Z.ltb_spec (x - last) 0);
      try lia; reflexivity. }
  rewrite Hgo.
  destruct (if b then bytechr (x - last) else _) as [w|e]; [|discriminate].
  cbn [bind] in *. injection Hw as ->.
  destruct (points_run_loop_spec r fuel (done ++ [x]) x 1 b
              ([] ++ point_item b (x - last)) (len done + (1 + len r)))
    as (taken & rest' & E & Hlen & Hrun & Hbt & Hwd & Ha);
    try assumption; try (len_simpl; lia).
  rewrite <- snoc_app, len_snoc in Hrun.
  exists (x :: taken), rest', b. len_simpl. pose proof (len_nonneg taken).
  cbn [deltas_of flat_map last_of app] in *. change (0 + 1) with 1.
  assert (Hge : x <= last_of x taken).
  { apply last_of_ge. rewrite E in Hasc. eapply ascending_app_l, Hasc. }
  repeat split; auto; try lia.
  - congruence.
  - rewrite Hrun, !Z.add_assoc. reflexivity.
  - constructor; [lia|assumption].
Qed.

(** ** The point decoder, run by run *)

Lemma array_B_items ds :
  Forall (fun d => 0 <= d <= 255) ds ->
  array_B (flat_map (point_item true) ds) = Ok ds.
Proof.
  unfold array_B. intros H. f_equal.
  induction H as [|x l Hx _ IH]; [reflexivity|].
  cbn [flat_map point_item app map].
  rewrite byteord_byte_of_Z by lia. congruence.
Qed.

Lemma array_H_items ds :
  Forall (fun d => 0 <= d <= 65535) ds ->
  array_H (flat_map (point_item false) ds) = Ok ds.
Proof.
  unfold array_H. induction 1 as [|x l Hx _ IH]; [reflexivity|].
  cbn [flat_map point_item app words_of]. rewrite IH. cbn [bind].
  destruct (word_item_bits x Hx) as (_ & _ & ->). reflexivity.
Qed.

Lemma point_items_length b ds :
  len (flat_map (point_item b) ds) = if b then len ds else len ds * 2.
Proof.
  induction ds as [|d ds IH]; [destruct b; reflexivity|].
  cbn [flat_map]. len_simpl. rewrite IH.
  destruct b; cbn [point_item]; len_simpl; lia.
Qed.

Lemma point_run_decodes (b : bool) ds :
  1 <= len ds <= 128 ->
  (b = true -> Forall (fun d => 0 <= d <= 255) ds) ->
  Forall (fun d => 0 <= d <= 65535) ds ->
  decodes_point_run
    (byte_of_Z (if b then len ds - 1 else Z.lor (len ds - 1) POINTS_ARE_WORDS)
     :: flat_map (point_item b) ds)
    ds.
Proof.
  intros Hk Hb Hw fuel cnt pre post result Hlt.
  destruct (point_header_bits (len ds) Hk) as ((Hr1 & Hn1 & Hz1) & (Hr2 & Hn2 & Hz2)).
  cbn [decompilePoints_loop app].
  destruct (Z.ltb_spec (len result) cnt); [|lia].
  rewrite py_getitem_app. cbn [bind].
  pose proof (point_items_length b ds) as Hlen.
  rewrite snoc_app.
  destruct b.
  - rewrite byteord_byte_of_Z by assumption.
    rewrite Hz1, Hn1. cbn [negb].
    rewrite (py_slice_app (pre ++ [_])) by (len_simpl; lia).
    rewrite array_B_items by auto. cbn [bind].
    rewrite Z.eqb_refl. cbn [assert bind].
    len_simpl. rewrite Hlen. f_equal. lia.
  - rewrite byteord_byte_of_Z by assumption.
    rewrite Hz2, Hn2. cbn [negb].
    rewrite (py_slice_app (pre ++ [_])) by (len_simpl; lia).
    rewrite array_H_items by auto. cbn [bind].
    rewrite Z.eqb_refl. cbn [assert bind].
    len_simpl. rewrite Hlen. f_equal. lia.
Qed.

(** ** The point encoder as a whole *)

Lemma decodes_points_nil : decodes_points [] [].
Proof.
  intros [|fuel] cnt pre post result Hnum Hf; [cbn in Hf; lia|].
  cbn [decompilePoints_loop]. len_simpl.
  destruct (Z.ltb_spec (len result) cnt); [lia|].
  rewrite app_nil_r. f_equal. f_equal. lia.
Qed.

Lemma decodes_points_app enc1 run enc2 values :
  run <> [] ->
  decodes_point_run enc1 run -> decodes_points enc2 values ->
  decodes_points (enc1 ++ enc2) (run ++ values).
Proof.
  intros Hne H1 H2 [|fuel] cnt pre post result Hnum Hf; [lia|].
  pose proof (len_pos_of_nonnil run Hne). pose proof (len_nonneg values).
  rewrite <- (app_assoc enc1 enc2 post).
  rewrite H1 by (len_simpl; lia).
  specialize (H2 fuel cnt (pre ++ enc1) post (result ++ run)).
  rewrite <- !app_assoc in H2. len_simpl.
  rewrite H2.
  - f_equal. f_equal. lia.
  - lia.
  - rewrite length_app in Hf. destruct run; [congruence|]. cbn in Hf. lia.
Qed.

Lemma compilePoints_loop_spec : forall n rest,
  (length rest <= n)%nat ->
  forall done last result fuel numPoints,
    numPoints = len done + len rest ->
    (length rest < fuel)%nat ->
    match rest with [] => True | x :: r => last <= x /\ ascending x r end ->
    Forall (fun p => p < 65536) rest ->
    0 <= last ->
    exists chunks,
      compilePoints_loop fuel (done ++ rest) numPoints (len done) last result
        = Ok (result ++ chunks) /\
      decodes_points (bytesjoin chunks) (deltas_of last rest).
Proof.
  induction n as [|n IH];
    intros rest Hn done last result fuel numPoints Hnum Hfuel Hasc Hmax Hlast;
    (destruct fuel as [|fuel]; [lia|]).
  - destruct rest; [|cbn in Hn; lia].
    exists []. cbn [compilePoints_loop]. len_simpl.
    destruct (Z.ltb_spec (len done) numPoints); [lia|].
    rewrite app_nil_r. split; [reflexivity|apply decodes_points_nil].
  - destruct rest as [|x r].
    { exists []. cbn [compilePoints_loop]. len_simpl.
      destruct (Z.ltb_spec (len done) numPoints); [lia|].
      rewrite app_nil_r. split; [reflexivity|apply decodes_points_nil]. }
    destruct Hasc as [Hle Hasc].
    destruct (compilePoints_run_spec 130 done x r last numPoints
                ltac:(lia) Hnum Hle Hasc Hmax Hlast)
      as (taken & rest' & b & E & Hlen & Hrun & Hb & Hw & Ha & Hl').
    cbn [compilePoints_loop].
    assert (Hpos : (len done <? numPoints) = true).
    { apply Z.ltb_lt. rewrite Hnum. len_simpl. pose proof (len_nonneg r). lia. }
    rewrite Hpos, Hrun. cbn [bind truthy].
    destruct (point_header_bits (len taken) Hlen) as ((Hr1 & _) & (Hr2 & _)).
    set (h := if b then len taken - 1
              else Z.lor (len taken - 1) POINTS_ARE_WORDS).
    assert (Hh : (if match Some b with Some true => true | _ => false end
                  then bytechr (len taken - 1)
                  else bytechr (Z.lor (len taken - 1) POINTS_ARE_WORDS))
                 = Ok [byte_of_Z h]).
    { unfold h. destruct b; apply bytechr_ok; assumption. }
    rewrite Hh. cbn [bind].
    assert (Hlr : (length rest' < length (x :: r))%nat).
    { rewrite E, length_app. destruct taken; [len_simpl; lia|]. cbn. lia. }
    assert (Hmax' : Forall (fun p => p < 65536) rest').
    { rewrite E in Hmax. apply Forall_app in Hmax. tauto. }
    assert (Hasc' : match rest' with
                    | [] => True
                    | y :: r' => last_of last taken <= y /\ ascending y r'
                    end).
    { destruct rest' as [|y r']; [exact I|]. destruct Ha. split; [lia|assumption]. }
    destruct (IH rest' ltac:(lia) (done ++ taken) (last_of last taken)
                (result ++ [[byte_of_Z h];
                            flat_map (point_item b) (deltas_of last taken)])
                fuel numPoints)
      as (chunks & Hloop & Hdec); try assumption.
    { rewrite Hnum, E. len_simpl. lia. }
    { lia. }
    exists ([byte_of_Z h] :: flat_map (point_item b) (deltas_of last taken)
            :: chunks).
    rewrite E. rewrite len_app, <- app_assoc in Hloop.
    split.
    + etransitivity; [exact Hloop|]. rewrite <- app_assoc. reflexivity.
    + rewrite deltas_of_app. unfold bytesjoin. cbn [concat].
      rewrite app_assoc.
      apply decodes_points_app.
      * destruct taken; [len_simpl; lia|discriminate].
      * cbn [app]. unfold h. rewrite <- (deltas_of_length taken last).
        apply point_run_decodes; [rewrite deltas_of_length|..]; assumption.
      * exact Hdec.
Qed.

(** ** Sorted sets of points *)

Lemma sorted_perm l : Permutation l (sorted l).
Proof. apply ZSort.Permuted_sort. Qed.

Lemma sorted_length l : len (sorted l) = len l.
Proof. unfold len. rewrite <- (Permutation_length (sorted_perm l)). reflexivity. Qed.

Lemma Sorted_NoDup_ascending l :
  Sorted (fun x y => is_true (ZOrder.leb x y)) l -> NoDup l ->
  match l with [] => True | x :: r => ascending x r end.
Proof.
  induction l as [|x r IH]; intros Hs Hd; [exact I|].
  inversion Hs as [|? ? Hs' Hhd]; subst.
  inversion Hd as [|? ? Hnin Hd']; subst.
  specialize (IH Hs' Hd').
  destruct r as [|y r']; [exact I|].
  split; [|assumption].
  inversion Hhd as [|? ? Hxy]; subst.
  unfold ZOrder.leb, is_true in Hxy. apply Z.leb_le in Hxy.
  assert (x <> y) by (intros ->; apply Hnin; left; reflexivity).
  lia.
Qed.

Lemma sorted_ascending l :
  NoDup l -> match sorted l with [] => True | x :: r => ascending x r end.
Proof.
  intros Hd. apply Sorted_NoDup_ascending.
  - apply ZSort.Sorted_sort.
  - eapply Permutation_NoDup; [apply sorted_perm|assumption].
Qed.

Lemma ascending_room l : forall a b,
  ascending a l -> Forall (fun p => p < b) l -> l <> [] -> len l <= b - a - 1.
Proof.
  induction l as [|x l IH]; intros a b Ha Hb Hne; [congruence|].
  destruct Ha as [Hax Ha]. inversion Hb as [|? ? Hxb Hb']; subst.
  len_simpl. destruct l as [|y l'].
  - len_simpl. lia.
  - specialize (IH x b Ha Hb' ltac:(discriminate)). lia.
Qed.

Lemma ascending_count l : forall lo,
  ascending (lo - 1) l -> Forall (fun p => p < lo + len l) l ->
  l = count_from lo (length l).
Proof.
  induction l as [|x l IH]; intros lo Ha Hb; [reflexivity|].
  destruct Ha as [Hax Ha]. inversion Hb as [|? ? Hxb Hb']; subst.
  len_simpl.
  assert (x = lo).
  { destruct l as [|y l']; [len_simpl; lia|].
    pose proof (ascending_room (y :: l') x (lo + (1 + len (y :: l'))) Ha Hb'
                  ltac:(discriminate)). lia. }
  subst x. cbn [length count_from]. f_equal.
  apply IH.
  - replace (lo + 1 - 1) with lo by lia. assumption.
  - eapply Forall_impl; [|exact Hb']. cbv beta. intros; lia.
Qed.

Lemma sorted_full_set S N :
  NoDup S -> Forall (fun p => 0 <= p < N) S -> len S = N ->
  sorted S = range N.
Proof.
  intros Hd Hin Hlen.
  pose proof (sorted_ascending S Hd) as Ha.
  assert (Hin' : Forall (fun p => 0 <= p < N) (sorted S))
    by (eapply Permutation_Forall; [apply sorted_perm|assumption]).
  rewrite <- sorted_length in Hlen.
  unfold range, py_range.
  replace (Z.to_nat (N - 0)) with (length (sorted S)) by (unfold len in Hlen; lia).
  apply ascending_count.
  - destruct (sorted S) as [|x r]; [exact I|].
    inversion Hin'; subst. split; [lia|assumption].
  - eapply Forall_impl; [|exact Hin']. cbv beta. intros; lia.
Qed.

Lemma no_bad_points N pts :
  Forall (fun p => 0 <= p < N) pts ->
  nodup Z.eq_dec (filter (out_of_range N) pts) = [].
Proof.
  induction 1 as [|x l Hx _ IH]; [reflexivity|].
  cbn [filter]. unfold out_of_range at 1.
  destruct (Z.ltb_spec x 0), (Z.geb_spec x N); try lia. exact IH.
Qed.

Lemma count_prefix_bits n :
  (0 <= n < 128 -> (Z.land n POINTS_ARE_WORDS =? 0) = true) /\
  (128 <= n < 32768 ->
     let hi := Z.lor (Z.shiftr n 8) 0x80 in
     let lo := Z.land n 0xff in
     0 <= hi < 256 /\ 0 <= lo < 256 /\
     (Z.land hi POINTS_ARE_WORDS =? 0) = false /\
     Z.lor (Z.shiftl (Z.land hi POINT_RUN_COUNT_MASK) 8) lo = n).
Proof.
  split; intros Hn.
  - apply (check_range (fun n => Z.land n POINTS_ARE_WORDS =? 0) 0 128);
      [vm_compute; reflexivity | lia].
  - pose (P := fun n =>
      let hi := Z.lor (Z.shiftr n 8) 0x80 in
      let lo := Z.land n 0xff in
      (0 <=? hi) && (hi <? 256) && (0 <=? lo) && (lo <? 256)
      && negb (Z.land hi POINTS_ARE_WORDS =? 0)
      && (Z.lor (Z.shiftl (Z.land hi POINT_RUN_COUNT_MASK) 8) lo =? n)).
    assert (H : P n = true)
      by (apply (check_range P 128 32768); [vm_compute; reflexivity | lia]).
    unfold P in H. cbv zeta in *.
    repeat (apply andb_prop in H; destruct H as [H ?]).
    repeat match goal with
           | H : negb _ = true |- _ => apply negb_true_iff in H
           end.
    repeat split; try lia; assumption.
Qed.

(** ** C1: the point-set round trip *)

Lemma set_size_bound S N :
  S <> [] -> NoDup S -> Forall (fun p => 0 <= p < N) S -> len S <= N.
Proof.
  intros Hne Hd Hin. rewrite <- sorted_length.
  pose proof (sorted_ascending S Hd) as Ha.
  assert (Hin' : Forall (fun p => 0 <= p < N) (sorted S))
    by (eapply Permutation_Forall; [apply sorted_perm|assumption]).
  destruct (sorted S) as [|x r] eqn:E.
  - exfalso. apply Hne, Permutation_nil.
    rewrite <- E. apply Permutation_sym, sorted_perm.
  - assert (Hlt : ascending (-1) (x :: r))
      by (inversion Hin'; subst; split; [lia|assumption]).
    assert (Hroom : len (x :: r) <= N - -1 - 1).
    { apply (ascending_room (x :: r) (-1) N Hlt); [|discriminate].
      eapply Forall_impl; [|exact Hin']. cbv beta. intros; lia. }
    lia.
Qed.

Lemma count_prefix_range n :
  128 <= n < 65536 ->
  0 <= Z.lor (Z.shiftr n 8) 0x80 < 256 /\ 0 <= Z.land n 0xff < 256.
Proof.
  intros Hn.
  pose (P := fun n =>
    (0 <=? Z.lor (Z.shiftr n 8) 0x80) && (Z.lor (Z.shiftr n 8) 0x80 <? 256)
    && (0 <=? Z.land n 0xff) && (Z.land n 0xff <? 256)).
  assert (H : P n = true)
    by (apply (check_range P 128 65536); [vm_compute; reflexivity | lia]).
  unfold P in H.
  repeat (apply andb_prop in H; destruct H as [H ?]). lia.
Qed.

(** The count prefix that [compilePoints] writes for [n] points. *)
Lemma compilePoints_shape S N :
  S <> [] -> NoDup S ->
  Forall (fun p => 0 <= p < N) S ->
  N <= 65536 -> len S <> N ->
  exists chunks,
    compilePoints S N
    = Ok ((if len S <? 0x80 then [byte_of_Z (len S)]
           else [byte_of_Z (Z.lor (Z.shiftr (len S) 8) 0x80);
                 byte_of_Z (Z.land (len S) 0xff)])
          ++ bytesjoin chunks) /\
    decodes_points (bytesjoin chunks) (deltas_of 0 (sorted S)).
Proof.
  intros Hne Hd Hin HN Hpart. unfold compilePoints.
  destruct (Z.eqb_spec (len S) N) as [|_]; [contradiction|].
  pose proof (set_size_bound S N Hne Hd Hin) as Hsize.
  pose proof (sorted_ascending S Hd) as Hasc.
  pose proof (sorted_length S) as Hlen.
  assert (Hin' : Forall (fun p => 0 <= p < N) (sorted S))
    by (eapply Permutation_Forall; [apply sorted_perm|assumption]).
  pose proof (len_pos_of_nonnil _ Hne) as Hpos.
  cbv zeta. rewrite Hlen.
  set (pts := sorted S) in *.
  assert (Hloop : forall result, exists chunks,
    compilePoints_loop (Datatypes.S (length pts)) pts (len S) 0 0 result
      = Ok (result ++ chunks) /\
    decodes_points (bytesjoin chunks) (deltas_of 0 pts)).
  { intros result.
    apply (compilePoints_loop_spec (length pts) pts (le_n _) [] 0 result
             (Datatypes.S (length pts)) (len S)); try lia.
    - rewrite <- Hlen. reflexivity.
    - destruct pts as [|x r]; [exact I|].
      inversion Hin'; subst. split; [lia|assumption].
    - eapply Forall_impl; [|exact Hin']. cbv beta. intros; lia. }
  destruct (Z.ltb_spec (len S) 128) as [Hshort|Hlong].
  - rewrite bytechr_ok by lia. cbn [bind].
    match goal with
    | |- context [compilePoints_loop _ _ _ _ _ ?r] =>
        destruct (Hloop r) as (chunks & Hc & Hdec)
    end.
    rewrite Hc. cbn [bind]. exists chunks. split; [reflexivity|assumption].
  - destruct (count_prefix_range (len S) ltac:(lia)) as (Hhi & Hlo).
    rewrite !bytechr_ok by assumption. cbn [bind app].
    match goal with
    | |- context [compilePoints_loop _ _ _ _ _ ?r] =>
        destruct (Hloop r) as (chunks & Hc & Hdec)
    end.
    rewrite Hc. cbn [bind]. exists chunks. split; [reflexivity|assumption].
Qed.

Lemma read_count_short n rest :
  0 <= n < 128 ->
  decompilePoints_numPointsInData ([byte_of_Z n] ++ rest) 0
  = Ok (n, len [byte_of_Z n]).
Proof.
  intros Hn. destruct (count_prefix_bits n) as [Hone _].
  unfold decompilePoints_numPointsInData. cbn [app].
  change (py_getitem (byte_of_Z n :: rest) 0) with (Ok (A := byte) (byte_of_Z n)).
  cbn [bind]. rewrite byteord_byte_of_Z by lia.
  rewrite Hone by lia. reflexivity.
Qed.

Lemma read_count_long hi lo rest :
  0 <= hi < 256 -> 0 <= lo < 256 ->
  (Z.land hi POINTS_ARE_WORDS =? 0) = false ->
  decompilePoints_numPointsInData ([byte_of_Z hi; byte_of_Z lo] ++ rest) 0
  = Ok (Z.lor (Z.shiftl (Z.land hi POINT_RUN_COUNT_MASK) 8) lo,
        len [byte_of_Z hi; byte_of_Z lo]).
Proof.
  intros Hhi Hlo Hflag.
  unfold decompilePoints_numPointsInData. cbn [app].
  change (py_getitem (byte_of_Z hi :: byte_of_Z lo :: rest) 0)
    with (Ok (A := byte) (byte_of_Z hi)).
  cbn [bind]. rewrite byteord_byte_of_Z by assumption.
  rewrite Hflag. cbn [negb].
  change (py_getitem (byte_of_Z hi :: byte_of_Z lo :: rest) (0 + 1))
    with (Ok (A := byte) (byte_of_Z lo)).
  cbn [bind]. rewrite byteord_byte_of_Z by assumption. reflexivity.
Qed.

Lemma decode_after_prefix N tableTag prefix n enc pts :
  string_in tableTag ["cvar"%string; "gvar"%string] = true ->
  decompilePoints_numPointsInData (prefix ++ enc) 0 = Ok (n, len prefix) ->
  n = len pts -> pts <> [] ->
  Forall (fun p => 0 <= p < N) pts ->
  decodes_points enc (deltas_of 0 pts) ->
  decompilePoints_ N (prefix ++ enc) 0 tableTag
  = Ok (pts, len (prefix ++ enc), []).
Proof.
  intros Htag Hcount Hn Hne Hin Hdec.
  unfold decompilePoints_. rewrite Htag. cbn [assert bind].
  rewrite Hcount. cbn [bind].
  pose proof (len_pos_of_nonnil pts Hne).
  destruct (Z.eqb_spec n 0); [lia|].
  specialize (Hdec (S (Z.to_nat n)) n prefix [] []).
  rewrite app_nil_r in Hdec. rewrite Hdec.
  - cbn [bind app]. rewrite to_absolute_deltas_of, no_bad_points by assumption.
    len_simpl. reflexivity.
  - rewrite deltas_of_length. len_simpl. lia.
  - assert (len (deltas_of 0 pts) = len pts) by apply deltas_of_length.
    unfold len in *. lia.
Qed.

Lemma decode_zero_count N tableTag data pos :
  string_in tableTag ["cvar"%string; "gvar"%string] = true ->
  decompilePoints_numPointsInData data 0 = Ok (0, pos) ->
  decompilePoints_ N data 0 tableTag = Ok (range N, pos, []).
Proof.
  intros Htag Hcount. unfold decompilePoints_.
  rewrite Htag. cbn [assert bind]. rewrite Hcount. reflexivity.
Qed.

(** C1, as the code has it. For every non-empty set [S] of point indices in
    [0, N) that either holds all [N] points or holds fewer than 32768 points
    with [N <= 65536], the bytes of [compilePoints(S, N)] decode, with
    [numPoints = N] from offset 0, to the members of [S] in ascending order,
    and the decoder stops at the end of those bytes. *)
Theorem point_set_roundtrip (S : list Z) (N : Z) (tableTag : string) :
  S <> [] -> NoDup S ->
  Forall (fun p => 0 <= p < N) S ->
  len S = N \/ (len S < 32768 /\ N <= 65536) ->
  string_in tableTag ["cvar"%string; "gvar"%string] = true ->
  points_roundtrip S N tableTag.
Proof.
  intros Hne Hd Hin Hsize Htag. unfold points_roundtrip.
  destruct (Z.eq_dec (len S) N) as [Hall|Hpart].
  - exists [x00]. split.
    + unfold compilePoints. rewrite Hall, Z.eqb_refl. reflexivity.
    + rewrite (decompilePoints_zero N [x00] 0 tableTag Htag eq_refl).
      rewrite (sorted_full_set S N) by assumption. reflexivity.
  - destruct Hsize as [|[Hsmall HN]]; [contradiction|].
    destruct (compilePoints_shape S N Hne Hd Hin HN Hpart)
      as (chunks & Hc & Hdec).
    eexists. split; [exact Hc|].
    assert (Hin' : Forall (fun p => 0 <= p < N) (sorted S))
      by (eapply Permutation_Forall; [apply sorted_perm|assumption]).
    assert (Hne' : sorted S <> []).
    { intros E. apply Hne. apply Permutation_nil.
      rewrite <- E. apply Permutation_sym, sorted_perm. }
    pose proof (len_pos_of_nonnil _ Hne) as Hpos.
    destruct (count_prefix_bits (len S)) as [_ Htwo].
    destruct (Z.ltb_spec (len S) 128) as [Hshort|Hlong].
    + apply (decode_after_prefix N tableTag _ (len S)); auto.
      * apply read_count_short. lia.
      * symmetry. apply sorted_length.
    + destruct (Htwo ltac:(lia)) as (Hhi & Hlo & Hflag & Hval).
      apply (decode_after_prefix N tableTag _ (len S)); auto.
      * rewrite read_count_long by assumption. rewrite Hval. reflexivity.
      * symmetry. apply sorted_length.
Qed.

Lemma point_set_roundtrip_witness :
  points_roundtrip [23; 17; 300; 19; 18] 400 "gvar".
Proof.
  apply (point_set_roundtrip [23; 17; 300; 19; 18] 400 "gvar").
  - discriminate.
  - repeat (constructor; [cbn; intuition discriminate|]). constructor.
  - repeat constructor; lia.
  - right. split; [reflexivity|discriminate].
  - reflexivity.
Defined.

Lemma Ok_inj {A} (a b : A) : Ok a = Ok b -> a = b.
Proof. intros H. injection H. auto. Qed.

Lemma NoDup_count_from n : forall lo, NoDup (count_from lo n).
Proof.
  induction n as [|n IH]; intros lo; cbn [count_from]; constructor.
  - intros H. apply count_from_bounds in H. lia.
  - apply IH.
Qed.

Lemma NoDup_range n : NoDup (range n).
Proof. apply NoDup_count_from. Qed.

Lemma range_bounds n p : 0 <= n -> In p (range n) -> 0 <= p < n.
Proof. intros Hn H. apply count_from_bounds in H. lia. Qed.

(** A count of 32768 is written as [80 00], which reads back as the count 0,
    that is, as all points. *)
Lemma count_32768_reads_as_all S N :
  len S = 32768 -> S <> [] -> NoDup S ->
  Forall (fun p => 0 <= p < N) S ->
  32768 < N <= 65536 ->
  ~ points_roundtrip S N "gvar".
Proof.
  intros Hlen Hne Hd Hin HN (enc & Hc & Hdec).
  destruct (compilePoints_shape S N Hne Hd Hin ltac:(lia)
              ltac:(rewrite Hlen; lia)) as (chunks & Hc' & _).
  rewrite Hc in Hc'. apply Ok_inj in Hc'. subst enc.
  rewrite Hlen in Hdec.
  change (if 32768 <? 128 then _ else _)
    with [byte_of_Z 128; byte_of_Z 0] in Hdec.
  rewrite (decode_zero_count N "gvar" _ (len [byte_of_Z 128; byte_of_Z 0]))
    in Hdec.
  - apply Ok_inj in Hdec. injection Hdec as Hpts _.
    apply (f_equal len) in Hpts.
    rewrite len_range, sorted_length, Hlen in Hpts by lia. lia.
  - reflexivity.
  - exact (read_count_long 128 0 (bytesjoin chunks)
             ltac:(lia) ltac:(lia) eq_refl).
Qed.

(** Two sets inside [0, N) for which the round trip fails: a point beyond
    65535 cannot be written, and a count of 32768 points that are not all the
    points reads back as the count 0, which means all points. *)
Lemma point_set_roundtrip_fails :
  (let S := [65536] in
   let N := 65537 in
   S <> [] /\ NoDup S /\ Forall (fun p => 0 <= p < N) S /\
   compilePoints S N = Raise ValueError /\
   ~ points_roundtrip S N "gvar")
  /\
  (let S := range 32768 in
   let N := 32769 in
   S <> [] /\ NoDup S /\ Forall (fun p => 0 <= p < N) S /\
   ~ points_roundtrip S N "gvar").
Proof.
  split.
  - repeat split.
    + discriminate.
    + repeat constructor. intros [].
    + repeat constructor; lia.
    + intros (enc & Hc & _). vm_compute in Hc. discriminate.
  - assert (Hlen : len (range 32768) = 32768) by (apply len_range; lia).
    assert (Hne : range 32768 <> []).
    { intros E. rewrite E in Hlen. discriminate. }
    pose proof (NoDup_range 32768) as Hd.
    assert (Hin : Forall (fun p => 0 <= p < 32769) (range 32768)).
    { apply Forall_forall. intros p Hp.
      apply (range_bounds 32768 p ltac:(lia)) in Hp. lia. }
    exact (conj Hne (conj Hd (conj Hin
             (count_32768_reads_as_all _ _ Hlen Hne Hd Hin ltac:(lia))))).
Qed.

(** ** C4: the flags and the layout of a compiled tuple *)

Lemma pack_H_value v s :
  pack_H v = Ok s ->
  0 <= v <= 65535 /\
  exists b0 b1, s = [b0; b1] /\ byteord b0 * 256 + byteord b1 = v.
Proof.
  unfold pack_H. intros H.
  destruct (Z.leb_spec 0 v), (Z.leb_spec v 65535); try discriminate.
  cbn [andb] in H. apply Ok_inj in H. subst s.
  split; [lia|]. eexists _, _. split; [reflexivity|].
  apply Z.eqb_eq.
  apply (check_range
           (fun v => byteord (byte_of_Z (Z.shiftr v 8)) * 256
                     + byteord (byte_of_Z (Z.land v 255)) =? v) 0 65536);
    [vm_compute; reflexivity | lia].
Qed.

Lemma shared_index_flag_bits index (intermediate private : bool) :
  0 <= index < 0x1000 ->
  let flags :=
    Z.lor (Z.lor index (if intermediate then INTERMEDIATE_REGION else 0))
          (if private then PRIVATE_POINT_NUMBERS else 0) in
  Z.testbit flags 15 = false /\ Z.testbit flags 13 = private /\
  Z.land flags 0x0FFF = index.
Proof.
  intros Hi.
  pose (P := fun index =>
    forallb (fun '(i, p) =>
      let flags :=
        Z.lor (Z.lor index (if i : bool then INTERMEDIATE_REGION else 0))
              (if p : bool then PRIVATE_POINT_NUMBERS else 0) in
      negb (Z.testbit flags 15) && Bool.eqb (Z.testbit flags 13) p
      && (Z.land flags 0x0FFF =? index))
      [(false, false); (false, true); (true, false); (true, true)]).
  assert (H : P index = true)
    by (apply (check_range P 0 0x1000); [vm_compute; reflexivity | lia]).
  unfold P in H. rewrite forallb_forall in H.
  specialize (H (intermediate, private)). cbv beta iota zeta in H.
  assert (Hin : In (intermediate, private)
                  [(false, false); (false, true); (true, false); (true, true)])
    by (destruct intermediate, private; cbn; tauto).
  specialize (H Hin).
  repeat (apply andb_prop in H; destruct H as [H ?]).
  cbv zeta. repeat split.
  - apply negb_true_iff. assumption.
  - apply Bool.eqb_prop. assumption.
  - lia.
Qed.

Lemma embedded_flag_bits (intermediate private : bool) :
  let flags :=
    Z.lor (Z.lor EMBEDDED_PEAK_TUPLE
                 (if intermediate then INTERMEDIATE_REGION else 0))
          (if private then PRIVATE_POINT_NUMBERS else 0) in
  Z.testbit flags 15 = true /\ Z.testbit flags 13 = private.
Proof. destruct intermediate, private; split; reflexivity. Qed.

Section CompileFacts.

Variable float : Type.
Variable zero : float.
Variable flt : float -> float -> bool.
Variable feq : float -> float -> bool.
Variable floatToFixed : float -> Z -> Z.

Local Abbreviation compile' := (compile float zero flt feq floatToFixed).
Local Abbreviation compileCoord' := (compileCoord float zero floatToFixed).
Local Abbreviation compileIntermediateCoord' :=
  (compileIntermediateCoord float zero flt feq floatToFixed).
Local Abbreviation compileDeltas' := (compileDeltas float).

(** C4. Let [compile] return [(header, auxData)] for a TupleVariation whose
    axis tags all occur in [axisTags]. The flags start from the shared
    index, with no peak bytes appended, exactly when the compiled peak
    bytes are a key of [sharedCoordIndices], and otherwise from
    EMBEDDED_PEAK_TUPLE with the peak bytes appended; PRIVATE_POINT_NUMBERS
    is or-ed in and the packed points are put in front of the deltas
    exactly when [sharedPoints] is [None]; and the header is the
    big-endian 16-bit pair [(len(auxData), flags)] followed by the appended
    coordinate bytes. For an index below 0x1000 the flag bits 0x8000 and
    0x2000 of the flags tell the two cases apart and the low 12 bits are
    the index. *)
Theorem compile_flags_and_layout (self : TupleVariation float)
    (axisTags : list string) (sharedCoordIndices : list (bytes * Z))
    (sharedPoints : option (list Z)) (header auxData : bytes) :
  forallb (fun tag => string_in tag axisTags) (map fst (axes self)) = true ->
  compile' self axisTags sharedCoordIndices sharedPoints
    = Ok (header, auxData) ->
  exists coord intermediateCoord flags b0 b1 b2 b3,
    compileCoord' self axisTags = Ok coord /\
    compileIntermediateCoord' self axisTags = Ok intermediateCoord /\
    flags
    = Z.lor
        (Z.lor
           match dict_get bytes_eqb sharedCoordIndices coord with
           | Some index => index
           | None => EMBEDDED_PEAK_TUPLE
           end
           match intermediateCoord with
           | Some _ => INTERMEDIATE_REGION
           | None => 0
           end)
        match sharedPoints with
        | Some _ => 0
        | None => PRIVATE_POINT_NUMBERS
        end /\
    header
    = [b0; b1; b2; b3]
      ++ match dict_get bytes_eqb sharedCoordIndices coord with
         | Some _ => []
         | None => coord
         end
      ++ match intermediateCoord with
         | Some ic => ic
         | None => []
         end /\
    byteord b0 * 256 + byteord b1 = len auxData /\
    byteord b2 * 256 + byteord b3 = flags /\
    match sharedPoints with
    | Some points => compileDeltas' self points = Ok auxData
    | None =>
        exists ps ds,
          compilePoints (getUsedPoints float self) (len (coordinates self))
            = Ok ps /\
          compileDeltas' self (getUsedPoints float self) = Ok ds /\
          auxData = ps ++ ds
    end /\
    ((forall index,
        dict_get bytes_eqb sharedCoordIndices coord = Some index ->
        0 <= index < 0x1000) ->
     (Z.testbit flags 15 = true
      <-> dict_get bytes_eqb sharedCoordIndices coord = None) /\
     (Z.testbit flags 13 = true <-> sharedPoints = None) /\
     (forall index,
        dict_get bytes_eqb sharedCoordIndices coord = Some index ->
        Z.land flags 0x0FFF = index)).
Proof.
  intros Htags Hc. unfold compile in Hc.
  rewrite Htags in Hc. cbn [assert bind] in Hc.
  destruct (compileCoord' self axisTags) as [coord|]; [|discriminate].
  cbn [bind] in Hc.
  destruct (compileIntermediateCoord' self axisTags) as [ic|];
    [|destruct (dict_get _ _ _); discriminate].
  exists coord, ic.
  set (shared := dict_get bytes_eqb sharedCoordIndices coord) in *.
  set (base := match shared with
               | Some index => index
               | None => EMBEDDED_PEAK_TUPLE
               end).
  set (peak := match shared with Some _ => [] | None => coord end).
  set (inter := match ic with Some b => b | None => [] end).
  set (iflag := match ic with Some _ => INTERMEDIATE_REGION | None => 0 end).
  set (pflag := match sharedPoints with
                | Some _ => 0
                | None => PRIVATE_POINT_NUMBERS
                end).
  assert (Hbits : forall (i p : bool),
    let flags :=
      Z.lor (Z.lor base (if i then INTERMEDIATE_REGION else 0))
            (if p then PRIVATE_POINT_NUMBERS else 0) in
    (forall index, shared = Some index -> 0 <= index < 0x1000) ->
    (Z.testbit flags 15 = true <-> shared = None) /\
    (Z.testbit flags 13 = true <-> p = true) /\
    (forall index, shared = Some index -> Z.land flags 0x0FFF = index)).
  { intros i p flags Hidx. unfold flags, base. destruct shared as [index|].
    - destruct (shared_index_flag_bits index i p (Hidx index eq_refl))
        as (H15 & H13 & Hlow).
      cbv zeta in H15, H13, Hlow. rewrite H15, H13.
      repeat split; try discriminate; try tauto.
      intros ? [= <-]. exact Hlow.
    - destruct (embedded_flag_bits i p) as (H15 & H13).
      cbv zeta in H15, H13. rewrite H15, H13.
      repeat split; try discriminate; try tauto. }
  assert (Hend : forall flags tupleData aux,
    (header <- pack_HH (len aux) flags ;;
     Ok (header ++ bytesjoin tupleData, aux)) = Ok (header, auxData) ->
    aux = auxData /\
    exists b0 b1 b2 b3,
      header = [b0; b1; b2; b3] ++ bytesjoin tupleData /\
      byteord b0 * 256 + byteord b1 = len auxData /\
      byteord b2 * 256 + byteord b3 = flags).
  { intros flags tupleData aux H. unfold pack_HH in H.
    destruct (pack_H (len aux)) as [h1|] eqn:E1; [|discriminate].
    cbn [bind] in H.
    destruct (pack_H flags) as [h2|] eqn:E2; [|discriminate].
    cbn [bind] in H. apply Ok_inj in H. injection H as <- <-.
    apply pack_H_value in E1. destruct E1 as (_ & b0 & b1 & -> & Hv1).
    apply pack_H_value in E2. destruct E2 as (_ & b2 & b3 & -> & Hv2).
    split; [reflexivity|]. exists b0, b1, b2, b3. auto. }
  specialize (Hbits match ic with Some _ => true | None => false end
                    match sharedPoints with Some _ => false | None => true end).
  cbv zeta in Hbits.
  destruct ic as [icb|], sharedPoints as [points|];
    (destruct shared as [index|] eqn:Es);
    cbn [bind] in Hc;
    repeat match type of Hc with
           | context [bind ?m _] =>
               lazymatch m with
               | context [bind _ _] => fail
               | pack_HH _ _ => fail
               | _ => idtac
               end;
               destruct m eqn:?; [|discriminate]; cbn [bind] in Hc
           end;
    apply Hend in Hc; destruct Hc as (<- & b0 & b1 & b2 & b3 & Hh & Hv1 & Hv2);
    eexists _, b0, b1, b2, b3;
    (split; [reflexivity|]); (split; [reflexivity|]); (split; [reflexivity|]);
    (split; [rewrite Hh; unfold peak, inter; cbn [bytesjoin concat app];
             rewrite ?app_nil_r; reflexivity|]);
    (split; [assumption|]);
    (split; [unfold base, iflag, pflag; rewrite ?Z.lor_0_r; assumption|]);
    (split; [first [reflexivity | eexists _, _; repeat split; reflexivity]|]);
    intros Hidx; specialize (Hbits Hidx);
    destruct Hbits as (H15 & H13 & Hlow);
    (split; [exact H15|]); (split; [|exact Hlow]);
    (split;
     [ intros Ht; first [reflexivity | apply H13 in Ht; discriminate Ht]
     | intros Hn; first [discriminate Hn | apply H13; reflexivity] ]).
Qed.

End CompileFacts.

(** An instance: one axis out of two, two points out of three, no shared
    tuples and no shared points. A coordinate [v] is given here as the
    integer [v * 16384], so that the fixed-point conversion is the identity. *)
Lemma compile_flags_and_layout_witness :
  exists flags b0 b1 b2 b3,
    flags = 0xA000 /\
    [x00; x0c; xa0; x00; x40; x00; x00; x00] = [b0; b1; b2; b3] ++ [x40; x00; x00; x00] /\
    byteord b0 * 256 + byteord b1 = 12 /\
    byteord b2 * 256 + byteord b3 = flags.
Proof.
  destruct (compile_flags_and_layout Z 0 Z.ltb Z.eqb (fun v _ => v)
              {| axes := [("wght"%string, (0, 16384, 16384))];
                 coordinates := [Some (XY 1 2); None; Some (XY 3 (-300))] |}
              ["wght"%string; "wdth"%string] [] None
              [x00; x0c; xa0; x00; x40; x00; x00; x00]
              [x02; x01; x00; x02; x01; x01; x03; x00; x02; x40; xfe; xd4]
              eq_refl eq_refl)
    as (coord & ic & flags & b0 & b1 & b2 & b3
        & Hcoord & Hic & Hflags & Hheader & Hlen & Hval & _).
  vm_compute in Hcoord. apply Ok_inj in Hcoord. subst coord.
  vm_compute in Hic. apply Ok_inj in Hic. subst ic.
  exists flags, b0, b1, b2, b3.
  repeat split; assumption.
Defined.

(** ** The decoders never run out of fuel

    Whatever the data, the rounds that [decompileDeltas_] and
    [decompilePoints_] give their loops are enough: a call returns or raises
    one of Python's exceptions. *)

Lemma py_getitem_raises {A} (l : list A) i e :
  py_getitem l i = Raise e -> e = IndexError.
Proof.
  unfold py_getitem. destruct (_ <? 0); [congruence|].
  destruct (nth_error _ _); congruence.
Qed.

Lemma words_of_raises_upto n : forall s e,
  (length s <= n)%nat -> words_of s = Raise e -> e = ValueError.
Proof.
  induction n as [|n IH]; intros [|a [|b s]] e Hn H; cbn [words_of] in H;
    try discriminate; try congruence; cbn [length] in Hn; try lia.
  destruct (words_of s) eqn:Es; [discriminate|].
  cbn [bind] in H. injection H as <-. apply (IH s); [lia|assumption].
Qed.

Lemma words_of_raises s e : words_of s = Raise e -> e = ValueError.
Proof. apply (words_of_raises_upto (length s)). apply le_n. Qed.

Lemma decompileDeltas_loop_fuel : forall fuel numDeltas data result pos,
  (Z.to_nat (numDeltas - len result) < fuel)%nat ->
  decompileDeltas_loop fuel numDeltas data result pos <> Raise OutOfFuel.
Proof.
  induction fuel as [|fuel IH]; intros numDeltas data result pos Hfuel; [lia|].
  cbn [decompileDeltas_loop].
  destruct (Z.ltb_spec (len result) numDeltas) as [Hlt|]; [|discriminate].
  destruct (py_getitem data pos) as [c|e] eqn:Ec; cbn [bind].
  2:{ apply py_getitem_raises in Ec. congruence. }
  assert (Hn : 0 <= Z.land (byteord c) DELTA_RUN_COUNT_MASK)
    by (apply Z.land_nonneg; right; unfold DELTA_RUN_COUNT_MASK; lia).
  destruct (negb (Z.land (byteord c) DELTAS_ARE_ZERO =? 0)).
  - apply IH. len_simpl. unfold len at 2. rewrite repeat_length. lia.
  - match goal with
    | |- bind ?m _ <> _ => destruct m as [deltas|e] eqn:Ed
    end; cbn [bind].
    2:{ destruct (negb _) in Ed; [|discriminate].
        unfold array_h in Ed.
        destruct (words_of _) as [|e'] eqn:Ew; [discriminate|].
        cbn [bind] in Ed. injection Ed as <-.
        apply words_of_raises in Ew. congruence. }
    destruct (Z.eqb_spec (len deltas)
                (Z.land (byteord c) DELTA_RUN_COUNT_MASK + 1)) as [Hl|];
      cbn [assert bind]; [|discriminate].
    apply IH. len_simpl. lia.
Qed.

Lemma decompileDeltas_fuel numDeltas data offset :
  decompileDeltas_ numDeltas data offset <> Raise OutOfFuel.
Proof.
  unfold decompileDeltas_.
  pose proof (decompileDeltas_loop_fuel (S (Z.to_nat numDeltas)) numDeltas data
                [] offset) as H.
  destruct (decompileDeltas_loop _ _ _ _ _) as [[result pos]|e]; cbn [bind].
  - destruct (len result =? numDeltas); discriminate.
  - intros [= ->]. apply H; [len_simpl; lia|reflexivity].
Qed.

Lemma decompilePoints_loop_fuel : forall fuel numPointsInData data result pos,
  (Z.to_nat (numPointsInData - len result) < fuel)%nat ->
  decompilePoints_loop fuel numPointsInData data result pos
  <> Raise OutOfFuel.
Proof.
  induction fuel as [|fuel IH]; intros n data result pos Hfuel; [lia|].
  cbn [decompilePoints_loop].
  destruct (Z.ltb_spec (len result) n) as [Hlt|]; [|discriminate].
  destruct (py_getitem data pos) as [c|e] eqn:Ec; cbn [bind].
  2:{ apply py_getitem_raises in Ec. congruence. }
  assert (Hn : 0 <= Z.land (byteord c) POINT_RUN_COUNT_MASK)
    by (apply Z.land_nonneg; right; unfold POINT_RUN_COUNT_MASK; lia).
  match goal with
  | |- bind ?m _ <> _ => destruct m as [points|e] eqn:Ed
  end; cbn [bind].
  2:{ destruct (negb _) in Ed; [|discriminate].
      apply words_of_raises in Ed. congruence. }
  destruct (Z.eqb_spec (len points)
              (Z.land (byteord c) POINT_RUN_COUNT_MASK + 1)) as [Hl|];
    cbn [assert bind]; [|discriminate].
  apply IH. len_simpl. lia.
Qed.

Lemma decompilePoints_fuel numPoints data offset tableTag :
  decompilePoints_ numPoints data offset tableTag <> Raise OutOfFuel.
Proof.
  unfold decompilePoints_.
  destruct (assert _) as [[]|e] eqn:Ea; cbn [bind].
  2:{ unfold assert in Ea. destruct (string_in _ _); congruence. }
  destruct (decompilePoints_numPointsInData data offset) as [[n pos]|e] eqn:Ec;
    cbn [bind].
  2:{ unfold decompilePoints_numPointsInData in Ec.
      destruct (py_getitem data offset) eqn:E1; cbn [bind] in Ec.
      - destruct (negb _); [|discriminate].
        destruct (py_getitem data (offset + 1)) eqn:E2; cbn [bind] in Ec;
          [discriminate|].
        apply py_getitem_raises in E2. congruence.
      - apply py_getitem_raises in E1. congruence. }
  destruct (n =? 0); [discriminate|].
  pose proof (decompilePoints_loop_fuel (S (Z.to_nat n)) n data [] pos) as H.
  destruct (decompilePoints_loop _ _ _ _ _) as [[result pos']|e]; cbn [bind].
  - discriminate.
  - intros [= ->]. apply H; [len_simpl; lia|reflexivity].
Qed.

(** ** The encoders never run out of fuel

    This holds for every input, also one that cannot be written and makes
    the call raise. *)

Lemma write_deltas_h_total : forall run done rest stream,
  (exists stream',
     write_deltas pack_h (done ++ run ++ rest)
       (py_range (len done) (len done + len run)) stream = Ok stream')
  \/ write_deltas pack_h (done ++ run ++ rest)
       (py_range (len done) (len done + len run)) stream = Raise StructError.
Proof.
  induction run as [|x run IH]; intros done rest stream.
  - left. rewrite py_range_nil by (len_simpl; lia). eexists. reflexivity.
  - rewrite py_range_cons by (len_simpl; pose proof (len_nonneg run); lia).
    cbn [write_deltas app]. rewrite py_getitem_app. cbn [bind].
    unfold pack_h at 1 3.
    destruct ((-32768 <=? x) && (x <=? 32767)); cbn [bind]; [|right; reflexivity].
    rewrite snoc_app.
    replace (len done + len (x :: run)) with (len (done ++ [x]) + len run)
      by (len_simpl; lia).
    rewrite <- len_snoc with (x := x). apply IH.
Qed.

Lemma compileDeltaValues_loop_fuel : forall n rest,
  (length rest <= n)%nat ->
  forall done stream fuel,
    (length rest < fuel)%nat ->
    compileDeltaValues_loop fuel (done ++ rest) (len done) stream
    <> Raise OutOfFuel.
Proof.
  induction n as [|n IH]; intros rest Hn done stream fuel Hfuel;
    (destruct fuel as [|fuel]; [lia|]); cbn [compileDeltaValues_loop].
  - destruct rest; [|cbn in Hn; lia]. rewrite pos_at_end. discriminate.
  - destruct rest as [|x r]; [rewrite pos_at_end; discriminate|].
    rewrite pos_in_range, py_getitem_app. cbn [bind].
    assert (Hnext : forall run rest' pos' stream',
      x :: r = run ++ rest' -> run <> [] -> pos' = len done + len run ->
      compileDeltaValues_loop fuel (done ++ x :: r) pos' stream'
      <> Raise OutOfFuel).
    { intros run rest' pos' stream' E Hne ->. rewrite E, app_assoc, <- len_app.
      apply IH.
      - assert (length (x :: r) = length (run ++ rest')) by congruence.
        rewrite length_app in *. destruct run; [congruence|]. cbn in *. lia.
      - assert (length (x :: r) = length (run ++ rest')) by congruence.
        rewrite length_app in *. destruct run; [congruence|]. cbn in *. lia. }
    destruct (Z.eqb_spec x 0) as [->|Hx0].
    + destruct (encodeDeltaRunAsZeroes_spec done r stream)
        as (run & rest' & enc & E & Hne & Hrun & _).
      rewrite Hrun. cbn [bind]. eapply Hnext; eauto.
    + destruct ((x >=? -128) && (x <=? 127)) eqn:Eb.
      * destruct (encodeDeltaRunAsBytes_spec done x r stream)
          as (run & rest' & enc & E & Hne & Hrun & _);
          [unfold int8; lia|assumption|].
        rewrite Hrun. cbn [bind]. eapply Hnext; eauto.
      * destruct (words_loop_spec (x :: r) 65 done 0)
          as (ws & rest' & E & Hlen & Hrun & Hne); [lia|lia|].
        specialize (Hne x r eq_refl Eb ltac:(lia)).
        pose proof (len_pos_of_nonnil ws Hne) as Hk.
        destruct (delta_header_bits (len ws) ltac:(lia)) as (_ & _ & (Hr & _)).
        unfold encodeDeltaRunAsWords_. rewrite Hrun. cbn [bind Z.add].
        rewrite assert_run_length by lia. cbn [bind].
        rewrite bytechr_ok by assumption. cbn [bind].
        rewrite E.
        destruct (write_deltas_h_total ws done rest'
                    (stream ++ [byte_of_Z (Z.lor DELTAS_ARE_WORDS (len ws - 1))]))
          as [[stream' Hw]|Hw]; rewrite Hw; cbn [bind]; [|discriminate].
        rewrite <- E. eapply Hnext; eauto.
Qed.

Lemma compileDeltaValues_fuel deltas :
  compileDeltaValues_ deltas <> Raise OutOfFuel.
Proof.
  apply (compileDeltaValues_loop_fuel (length deltas) deltas (le_n _) [] []).
  apply Nat.lt_succ_diag_r.
Qed.

Lemma bytechr_raises n e : bytechr n = Raise e -> e = ValueError.
Proof. unfold bytechr. destruct (_ && _); congruence. Qed.

Lemma compilePoints_run_total : forall rest fuel done last runLength mode run
    numPoints,
  numPoints = len done + len rest ->
  0 <= runLength <= 128 ->
  (Z.to_nat (128 - runLength) < fuel)%nat ->
  (exists taken rest' last' mode' run',
     rest = taken ++ rest' /\
     runLength + len taken <= 128 /\
     compilePoints_run fuel (done ++ rest) numPoints (len done) last runLength
       mode run
     = Ok (len done + len taken, last', runLength + len taken, mode', run') /\
     (mode = None -> runLength <= 127 -> rest <> [] -> taken <> []))
  \/ compilePoints_run fuel (done ++ rest) numPoints (len done) last runLength
       mode run
     = Raise ValueError.
Proof.
  induction rest as [|x r IH];
    intros fuel done last rl mode run numPoints Hnum Hrl Hfuel;
    (destruct fuel as [|fuel]; [lia|]); cbn [compilePoints_run].
  - left. exists [], [], last, mode, run. len_simpl.
    destruct (Z.ltb_spec (len done) numPoints); [lia|].
    cbn [andb]. rewrite !Z.add_0_r. repeat split; auto; try lia.
  - len_simpl. pose proof (len_nonneg r). subst numPoints.
    destruct (Z.ltb_spec (len done) (len done + (1 + len r))); [|lia].
    cbn [andb]. unfold MAX_RUN_LENGTH.
    destruct (Z.leb_spec rl 127) as [Hroom|Hfull].
    2:{ left. exists [], (x :: r), last, mode, run. len_simpl.
        rewrite !Z.add_0_r. repeat split; auto; try lia. }
    rewrite py_getitem_app. cbn [bind].
    set (useByte := match mode with
                    | Some b => b
                    | None => (0 <=? x - last) && (x - last <=? 255)
                    end).
    destruct (useByte && ((x - last >? 255) || (x - last <? 0))) eqn:Ebreak.
    { left. exists [], (x :: r), last, (Some useByte), run. len_simpl.
      rewrite !Z.add_0_r. repeat split; auto; try lia.
      intros -> _ _. exfalso. unfold useByte in Ebreak. lia. }
    assert (Hw : (exists w,
                    (if useByte then bytechr (x - last)
                     else hi <- bytechr (Z.shiftr (x - last) 8) ;;
                          lo <- bytechr (Z.land (x - last) 255) ;;
                          Ok (hi ++ lo)) = Ok w)
                 \/ (if useByte then bytechr (x - last)
                     else hi <- bytechr (Z.shiftr (x - last) 8) ;;
                          lo <- bytechr (Z.land (x - last) 255) ;;
                          Ok (hi ++ lo)) = Raise ValueError).
    { destruct useByte.
      - destruct (bytechr (x - last)) eqn:E; [left; eauto|].
        apply bytechr_raises in E. subst. right. reflexivity.
      - destruct (bytechr (Z.shiftr (x - last) 8)) eqn:E1; cbn [bind].
        + destruct (bytechr (Z.land (x - last) 255)) eqn:E2; cbn [bind];
            [left; eauto|].
          apply bytechr_raises in E2. subst. right. reflexivity.
        + apply bytechr_raises in E1. subst. right. reflexivity. }
    destruct Hw as [[w Hw]|Hw]; rewrite Hw; cbn [bind]; [|right; reflexivity].
    destruct (IH fuel (done ++ [x]) x (rl + 1) (Some useByte) (run ++ w)
                (len done + (1 + len r)))
      as [(taken & rest' & last' & mode' & run' & E & Hlen & Hrun & _)|Hraise];
      try (len_simpl; lia).
    + left. exists (x :: taken), rest', last', mode', run'.
      rewrite <- snoc_app, len_snoc in Hrun. len_simpl.
      repeat split; auto; try lia.
      * cbn. congruence.
      * rewrite Hrun, !Z.add_assoc. reflexivity.
      * intros; discriminate.
    + right. rewrite <- snoc_app, len_snoc in Hraise. exact Hraise.
Qed.

Lemma compilePoints_loop_fuel : forall n rest,
  (length rest <= n)%nat ->
  forall done last result fuel numPoints,
    numPoints = len done + len rest ->
    (length rest < fuel)%nat ->
    compilePoints_loop fuel (done ++ rest) numPoints (len done) last result
    <> Raise OutOfFuel.
Proof.
  induction n as [|n IH];
    intros rest Hn done last result fuel numPoints Hnum Hfuel;
    (destruct fuel as [|fuel]; [lia|]); cbn [compilePoints_loop].
  - destruct rest; [|cbn in Hn; lia]. len_simpl.
    destruct (Z.ltb_spec (len done) numPoints); [lia|discriminate].
  - destruct rest as [|x r].
    { len_simpl. destruct (Z.ltb_spec (len done) numPoints); [lia|discriminate]. }
    assert (Hpos : (len done <? numPoints) = true).
    { apply Z.ltb_lt. rewrite Hnum. len_simpl. pose proof (len_nonneg r). lia. }
    rewrite Hpos.
    destruct (compilePoints_run_total (x :: r) 130 done last 0 None []
                numPoints Hnum ltac:(lia) ltac:(lia))
      as [(taken & rest' & last' & mode' & run' & E & Hlen & Hrun & Hne)|Hraise].
    2:{ rewrite Hraise. discriminate. }
    rewrite Hrun. cbn [bind].
    specialize (Hne eq_refl ltac:(lia) ltac:(discriminate)).
    pose proof (len_pos_of_nonnil taken Hne) as Hk.
    destruct (point_header_bits (0 + len taken) ltac:(lia))
      as ((Hr1 & _) & (Hr2 & _)).
    assert (Hh : exists h,
      (if truthy mode' then bytechr (0 + len taken - 1)
       else bytechr (Z.lor (0 + len taken - 1) POINTS_ARE_WORDS)) = Ok h).
    { destruct (truthy mode'); rewrite bytechr_ok by assumption; eauto. }
    destruct Hh as [h Hh]. rewrite Hh. cbn [bind].
    rewrite E, app_assoc, <- len_app.
    assert (Hlr : (length rest' < length (x :: r))%nat).
    { rewrite E, length_app. destruct taken; [congruence|]. cbn. lia. }
    apply IH; try lia.
    rewrite Hnum, E. len_simpl. lia.
Qed.

Lemma compilePoints_fuel points numPointsInGlyph :
  compilePoints points numPointsInGlyph <> Raise OutOfFuel.
Proof.
  unfold compilePoints.
  destruct (len points =? numPointsInGlyph); [discriminate|]. cbv zeta.
  match goal with
  | |- bind ?m _ <> _ => destruct m as [prefix|e] eqn:Ep
  end; cbn [bind].
  2:{ destruct (len (sorted points) <? 128).
      - destruct (bytechr _) eqn:E in Ep; cbn [bind] in Ep; [discriminate|].
        apply bytechr_raises in E. congruence.
      - destruct (bytechr (Z.lor _ _)) eqn:E1 in Ep; cbn [bind] in Ep.
        + destruct (bytechr (Z.land _ _)) eqn:E2 in Ep; cbn [bind] in Ep;
            [discriminate|].
          apply bytechr_raises in E2. congruence.
        + apply bytechr_raises in E1. congruence. }
  pose proof (compilePoints_loop_fuel (length (sorted points)) (sorted points)
                (le_n _) [] 0 prefix (S (length (sorted points)))
                (len (sorted points)) eq_refl (Nat.lt_succ_diag_r _)) as H.
  cbn [app] in H. change (len []) with 0 in H.
  destruct (compilePoints_loop _ _ _ _ _ _) as [result|e]; cbn [bind].
  - discriminate.
  - intros [= ->]. apply H. reflexivity.
Qed.

(** ** The worked examples of the source comments and of the specification *)

Example deltas_byte_run :
  compileDeltaValues_ [1; 2; 3] = Ok [x02; x01; x02; x03].
Proof. reflexivity. Qed.

Example deltas_zero_then_bytes :
  compileDeltaValues_ [0; 0; 0; 0; 5; 5] = Ok [x83; x01; x05; x05].
Proof. reflexivity. Qed.

Example deltas_word_run :
  compileDeltaValues_ [0x6666; 0x7777] = Ok [x41; x66; x66; x77; x77].
Proof. reflexivity. Qed.

Example deltas_zero_in_word_run :
  compileDeltaValues_ [0x6666; 0; 0x7777]
  = Ok [x40; x66; x66; x80; x40; x77; x77].
Proof. reflexivity. Qed.

Example deltas_byte_in_word_run :
  compileDeltaValues_ [0x6666; 2; 0x7777]
  = Ok [x42; x66; x66; x00; x02; x77; x77].
Proof. reflexivity. Qed.

Example deltas_read_back :
  decompileDeltas_ 6 [x83; x01; x05; x05] 0 = Ok ([0; 0; 0; 0; 5; 5], 4).
Proof. reflexivity. Qed.

Example points_17_to_23 :
  compilePoints [23; 17; 19; 18; 20; 22; 21] 30
  = Ok [x07; x06; x11; x01; x01; x01; x01; x01; x01].
Proof. reflexivity. Qed.

Example points_17_to_23_read_back :
  decompilePoints_ 30 [x07; x06; x11; x01; x01; x01; x01; x01; x01] 0 "gvar"
  = Ok ([17; 18; 19; 20; 21; 22; 23], 9, []).
Proof. reflexivity. Qed.

Example points_byte_run_then_word_run :
  compilePoints [3; 65535] 65536 = Ok [x02; x00; x03; x80; xff; xfc].
Proof. reflexivity. Qed.

(** * Further properties of the codec *)

(** ** One round of the delta encoder, in full *)

Lemma int16_dec v : {int16 v} + {~ int16 v}.
Proof.
  unfold int16.
  destruct (Z_le_dec (-32768) v), (Z_le_dec v 32767);
    [left|right|right|right]; lia.
Qed.

Lemma pack_h_bad v : ~ int16 v -> pack_h v = Raise StructError.
Proof.
  unfold int16, pack_h. intros H.
  destruct (Z.leb_spec (-32768) v), (Z.leb_spec v 32767); try lia; reflexivity.
Qed.

Lemma write_deltas_h_bad : forall run done rest stream,
  ~ Forall int16 run ->
  write_deltas pack_h (done ++ run ++ rest)
    (py_range (len done) (len done + len run)) stream
  = Raise StructError.
Proof.
  induction run as [|x run IH]; intros done rest stream Hbad.
  - exfalso. apply Hbad. constructor.
  - rewrite py_range_cons by (len_simpl; pose proof (len_nonneg run); lia).
    cbn [write_deltas app]. rewrite py_getitem_app. cbn [bind].
    destruct (int16_dec x) as [Hx|Hx].
    + rewrite pack_h_ok by assumption. cbn [bind].
      rewrite snoc_app.
      replace (len done + len (x :: run)) with (len (done ++ [x]) + len run)
        by (len_simpl; lia).
      rewrite <- len_snoc with (x := x). apply IH.
      intros Hrun. apply Hbad. constructor; assumption.
    + rewrite pack_h_bad by assumption. reflexivity.
Qed.

Lemma flat_map_length_const {A B} (f : A -> list B) (k : Z) (l : list A) :
  (forall a, len (f a) = k) -> len (flat_map f l) = k * len l.
Proof.
  intros Hk. induction l as [|a l IH]; [cbn; lia|].
  cbn [flat_map]. len_simpl. rewrite Hk, IH. lia.
Qed.

(** At [x :: r], the encoder writes one run: it takes a non-empty prefix of
    at most 64 values, and either all of them fit 16 bits and the run is
    written, in 1 to [1 + 2 * len run] bytes that the decoder reads back, or
    one of them does not and [struct.pack] raises. *)
Lemma delta_run_step done x r stream :
  exists run rest',
    x :: r = run ++ rest' /\ run <> [] /\ len run <= 64 /\
    ((Forall int16 run /\
      exists enc,
        (if x =? 0 then encodeDeltaRunAsZeroes_ (done ++ x :: r) (len done) stream
         else if (x >=? -128) && (x <=? 127)
              then encodeDeltaRunAsBytes_ (done ++ x :: r) (len done) stream
              else encodeDeltaRunAsWords_ (done ++ x :: r) (len done) stream)
        = Ok (len done + len run, stream ++ enc) /\
        decodes_delta_run enc run /\
        1 <= len enc <= 1 + 2 * len run)
     \/
     (~ Forall int16 run /\
      (if x =? 0 then encodeDeltaRunAsZeroes_ (done ++ x :: r) (len done) stream
       else if (x >=? -128) && (x <=? 127)
            then encodeDeltaRunAsBytes_ (done ++ x :: r) (len done) stream
            else encodeDeltaRunAsWords_ (done ++ x :: r) (len done) stream)
      = Raise StructError)).
Proof.
  destruct (Z.eqb_spec x 0) as [->|Hx0].
  - destruct (zeroes_loop_spec (0 :: r) 65 done 0)
      as (zs & rest' & E & Hz & Hlen & Hrun & Hne); [lia|lia|].
    specialize (Hne 0 r eq_refl eq_refl ltac:(lia)).
    pose proof (len_pos_of_nonnil zs Hne) as Hk.
    destruct (delta_header_bits (len zs) ltac:(lia)) as ((Hr & _) & _).
    exists zs, rest'. repeat split; auto; try lia. left. split.
    + eapply Forall_impl; [|exact Hz]. cbv beta. intros ? ->. unfold int16. lia.
    + exists [byte_of_Z (Z.lor DELTAS_ARE_ZERO (len zs - 1))]. repeat split.
      * unfold encodeDeltaRunAsZeroes_. rewrite Hrun. cbn [bind Z.add].
        rewrite assert_run_length by lia. cbn [bind].
        rewrite bytechr_ok by assumption. reflexivity.
      * rewrite (all_zero_repeat zs Hz) at 2. apply zero_run_decodes. lia.
      * len_simpl. lia.
      * len_simpl. lia.
  - destruct ((x >=? -128) && (x <=? 127)) eqn:Eb.
    + destruct (bytes_loop_spec (x :: r) 65 done 0)
        as (bs & rest' & E & Hb & Hlen & Hrun & Hne); [lia|lia|].
      specialize (Hne x r eq_refl ltac:(lia) Hx0 ltac:(lia)).
      pose proof (len_pos_of_nonnil bs Hne) as Hk.
      destruct (delta_header_bits (len bs) ltac:(lia)) as (_ & (Hr & _) & _).
      exists bs, rest'. repeat split; auto; try lia. left. split.
      * eapply Forall_impl; [|exact Hb]. cbv beta. unfold int16. intros; lia.
      * exists (byte_of_Z (len bs - 1) :: flat_map (fun v => [byte_of_Z v]) bs).
        assert (Hsize : len (flat_map (fun v => [byte_of_Z v]) bs) = 1 * len bs)
          by (apply flat_map_length_const; reflexivity).
        repeat split.
        -- unfold encodeDeltaRunAsBytes_. rewrite Hrun. cbn [bind Z.add].
           rewrite assert_run_length by lia. cbn [bind].
           rewrite bytechr_ok by assumption. cbn [bind]. rewrite E.
           rewrite (write_deltas_spec pack_b int8 (fun v => [byte_of_Z v])
                      pack_b_ok) by assumption.
           cbn [bind]. rewrite <- app_assoc. reflexivity.
        -- apply byte_run_decodes; [lia|assumption].
        -- len_simpl. lia.
        -- len_simpl. lia.
    + destruct (words_loop_spec (x :: r) 65 done 0)
        as (ws & rest' & E & Hlen & Hrun & Hne); [lia|lia|].
      specialize (Hne x r eq_refl Eb ltac:(lia)).
      pose proof (len_pos_of_nonnil ws Hne) as Hk.
      destruct (delta_header_bits (len ws) ltac:(lia)) as (_ & _ & (Hr & _)).
      exists ws, rest'. repeat split; auto; try lia.
      assert (Hhead :
        encodeDeltaRunAsWords_ (done ++ x :: r) (len done) stream
        = (stream' <- write_deltas pack_h (done ++ ws ++ rest')
                        (py_range (len done) (len done + len ws))
                        (stream ++ [byte_of_Z (Z.lor DELTAS_ARE_WORDS
                                                 (len ws - 1))]) ;;
           Ok (len done + len ws, stream'))).
      { unfold encodeDeltaRunAsWords_. rewrite Hrun. cbn [bind Z.add].
        rewrite assert_run_length by lia. cbn [bind].
        rewrite bytechr_ok by assumption. cbn [bind]. rewrite E.
        reflexivity. }
      rewrite Hhead.
      destruct (Forall_dec int16 int16_dec ws) as [Hall|Hbad].
      * left. split; [assumption|].
        exists (byte_of_Z (Z.lor DELTAS_ARE_WORDS (len ws - 1))
                :: flat_map (fun v => [byte_of_Z (Z.shiftr v 8);
                                       byte_of_Z (Z.land v 255)]) ws).
        assert (Hsize : len (flat_map (fun v => [byte_of_Z (Z.shiftr v 8);
                                                 byte_of_Z (Z.land v 255)]) ws)
                        = 2 * len ws)
          by (apply flat_map_length_const; reflexivity).
        repeat split.
        -- rewrite (write_deltas_spec pack_h int16 _ pack_h_ok) by assumption.
           cbn [bind]. rewrite <- app_assoc. reflexivity.
        -- apply word_run_decodes; [lia|assumption].
        -- len_simpl. lia.
        -- len_simpl. lia.
      * right. split; [assumption|].
        rewrite write_deltas_h_bad by assumption. reflexivity.
Qed.

(** ** The delta encoder as a whole *)

Lemma decodes_deltas_nil : decodes_deltas [] [].
Proof.
  intros [|fuel] n pre post result Hnum Hf; [cbn in Hf; lia|].
  cbn [decompileDeltas_loop]. len_simpl.
  destruct (Z.ltb_spec (len result) n); [lia|].
  rewrite app_nil_r. f_equal. f_equal. lia.
Qed.

Lemma decodes_deltas_app enc1 run enc2 values :
  run <> [] ->
  decodes_delta_run enc1 run -> decodes_deltas enc2 values ->
  decodes_deltas (enc1 ++ enc2) (run ++ values).
Proof.
  intros Hne H1 H2 [|fuel] n pre post result Hnum Hf; [lia|].
  pose proof (len_pos_of_nonnil run Hne). pose proof (len_nonneg values).
  rewrite <- (app_assoc enc1 enc2 post).
  rewrite H1 by (len_simpl; lia).
  specialize (H2 fuel n (pre ++ enc1) post (result ++ run)).
  rewrite <- !app_assoc in H2. len_simpl.
  rewrite H2.
  - f_equal. f_equal. lia.
  - lia.
  - rewrite length_app in Hf. destruct run; [congruence|]. cbn in Hf. lia.
Qed.

Lemma decodes_deltas_call enc values pre post :
  decodes_deltas enc values ->
  decompileDeltas_ (len values) (pre ++ enc ++ post) (len pre)
  = Ok (values, len pre + len enc).
Proof.
  intros H. unfold decompileDeltas_.
  rewrite (H (S (Z.to_nat (len values))) (len values) pre post []).
  - cbn [bind app]. rewrite Z.eqb_refl. reflexivity.
  - len_simpl. reflexivity.
  - unfold len. lia.
Qed.

Lemma compileDeltaValues_loop_full : forall n rest,
  (length rest <= n)%nat ->
  forall done stream fuel,
    (length rest < fuel)%nat ->
    (Forall int16 rest /\
     exists enc,
       compileDeltaValues_loop fuel (done ++ rest) (len done) stream
         = Ok (stream ++ enc) /\
       decodes_deltas enc rest /\
       len rest <= 64 * len enc /\ len enc <= 3 * len rest)
    \/
    (~ Forall int16 rest /\
     compileDeltaValues_loop fuel (done ++ rest) (len done) stream
       = Raise StructError).
Proof.
  assert (Hnil : forall done stream fuel,
    Forall int16 [] /\
    exists enc,
      compileDeltaValues_loop (S fuel) (done ++ []) (len done) stream
        = Ok (stream ++ enc) /\
      decodes_deltas enc [] /\
      len (@nil Z) <= 64 * len enc /\ len enc <= 3 * len (@nil Z)).
  { intros done stream fuel. split; [constructor|]. exists [].
    cbn [compileDeltaValues_loop]. rewrite pos_at_end, app_nil_r.
    repeat split; [apply decodes_deltas_nil|..]; len_simpl; lia. }
  induction n as [|n IH]; intros rest Hn done stream fuel Hfuel;
    (destruct fuel as [|fuel]; [lia|]).
  - destruct rest; [|cbn in Hn; lia]. left. apply Hnil.
  - destruct rest as [|x r]; [left; apply Hnil|].
    cbn [compileDeltaValues_loop].
    rewrite pos_in_range, py_getitem_app. cbn [bind].
    destruct (delta_run_step done x r stream)
      as (run & rest' & E & Hne & Hcap
          & [(Hgood & enc1 & Hstep & Hdec & Hsize)|(Hbad & Hstep)]);
      rewrite Hstep; cbn [bind].
    2:{ right. split; [|reflexivity].
        rewrite E. intros Hall. apply Forall_app in Hall. tauto. }
    assert (Hlr : (length rest' < length (x :: r))%nat).
    { rewrite E, length_app. destruct run; [congruence|]. cbn. lia. }
    pose proof (len_pos_of_nonnil run Hne) as Hk.
    destruct (IH rest' ltac:(lia) (done ++ run) (stream ++ enc1) fuel
                ltac:(lia))
      as [(Hgood' & enc2 & Hloop & Hdec2 & Hlo & Hhi)|(Hbad' & Hloop)];
      rewrite len_app, <- app_assoc, <- E in Hloop; rewrite Hloop.
    + left. rewrite E at 1. split; [apply Forall_app; tauto|].
      exists (enc1 ++ enc2). rewrite E.
      repeat split.
      * rewrite <- app_assoc. reflexivity.
      * apply decodes_deltas_app; assumption.
      * len_simpl. lia.
      * len_simpl. lia.
    + right. split; [|reflexivity].
      rewrite E. intros Hall. apply Forall_app in Hall. tauto.
Qed.

Lemma compileDeltaValues_full deltas :
  (Forall int16 deltas /\
   exists enc,
     compileDeltaValues_ deltas = Ok enc /\
     decodes_deltas enc deltas /\
     len deltas <= 64 * len enc /\ len enc <= 3 * len deltas)
  \/ (~ Forall int16 deltas /\ compileDeltaValues_ deltas = Raise StructError).
Proof.
  exact (compileDeltaValues_loop_full (length deltas) deltas (le_n _) [] []
           (S (length deltas)) (Nat.lt_succ_diag_r _)).
Qed.

(** X1. The delta round trip holds wherever the compiled bytes sit: with any
    bytes before and after them, decoding [len D] values from where they
    start returns [D] and the offset where they end. *)
Theorem delta_roundtrip_in_context (D : list Z) :
  Forall int16 D ->
  exists enc,
    compileDeltaValues_ D = Ok enc /\
    forall pre post,
      decompileDeltas_ (len D) (pre ++ enc ++ post) (len pre)
      = Ok (D, len pre + len enc).
Proof.
  intros HD.
  destruct (compileDeltaValues_full D) as [(_ & enc & Hc & Hdec & _)|(Hbad & _)];
    [|contradiction].
  exists enc. split; [exact Hc|].
  intros pre post. apply decodes_deltas_call, Hdec.
Qed.

Lemma delta_roundtrip_in_context_witness :
  exists enc,
    compileDeltaValues_ [7; 0; 0; -300] = Ok enc /\
    forall pre post,
      decompileDeltas_ (len [7; 0; 0; -300]) (pre ++ enc ++ post) (len pre)
      = Ok ([7; 0; 0; -300], len pre + len enc).
Proof.
  apply (delta_roundtrip_in_context [7; 0; 0; -300]).
  repeat constructor; unfold int16; lia.
Defined.

(** X2. Two delta streams written one after the other, as [compileDeltas]
    writes the x and the y deltas, are read back by two calls, the second
    starting at the offset the first returns. *)
Theorem delta_streams_compose (X Y : list Z) :
  Forall int16 X -> Forall int16 Y ->
  exists ex ey,
    compileDeltaValues_ X = Ok ex /\ compileDeltaValues_ Y = Ok ey /\
    forall pre post,
      decompileDeltas_ (len X) (pre ++ (ex ++ ey) ++ post) (len pre)
      = Ok (X, len pre + len ex) /\
      decompileDeltas_ (len Y) (pre ++ (ex ++ ey) ++ post) (len pre + len ex)
      = Ok (Y, len pre + len (ex ++ ey)).
Proof.
  intros HX HY.
  destruct (compileDeltaValues_full X) as [(_ & ex & Hcx & Hdx & _)|(Hbad & _)];
    [|contradiction].
  destruct (compileDeltaValues_full Y) as [(_ & ey & Hcy & Hdy & _)|(Hbad & _)];
    [|contradiction].
  exists ex, ey. repeat split; try assumption.
  - rewrite <- app_assoc. apply decodes_deltas_call, Hdx.
  - rewrite <- app_assoc, app_assoc, <- len_app.
    rewrite (decodes_deltas_call ey Y (pre ++ ex) post Hdy).
    len_simpl. rewrite Z.add_assoc. reflexivity.
Qed.

Lemma delta_streams_compose_witness :
  exists ex ey,
    compileDeltaValues_ [1; 2; 0] = Ok ex /\
    compileDeltaValues_ [0; 0; 500] = Ok ey /\
    forall pre post,
      decompileDeltas_ (len [1; 2; 0]) (pre ++ (ex ++ ey) ++ post) (len pre)
      = Ok ([1; 2; 0], len pre + len ex) /\
      decompileDeltas_ (len [0; 0; 500]) (pre ++ (ex ++ ey) ++ post)
        (len pre + len ex)
      = Ok ([0; 0; 500], len pre + len (ex ++ ey)).
Proof.
  apply (delta_streams_compose [1; 2; 0] [0; 0; 500]);
    repeat constructor; unfold int16; lia.
Defined.

(** X3. [compileDeltaValues_] returns exactly when every delta is in
    [-32768, 32767]; when one is not, it raises [struct.error], whatever the
    other deltas are. *)
Theorem compileDeltaValues_range (D : list Z) :
  (Forall int16 D <-> exists enc, compileDeltaValues_ D = Ok enc) /\
  (~ Forall int16 D <-> compileDeltaValues_ D = Raise StructError).
Proof.
  destruct (compileDeltaValues_full D)
    as [(Hgood & enc & Hc & _)|(Hbad & Hc)]; rewrite Hc.
  - split; split; intros H; try assumption.
    + eauto.
    + contradiction.
    + discriminate.
  - split; split; intros H; try assumption; try reflexivity.
    + contradiction.
    + destruct H as [enc H]. discriminate.
Qed.

(** X4. The compiled deltas take at least one byte for every 64 values and
    at most three bytes for every value. *)
Theorem compileDeltaValues_size (D : list Z) (enc : bytes) :
  compileDeltaValues_ D = Ok enc ->
  len D <= 64 * len enc /\ len enc <= 3 * len D.
Proof.
  intros Hc.
  destruct (compileDeltaValues_full D)
    as [(_ & enc' & Hc' & _ & Hlo & Hhi)|(_ & Hc')];
    rewrite Hc in Hc'; [|discriminate].
  apply Ok_inj in Hc'. subst enc'. split; assumption.
Qed.

Lemma compileDeltaValues_size_witness :
  len [0x6666; 0; 0x7777] <= 64 * len [x40; x66; x66; x80; x40; x77; x77] /\
  len [x40; x66; x66; x80; x40; x77; x77] <= 3 * len [0x6666; 0; 0x7777].
Proof.
  apply (compileDeltaValues_size [0x6666; 0; 0x7777]). reflexivity.
Defined.

(** ** What a successful decode has read *)

Lemma py_getitem_bound {A} (l : list A) i a :
  0 <= i -> py_getitem l i = Ok a -> i < len l.
Proof.
  unfold py_getitem. intros Hi H.
  destruct (Z.ltb_spec i 0); [lia|].
  destruct (Z.ltb_spec i 0); [lia|].
  destruct (nth_error l (Z.to_nat i)) eqn:E; [|discriminate].
  assert (Hn : nth_error l (Z.to_nat i) <> None) by congruence.
  apply nth_error_Some in Hn. unfold len. lia.
Qed.

Lemma py_slice_length {A} (l : list A) lo hi :
  0 <= lo <= hi ->
  len (py_slice l lo hi) = Z.min hi (len l) - Z.min lo (len l).
Proof.
  intros H. unfold py_slice, py_clip. pose proof (len_nonneg l).
  destruct (Z.ltb_spec lo 0), (Z.ltb_spec hi 0); try lia.
  unfold len in *. rewrite length_firstn, length_skipn. lia.
Qed.

Lemma py_slice_full {A} (l : list A) pos size :
  0 <= pos -> 0 < size ->
  len (py_slice l pos (pos + size)) = size -> pos + size <= len l.
Proof.
  intros Hpos Hsize H. rewrite py_slice_length in H by lia. lia.
Qed.

Lemma words_of_items_upto n : forall s ws,
  (length s <= n)%nat -> words_of s = Ok ws ->
  len s = 2 * len ws /\ Forall (fun w => 0 <= w) ws.
Proof.
  induction n as [|n IH]; intros [|a [|b s]] ws Hn H; cbn [words_of] in H;
    try discriminate; cbn [length] in Hn; try lia;
    try (apply Ok_inj in H; subst ws; split; [reflexivity|constructor]).
  destruct (words_of s) as [ws'|] eqn:Es; [|discriminate].
  cbn [bind] in H. apply Ok_inj in H. subst ws.
  destruct (IH s ws' ltac:(lia) Es) as [Hl Hf]. split.
  - len_simpl. lia.
  - constructor; [|assumption].
    apply Z.lor_nonneg. split.
    + apply Z.shiftl_nonneg. apply byteord_bounds.
    + apply byteord_bounds.
Qed.

Lemma words_of_items s ws :
  words_of s = Ok ws -> len s = 2 * len ws /\ Forall (fun w => 0 <= w) ws.
Proof. apply (words_of_items_upto (length s)). apply le_n. Qed.

Lemma len_map {A B} (f : A -> B) (l : list A) : len (map f l) = len l.
Proof. unfold len. rewrite length_map. reflexivity. Qed.

Lemma decompileDeltas_loop_inv : forall fuel numDeltas data result pos r p,
  0 <= pos ->
  decompileDeltas_loop fuel numDeltas data result pos = Ok (r, p) ->
  numDeltas <= len r /\ pos <= p /\
  (len result < numDeltas -> pos < p) /\
  (pos <= len data \/ len result < numDeltas -> p <= len data) /\
  exists ext, r = result ++ ext.
Proof.
  induction fuel as [|fuel IH]; intros n data result pos r p Hpos H;
    [discriminate|].
  cbn [decompileDeltas_loop] in H.
  destruct (Z.ltb_spec (len result) n) as [Hlt|Hge].
  2:{ apply Ok_inj in H. injection H as <- <-.
      repeat split; try lia. exists []. rewrite app_nil_r. reflexivity. }
  destruct (py_getitem data pos) as [c|] eqn:Ec; [|discriminate].
  cbn [bind] in H. apply py_getitem_bound in Ec; [|assumption].
  assert (Hn : 0 <= Z.land (byteord c) DELTA_RUN_COUNT_MASK)
    by (apply Z.land_nonneg; right; unfold DELTA_RUN_COUNT_MASK; lia).
  destruct (negb (Z.land (byteord c) DELTAS_ARE_ZERO =? 0)).
  - apply IH in H; [|lia].
    destruct H as (H1 & H2 & _ & H4 & ext & ->).
    repeat split; try lia. rewrite <- app_assoc. eauto.
  - match type of H with
    | bind ?m _ = _ => destruct m as [deltas|] eqn:Ed; [|discriminate]
    end.
    cbn [bind] in H.
    destruct (Z.eqb_spec (len deltas)
                (Z.land (byteord c) DELTA_RUN_COUNT_MASK + 1)) as [Hl|];
      [|discriminate].
    cbn [assert bind] in H.
    assert (Hfull : pos + 1
                    + (if negb (Z.land (byteord c) DELTAS_ARE_WORDS =? 0)
                       then (Z.land (byteord c) DELTA_RUN_COUNT_MASK + 1) * 2
                       else Z.land (byteord c) DELTA_RUN_COUNT_MASK + 1)
                    <= len data
                    /\ 0 < (if negb (Z.land (byteord c) DELTAS_ARE_WORDS =? 0)
                            then (Z.land (byteord c) DELTA_RUN_COUNT_MASK + 1) * 2
                            else Z.land (byteord c) DELTA_RUN_COUNT_MASK + 1)).
    { destruct (negb (Z.land (byteord c) DELTAS_ARE_WORDS =? 0)).
      - unfold array_h in Ed.
        destruct (words_of _) as [ws|] eqn:Ew; [|discriminate].
        cbn [bind] in Ed. apply Ok_inj in Ed. subst deltas.
        rewrite len_map in Hl. apply words_of_items in Ew.
        destruct Ew as [Hs _].
        split; [|lia]. apply py_slice_full; lia.
      - unfold array_b in Ed. apply Ok_inj in Ed. subst deltas.
        rewrite len_map in Hl.
        split; [|lia]. apply py_slice_full; lia. }
    destruct Hfull as [Hfull Hsize].
    apply IH in H; [|lia].
    destruct H as (H1 & H2 & _ & H4 & ext & ->).
    repeat split; try lia. rewrite <- app_assoc. eauto.
Qed.

(** X5. When [decompileDeltas_] returns, from an offset that is not
    negative, it returns exactly [numDeltas] values and an offset that is not
    before the start; when at least one value was asked for, the offset has
    moved on and is not beyond the end of the data. *)
Theorem decompileDeltas_returns (numDeltas : Z) (data : bytes) (offset : Z)
    (result : list Z) (pos : Z) :
  0 <= offset ->
  decompileDeltas_ numDeltas data offset = Ok (result, pos) ->
  len result = numDeltas /\ offset <= pos /\
  (0 < numDeltas -> offset < pos <= len data).
Proof.
  intros Hoff H. unfold decompileDeltas_ in H.
  destruct (decompileDeltas_loop _ _ _ _ _) as [[r p]|] eqn:El; [|discriminate].
  cbn [bind] in H.
  destruct (Z.eqb_spec (len r) numDeltas) as [Hlen|]; [|discriminate].
  cbn [assert bind] in H. apply Ok_inj in H. injection H as <- <-.
  apply decompileDeltas_loop_inv in El; [|assumption].
  destruct El as (_ & H2 & H3 & H4 & _). len_simpl.
  repeat split; try lia.
Qed.

Lemma decompileDeltas_returns_witness :
  len [0; 0; 0; 0; 5; 5] = 6 /\ 1 <= 5 /\ (0 < 6 -> 1 < 5 <= len [x2a; x83; x01; x05; x05; x2a]).
Proof.
  apply (decompileDeltas_returns 6 [x2a; x83; x01; x05; x05; x2a] 1
           [0; 0; 0; 0; 5; 5] 5).
  - lia.
  - reflexivity.
Defined.

Lemma decompilePoints_loop_inv : forall fuel n data result pos r p,
  0 <= pos ->
  Forall (fun d => 0 <= d) result ->
  decompilePoints_loop fuel n data result pos = Ok (r, p) ->
  n <= len r /\ pos <= p /\
  (pos <= len data \/ len result < n -> p <= len data) /\
  Forall (fun d => 0 <= d) r.
Proof.
  induction fuel as [|fuel IH]; intros n data result pos r p Hpos Hres H;
    [discriminate|].
  cbn [decompilePoints_loop] in H.
  destruct (Z.ltb_spec (len result) n) as [Hlt|Hge].
  2:{ apply Ok_inj in H. injection H as <- <-. repeat split; try lia.
      assumption. }
  destruct (py_getitem data pos) as [c|] eqn:Ec; [|discriminate].
  cbn [bind] in H. apply py_getitem_bound in Ec; [|assumption].
  assert (Hn : 0 <= Z.land (byteord c) POINT_RUN_COUNT_MASK)
    by (apply Z.land_nonneg; right; unfold POINT_RUN_COUNT_MASK; lia).
  match type of H with
  | bind ?m _ = _ => destruct m as [points|] eqn:Ed; [|discriminate]
  end.
  cbn [bind] in H.
  destruct (Z.eqb_spec (len points)
              (Z.land (byteord c) POINT_RUN_COUNT_MASK + 1)) as [Hl|];
    [|discriminate].
  cbn [assert bind] in H.
  assert (Hfull : pos + 1
                  + (if negb (Z.land (byteord c) POINTS_ARE_WORDS =? 0)
                     then (Z.land (byteord c) POINT_RUN_COUNT_MASK + 1) * 2
                     else Z.land (byteord c) POINT_RUN_COUNT_MASK + 1)
                  <= len data
                  /\ 0 < (if negb (Z.land (byteord c) POINTS_ARE_WORDS =? 0)
                          then (Z.land (byteord c) POINT_RUN_COUNT_MASK + 1) * 2
                          else Z.land (byteord c) POINT_RUN_COUNT_MASK + 1)
                  /\ Forall (fun d => 0 <= d) points).
  { destruct (negb (Z.land (byteord c) POINTS_ARE_WORDS =? 0)).
    - unfold array_H in Ed. apply words_of_items in Ed.
      destruct Ed as [Hs Hnn].
      split; [|split; [lia|assumption]]. apply py_slice_full; lia.
    - unfold array_B in Ed. apply Ok_inj in Ed. subst points.
      rewrite len_map in Hl.
      split; [|split; [lia|]]; [apply py_slice_full; lia|].
      apply Forall_forall. intros d Hd. apply in_map_iff in Hd.
      destruct Hd as (b & <- & _). apply byteord_bounds. }
  destruct Hfull as (Hfull & Hsize & Hnn).
  apply IH in H; [|lia|apply Forall_app; split; assumption].
  destruct H as (H1 & H2 & H3 & H4).
  repeat split; try lia. assumption.
Qed.

Lemma to_absolute_ascends : forall result current,
  Forall (fun d => 0 <= d) result ->
  Forall (fun p => current <= p) (to_absolute current result) /\
  Sorted Z.le (to_absolute current result).
Proof.
  induction result as [|d rest IH]; intros current H; cbn [to_absolute].
  - split; constructor.
  - inversion H as [|? ? Hd Hrest]; subst.
    destruct (IH (current + d) Hrest) as [Hge Hs]. split.
    + constructor; [lia|].
      eapply Forall_impl; [|exact Hge]. cbv beta. intros; lia.
    + constructor; [assumption|].
      destruct (to_absolute (current + d) rest) as [|q qs]; constructor.
      inversion Hge; subst. assumption.
Qed.

Lemma range_ascends n : Forall (fun p => 0 <= p) (range n) /\ Sorted Z.le (range n).
Proof.
  unfold range, py_range. generalize (Z.to_nat (n - 0)) as k.
  assert (H : forall k lo, Forall (fun p => lo <= p) (count_from lo k)
                           /\ Sorted Z.le (count_from lo k)).
  { induction k as [|k IH]; intros lo; cbn [count_from].
    - split; constructor.
    - destruct (IH (lo + 1)) as [Hge Hs]. split.
      + constructor; [lia|].
        eapply Forall_impl; [|exact Hge]. cbv beta. intros; lia.
      + constructor; [assumption|].
        destruct k; cbn [count_from]; constructor. lia. }
  intros k. apply H.
Qed.

(** X6. When [decompilePoints_] returns, from an offset that is not
    negative, no point it returns is negative and the points never go down;
    the new offset is past the start and not beyond the end of the data; and
    with a count prefix [n] that is not zero at least [n] points are
    returned. *)
Theorem decompilePoints_returns (numPoints : Z) (data : bytes) (offset : Z)
    (tableTag : string) (points : list Z) (pos : Z) (log : list warning) :
  0 <= offset ->
  decompilePoints_ numPoints data offset tableTag = Ok (points, pos, log) ->
  Forall (fun p => 0 <= p) points /\ Sorted Z.le points /\
  offset < pos <= len data /\
  (forall n pos0,
     decompilePoints_numPointsInData data offset = Ok (n, pos0) ->
     n <> 0 -> n <= len points).
Proof.
  intros Hoff H. unfold decompilePoints_ in H.
  destruct (assert _) as [[]|]; [|discriminate]. cbn [bind] in H.
  destruct (decompilePoints_numPointsInData data offset) as [[n pos0]|] eqn:Ec;
    [|discriminate].
  cbn [bind] in H.
  assert (Hpos0 : offset < pos0 <= len data).
  { unfold decompilePoints_numPointsInData in Ec.
    destruct (py_getitem data offset) as [c|] eqn:E1; [|discriminate].
    cbn [bind] in Ec. apply py_getitem_bound in E1; [|assumption].
    destruct (negb _).
    - destruct (py_getitem data (offset + 1)) as [c'|] eqn:E2; [|discriminate].
      cbn [bind] in Ec. apply py_getitem_bound in E2; [|lia].
      apply Ok_inj in Ec. injection Ec as <- <-. lia.
    - apply Ok_inj in Ec. injection Ec as <- <-. lia. }
  destruct (Z.eqb_spec n 0) as [->|Hn].
  - apply Ok_inj in H. injection H as <- <- <-.
    destruct (range_ascends numPoints) as [Hnn Hs].
    repeat split; try assumption; try lia.
    intros n' pos' [= <- <-] Hne. contradiction.
  - destruct (decompilePoints_loop _ _ _ _ _) as [[r p]|] eqn:El;
      [|discriminate].
    cbn [bind] in H. apply Ok_inj in H. injection H as <- <- <-.
    apply decompilePoints_loop_inv in El; [|lia|constructor].
    destruct El as (H1 & H2 & H3 & H4).
    destruct (to_absolute_ascends r 0 H4) as [Hge Hs].
    repeat split; try assumption; try lia.
    intros n' pos' [= <- <-] _.
    assert (Hlen : forall l c, len (to_absolute c l) = len l).
    { clear. induction l as [|d l IH]; intros c; [reflexivity|].
      cbn [to_absolute]. len_simpl. rewrite IH. reflexivity. }
    rewrite Hlen. assumption.
Qed.

Lemma decompilePoints_returns_witness :
  Forall (fun p => 0 <= p) [5; 205; 205] /\ Sorted Z.le [5; 205; 205] /\
  0 < 5 <= len [x02; x02; x05; xc8; x00] /\
  (forall n pos0,
     decompilePoints_numPointsInData [x02; x02; x05; xc8; x00] 0 = Ok (n, pos0) ->
     n <> 0 -> n <= len [5; 205; 205]).
Proof.
  apply (decompilePoints_returns 10 [x02; x02; x05; xc8; x00] 0 "gvar"
           [5; 205; 205] 5 [PointOutOfRange [205] "gvar"]).
  - lia.
  - reflexivity.
Defined.

(** ** The point round trip inside other data *)

Lemma decode_points_at N tableTag pre prefix enc post n pts :
  string_in tableTag ["cvar"%string; "gvar"%string] = true ->
  decompilePoints_numPointsInData (pre ++ (prefix ++ enc) ++ post) (len pre)
    = Ok (n, len pre + len prefix) ->
  n = len pts -> pts <> [] ->
  Forall (fun p => 0 <= p < N) pts ->
  decodes_points enc (deltas_of 0 pts) ->
  decompilePoints_ N (pre ++ (prefix ++ enc) ++ post) (len pre) tableTag
  = Ok (pts, len pre + len (prefix ++ enc), []).
Proof.
  intros Htag Hcount Hn Hne Hin Hdec.
  unfold decompilePoints_. rewrite Htag. cbn [assert bind].
  rewrite Hcount. cbn [bind].
  pose proof (len_pos_of_nonnil pts Hne).
  destruct (Z.eqb_spec n 0); [lia|].
  specialize (Hdec (S (Z.to_nat n)) n (pre ++ prefix) post []).
  rewrite <- !app_assoc in *. rewrite len_app in Hdec. rewrite Hdec.
  - cbn [bind app]. rewrite to_absolute_deltas_of, no_bad_points by assumption.
    len_simpl. rewrite Z.add_assoc. reflexivity.
  - rewrite deltas_of_length. len_simpl. lia.
  - assert (len (deltas_of 0 pts) = len pts) by apply deltas_of_length.
    unfold len in *. lia.
Qed.

Lemma read_count_at pre n rest :
  (0 <= n < 128 ->
   decompilePoints_numPointsInData (pre ++ [byte_of_Z n] ++ rest) (len pre)
   = Ok (n, len pre + len [byte_of_Z n])) /\
  (128 <= n < 32768 ->
   decompilePoints_numPointsInData
     (pre ++ [byte_of_Z (Z.lor (Z.shiftr n 8) 0x80); byte_of_Z (Z.land n 0xff)]
          ++ rest) (len pre)
   = Ok (n, len pre + len [byte_of_Z (Z.lor (Z.shiftr n 8) 0x80);
                           byte_of_Z (Z.land n 0xff)])).
Proof.
  destruct (count_prefix_bits n) as [Hone Htwo].
  unfold decompilePoints_numPointsInData. split; intros Hn; cbn [app].
  - rewrite py_getitem_app. cbn [bind].
    rewrite byteord_byte_of_Z by lia. rewrite Hone by lia. reflexivity.
  - destruct (Htwo Hn) as (Hhi & Hlo & Hflag & Hval).
    rewrite py_getitem_app. cbn [bind].
    rewrite byteord_byte_of_Z by assumption. rewrite Hflag. cbn [negb].
    rewrite py_getitem_next. cbn [bind].
    rewrite byteord_byte_of_Z by assumption. rewrite Hval.
    len_simpl. rewrite Z.add_assoc. reflexivity.
Qed.

Lemma compilePoints_partial_decodes_at (S : list Z) (N : Z)
    (tableTag : string) :
  S <> [] -> NoDup S ->
  Forall (fun p => 0 <= p < N) S ->
  len S <> N -> len S < 32768 -> N <= 65536 ->
  string_in tableTag ["cvar"%string; "gvar"%string] = true ->
  exists enc,
    compilePoints S N = Ok enc /\
    forall pre post,
      decompilePoints_ N (pre ++ enc ++ post) (len pre) tableTag
      = Ok (sorted S, len pre + len enc, []).
Proof.
  intros Hne Hd Hin Hpart Hsmall HN Htag.
  destruct (compilePoints_shape S N Hne Hd Hin HN Hpart)
    as (chunks & Hc & Hdec).
  eexists. split; [exact Hc|]. intros pre post.
  assert (Hin' : Forall (fun p => 0 <= p < N) (sorted S))
    by (eapply Permutation_Forall; [apply sorted_perm|assumption]).
  assert (Hne' : sorted S <> []).
  { intros E. apply Hne. apply Permutation_nil.
    rewrite <- E. apply Permutation_sym, sorted_perm. }
  pose proof (len_pos_of_nonnil _ Hne) as Hpos.
  destruct (read_count_at pre (len S) (bytesjoin chunks ++ post))
    as [Hshort Hlong].
  destruct (Z.ltb_spec (len S) 128) as [Hlt|Hge].
  - apply (decode_points_at N tableTag pre _ _ post (len S)); auto;
      first [ symmetry; apply sorted_length
            | rewrite <- app_assoc; apply Hshort; lia ].
  - apply (decode_points_at N tableTag pre _ _ post (len S)); auto;
      first [ symmetry; apply sorted_length
            | rewrite <- app_assoc; apply Hlong; lia ].
Qed.

Lemma compilePoints_full_decodes_at (S : list Z) (N : Z) (tableTag : string) :
  NoDup S -> Forall (fun p => 0 <= p < N) S -> len S = N ->
  string_in tableTag ["cvar"%string; "gvar"%string] = true ->
  compilePoints S N = Ok [x00] /\
  forall pre post,
    decompilePoints_ N (pre ++ [x00] ++ post) (len pre) tableTag
    = Ok (sorted S, len pre + len [x00], []).
Proof.
  intros Hd Hin Hall Htag. split.
  - unfold compilePoints. rewrite Hall, Z.eqb_refl. reflexivity.
  - intros pre post.
    rewrite (decompilePoints_zero N _ (len pre) tableTag Htag)
      by apply py_getitem_app.
    rewrite (sorted_full_set S N) by assumption. reflexivity.
Qed.

(** X7. The point-set round trip holds wherever the compiled bytes sit: with
    any bytes before and after them, decoding from where they start returns
    the members of the set in ascending order and the offset where they end,
    and logs nothing. *)
Theorem point_set_roundtrip_in_context (S : list Z) (N : Z)
    (tableTag : string) :
  S <> [] -> NoDup S ->
  Forall (fun p => 0 <= p < N) S ->
  len S = N \/ (len S < 32768 /\ N <= 65536) ->
  string_in tableTag ["cvar"%string; "gvar"%string] = true ->
  exists enc,
    compilePoints S N = Ok enc /\
    forall pre post,
      decompilePoints_ N (pre ++ enc ++ post) (len pre) tableTag
      = Ok (sorted S, len pre + len enc, []).
Proof.
  intros Hne Hd Hin Hsize Htag.
  destruct (Z.eq_dec (len S) N) as [Hall|Hpart].
  - exists [x00]. apply compilePoints_full_decodes_at; assumption.
  - destruct Hsize as [|[Hsmall HN]]; [contradiction|].
    apply compilePoints_partial_decodes_at; assumption.
Qed.

Lemma point_set_roundtrip_in_context_witness :
  exists enc,
    compilePoints [300; 4; 9] 1000 = Ok enc /\
    forall pre post,
      decompilePoints_ 1000 (pre ++ enc ++ post) (len pre) "cvar"
      = Ok (sorted [300; 4; 9], len pre + len enc, []).
Proof.
  apply (point_set_roundtrip_in_context [300; 4; 9] 1000 "cvar").
  - discriminate.
  - repeat (constructor; [cbn; intuition discriminate|]). constructor.
  - repeat constructor; lia.
  - right. split; [reflexivity|discriminate].
  - reflexivity.
Defined.

(** ** The used points of a TupleVariation *)

Lemma py_getitem_nth {A} (l : list A) p a :
  0 <= p -> (py_getitem l p = Ok a <-> nth_error l (Z.to_nat p) = Some a).
Proof.
  intros Hp. unfold py_getitem.
  destruct (Z.ltb_spec p 0); [lia|]. destruct (Z.ltb_spec p 0); [lia|].
  destruct (nth_error l (Z.to_nat p)); split; congruence.
Qed.

Lemma getUsedPoints_from_In : forall coords i p,
  In p (getUsedPoints_from i coords) <->
  i <= p /\ exists c, nth_error coords (Z.to_nat (p - i)) = Some (Some c).
Proof.
  induction coords as [|[c|] rest IH]; intros i p;
    cbn [getUsedPoints_from].
  - split; [intros []|]. intros (_ & c & H).
    destruct (Z.to_nat (p - i)); discriminate.
  - cbn [In]. rewrite IH. split.
    + intros [<-|(Hle & c' & H)].
      * split; [lia|]. exists c. rewrite Z.sub_diag. reflexivity.
      * split; [lia|]. exists c'.
        replace (Z.to_nat (p - i)) with (S (Z.to_nat (p - (i + 1)))) by lia.
        exact H.
    + intros (Hle & c' & H).
      destruct (Z.eq_dec i p) as [|Hne]; [left; assumption|right].
      split; [lia|]. exists c'.
      replace (Z.to_nat (p - i)) with (S (Z.to_nat (p - (i + 1)))) in H by lia.
      exact H.
  - rewrite IH. split.
    + intros (Hle & c' & H). split; [lia|]. exists c'.
      replace (Z.to_nat (p - i)) with (S (Z.to_nat (p - (i + 1)))) by lia.
      exact H.
    + intros (Hle & c' & H).
      destruct (Z.eq_dec i p) as [<-|Hne].
      * rewrite Z.sub_diag in H. discriminate.
      * split; [lia|]. exists c'.
        replace (Z.to_nat (p - i)) with (S (Z.to_nat (p - (i + 1)))) in H
          by lia.
        exact H.
Qed.

Lemma getUsedPoints_from_ascending : forall coords i a,
  a < i -> ascending a (getUsedPoints_from i coords).
Proof.
  induction coords as [|[c|] rest IH]; intros i a Ha;
    cbn [getUsedPoints_from ascending].
  - exact I.
  - split; [assumption|]. apply IH. lia.
  - apply IH. lia.
Qed.

Lemma getUsedPoints_from_length : forall coords i,
  len (getUsedPoints_from i coords) <= len coords.
Proof.
  induction coords as [|[c|] rest IH]; intros i;
    cbn [getUsedPoints_from]; len_simpl; [lia| |];
    specialize (IH (i + 1)); lia.
Qed.

Lemma ascending_lower l : forall a, ascending a l -> Forall (fun p => a < p) l.
Proof.
  induction l as [|x l IH]; intros a H; [constructor|].
  destruct H as [Hax H]. constructor; [assumption|].
  eapply Forall_impl; [|apply IH, H]. cbv beta. intros; lia.
Qed.

Lemma ascending_NoDup l : forall a, ascending a l -> NoDup l.
Proof.
  induction l as [|x l IH]; intros a H; [constructor|].
  destruct H as [_ H]. constructor; [|eapply IH, H].
  intros Hin. apply ascending_lower in H.
  rewrite Forall_forall in H. specialize (H x Hin). lia.
Qed.

Lemma ascending_perm_unique l : forall l' a a',
  Permutation l l' -> ascending a l -> ascending a' l' -> l = l'.
Proof.
  induction l as [|x l IH]; intros l' a a' Hp Ha Ha'.
  - apply Permutation_nil in Hp. congruence.
  - destruct l' as [|y l'].
    { apply Permutation_sym, Permutation_nil in Hp. discriminate. }
    destruct Ha as [_ Ha]. destruct Ha' as [_ Ha'].
    assert (x = y).
    { pose proof (ascending_lower _ _ Ha) as Hl.
      pose proof (ascending_lower _ _ Ha') as Hl'.
      rewrite Forall_forall in Hl, Hl'.
      assert (Hx : In x (y :: l'))
        by (eapply Permutation_in; [exact Hp|left; reflexivity]).
      assert (Hy : In y (x :: l))
        by (eapply Permutation_in; [apply Permutation_sym, Hp|left; reflexivity]).
      destruct Hx as [|Hx]; [congruence|]. destruct Hy as [|Hy]; [congruence|].
      specialize (Hl y Hy). specialize (Hl' x Hx). lia. }
    subst y. f_equal. apply Permutation_cons_inv in Hp.
    eapply IH; eassumption.
Qed.

Lemma sorted_of_ascending l a : ascending a l -> sorted l = l.
Proof.
  intros Ha. pose proof (ascending_NoDup l a Ha) as Hd.
  pose proof (sorted_ascending l Hd) as Hs.
  destruct (sorted l) as [|x r] eqn:E.
  - symmetry. apply Permutation_nil. rewrite <- E.
    apply Permutation_sym, sorted_perm.
  - symmetry. apply (ascending_perm_unique l (x :: r) a (x - 1)).
    + rewrite <- E. apply sorted_perm.
    + assumption.
    + split; [lia|assumption].
Qed.

(** X8. [getUsedPoints] gives exactly the indices, from 0 on, at which a
    coordinate is set, each once and in ascending order, so sorting leaves
    them as they are; there are no more of them than there are
    coordinates. *)
Theorem getUsedPoints_spec (float : Type) (self : TupleVariation float) :
  (forall p,
     In p (getUsedPoints float self) <->
     0 <= p /\ exists c, py_getitem (coordinates self) p = Ok (Some c)) /\
  NoDup (getUsedPoints float self) /\
  sorted (getUsedPoints float self) = getUsedPoints float self /\
  len (getUsedPoints float self) <= len (coordinates self).
Proof.
  unfold getUsedPoints. split; [|split; [|split]].
  - intros p. split.
    + intros H. apply getUsedPoints_from_In in H. destruct H as (Hp & c & H).
      split; [assumption|]. exists c. apply py_getitem_nth; [assumption|].
      rewrite Z.sub_0_r in H. exact H.
    + intros (Hp & c & H). apply getUsedPoints_from_In. split; [assumption|].
      exists c. rewrite Z.sub_0_r. apply py_getitem_nth; assumption.
  - apply (ascending_NoDup _ (-1)). apply getUsedPoints_from_ascending. lia.
  - apply (sorted_of_ascending _ (-1)). apply getUsedPoints_from_ascending. lia.
  - apply getUsedPoints_from_length.
Qed.

(** X9. [hasImpact] is true exactly when some coordinate is set, whatever
    its value, that is, exactly when [getUsedPoints] is not empty. *)
Theorem hasImpact_spec (float : Type) (self : TupleVariation float) :
  (hasImpact self = true <-> exists c, In (Some c) (coordinates self)) /\
  (hasImpact self = true <-> getUsedPoints float self <> []).
Proof.
  unfold hasImpact, getUsedPoints. generalize 0 as i.
  induction (coordinates self) as [|[c|] rest IH]; intros i;
    cbn [hasImpact_coordinates getUsedPoints_from In].
  - split; split; try discriminate; try congruence. intros [c []].
  - split; split; intros; try reflexivity; try discriminate. eauto.
  - destruct (IH (i + 1)) as [H1 H2]. split; [|exact H2].
    rewrite H1. split.
    + intros [c H]. eauto.
    + intros [c [H|H]]; [discriminate|eauto].
Qed.

(** ** [compileDeltas] *)

Lemma py_getitem_in_bounds {A} (l : list A) p :
  0 <= p < len l -> exists a, py_getitem l p = Ok a.
Proof.
  intros Hp. unfold py_getitem.
  destruct (Z.ltb_spec p 0); [lia|]. destruct (Z.ltb_spec p 0); [lia|].
  destruct (nth_error l (Z.to_nat p)) eqn:E; [eauto|].
  apply nth_error_None in E. unfold len in Hp. lia.
Qed.

Lemma compileDeltas_collect_cvt float (self : TupleVariation float) :
  forall points,
    Forall (fun p => 0 <= p < len (coordinates self)) points ->
    Exists (fun p => exists v,
              py_getitem (coordinates self) p = Ok (Some (CVT v))) points ->
    compileDeltas_collect float self points = Raise TypeError.
Proof.
  induction points as [|p rest IH]; intros Hvalid Hcvt.
  - inversion Hcvt.
  - inversion Hvalid as [|? ? Hp Hrest]; subst.
    cbn [compileDeltas_collect].
    destruct (py_getitem_in_bounds _ p Hp) as [c Hc]. rewrite Hc. cbn [bind].
    destruct c as [[x y|v]|].
    + cbn [delta_getitem Z.eqb orb bind].
      rewrite IH; [reflexivity|assumption|].
      inversion Hcvt as [? ? (v & Hv)|]; subst; [congruence|assumption].
    + reflexivity.
    + apply IH; [assumption|].
      inversion Hcvt as [? ? (v & Hv)|]; subst; [congruence|assumption].
Qed.

(** X10. [compileDeltas] reads every set coordinate as a pair: when the
    points are valid indices and the coordinate at one of them is a single
    integer, as in a 'cvar' table, the call raises [TypeError]. *)
Theorem compileDeltas_rejects_integers (float : Type)
    (self : TupleVariation float) (points : list Z) (p v : Z) :
  Forall (fun p => 0 <= p < len (coordinates self)) points ->
  In p points ->
  py_getitem (coordinates self) p = Ok (Some (CVT v)) ->
  compileDeltas float self points = Raise TypeError.
Proof.
  intros Hvalid Hin Hp. unfold compileDeltas.
  rewrite compileDeltas_collect_cvt; [reflexivity| |].
  - eapply Permutation_Forall; [apply sorted_perm|assumption].
  - apply Exists_exists. exists p. split; [|eauto].
    eapply Permutation_in; [apply sorted_perm|assumption].
Qed.

Lemma compileDeltas_rejects_integers_witness :
  compileDeltas unit {| axes := []; coordinates := [Some (CVT 3); None] |} [0; 1]
  = Raise TypeError.
Proof.
  apply (compileDeltas_rejects_integers unit
           {| axes := []; coordinates := [Some (CVT 3); None] |} [0; 1] 0 3).
  - repeat constructor; cbn; lia.
  - left. reflexivity.
  - reflexivity.
Defined.

Lemma compileDeltas_collect_entries float (self : TupleVariation float) :
  forall points xs ys,
    compileDeltas_collect float self points = Ok (xs, ys) ->
    flat_map (fun p => match py_getitem (coordinates self) p with
                       | Ok (Some c) => [c]
                       | _ => []
                       end) points
    = map (fun '(x, y) => XY x y) (combine xs ys) /\
    len xs = len ys.
Proof.
  induction points as [|p rest IH]; intros xs ys H;
    cbn [compileDeltas_collect] in H.
  - apply Ok_inj in H. injection H as <- <-. split; reflexivity.
  - cbn [flat_map].
    destruct (py_getitem (coordinates self) p) as [[[x y|v]|]|];
      try discriminate; cbn [bind delta_getitem Z.eqb orb] in H.
    + destruct (compileDeltas_collect float self rest) as [[xs' ys']|];
        [|discriminate].
      cbn [bind] in H. apply Ok_inj in H. injection H as <- <-.
      destruct (IH xs' ys' eq_refl) as [He Hl].
      cbn [combine map app]. len_simpl. split; [congruence|lia].
    + apply IH in H. exact H.
Qed.

Lemma two_streams_decode (X Y : list Z) (ex ey : bytes) :
  compileDeltaValues_ X = Ok ex -> compileDeltaValues_ Y = Ok ey ->
  forall pre post,
    decompileDeltas_ (len X) (pre ++ (ex ++ ey) ++ post) (len pre)
    = Ok (X, len pre + len ex) /\
    decompileDeltas_ (len Y) (pre ++ (ex ++ ey) ++ post) (len pre + len ex)
    = Ok (Y, len pre + len (ex ++ ey)).
Proof.
  intros Hx Hy pre post.
  destruct (compileDeltaValues_full X) as [(_ & ex' & Hcx & Hdx & _)|(_ & Hcx)];
    rewrite Hx in Hcx; [|discriminate]. apply Ok_inj in Hcx. subst ex'.
  destruct (compileDeltaValues_full Y) as [(_ & ey' & Hcy & Hdy & _)|(_ & Hcy)];
    rewrite Hy in Hcy; [|discriminate]. apply Ok_inj in Hcy. subst ey'.
  split.
  - rewrite <- app_assoc. apply decodes_deltas_call, Hdx.
  - rewrite <- app_assoc, app_assoc, <- len_app.
    rewrite (decodes_deltas_call ey Y (pre ++ ex) post Hdy).
    len_simpl. rewrite Z.add_assoc. reflexivity.
Qed.

(** X11. Whenever [compileDeltas] returns, its bytes are the x deltas
    followed by the y deltas of the set coordinates at the given points,
    taken in ascending order of the points (unset coordinates are left
    out), and two calls of [decompileDeltas_] read both lists back, the
    second from the offset the first returns, wherever the bytes sit. *)
Theorem compileDeltas_roundtrip (float : Type) (self : TupleVariation float)
    (points : list Z) (enc : bytes) :
  compileDeltas float self points = Ok enc ->
  exists xs ys,
    flat_map (fun p => match py_getitem (coordinates self) p with
                       | Ok (Some c) => [c]
                       | _ => []
                       end) (sorted points)
    = map (fun '(x, y) => XY x y) (combine xs ys) /\
    len xs = len ys /\
    forall pre post,
      exists mid,
        decompileDeltas_ (len xs) (pre ++ enc ++ post) (len pre) = Ok (xs, mid)
        /\ decompileDeltas_ (len ys) (pre ++ enc ++ post) mid
           = Ok (ys, len pre + len enc).
Proof.
  intros H. unfold compileDeltas in H.
  destruct (compileDeltas_collect float self (sorted points))
    as [[xs ys]|] eqn:Ec; [|discriminate].
  cbn [bind] in H.
  destruct (compileDeltaValues_ xs) as [ex|] eqn:Ex; [|discriminate].
  cbn [bind] in H.
  destruct (compileDeltaValues_ ys) as [ey|] eqn:Ey; [|discriminate].
  cbn [bind] in H. apply Ok_inj in H. subst enc.
  destruct (compileDeltas_collect_entries float self _ xs ys Ec) as [He Hl].
  exists xs, ys. split; [exact He|]. split; [exact Hl|].
  intros pre post. exists (len pre + len ex).
  apply two_streams_decode; assumption.
Qed.

Lemma compileDeltas_roundtrip_witness :
  exists xs ys,
    flat_map (fun p => match py_getitem [Some (XY 1 (-2)); None; Some (XY 300 0)] p with
                       | Ok (Some c) => [c]
                       | _ => []
                       end) (sorted [2; 1; 0])
    = map (fun '(x, y) => XY x y) (combine xs ys) /\
    len xs = len ys /\
    forall pre post,
      exists mid,
        decompileDeltas_ (len xs)
          (pre ++ [x00; x01; x40; x01; x2c; x01; xfe; x00] ++ post) (len pre)
        = Ok (xs, mid)
        /\ decompileDeltas_ (len ys)
             (pre ++ [x00; x01; x40; x01; x2c; x01; xfe; x00] ++ post) mid
           = Ok (ys, len pre + len [x00; x01; x40; x01; x2c; x01; xfe; x00]).
Proof.
  apply (compileDeltas_roundtrip unit
           {| axes := []; coordinates := [Some (XY 1 (-2)); None; Some (XY 300 0)] |}
           [2; 1; 0]).
  reflexivity.
Defined.

(** ** [compile] and the decoders *)

Section CompileMore.

Variable float : Type.
Variable zero : float.
Variable flt : float -> float -> bool.
Variable feq : float -> float -> bool.
Variable floatToFixed : float -> Z -> Z.

Local Abbreviation compile' := (compile float zero flt feq floatToFixed).
Local Abbreviation compileCoord' := (compileCoord float zero floatToFixed).
Local Abbreviation compileIntermediateCoord' :=
  (compileIntermediateCoord float zero flt feq floatToFixed).

(** The pieces of a call of [compile] that returns. *)
Lemma compile_parts (self : TupleVariation float) (axisTags : list string)
    (sharedCoordIndices : list (bytes * Z)) (sharedPoints : option (list Z))
    (header auxData : bytes) :
  compile' self axisTags sharedCoordIndices sharedPoints
    = Ok (header, auxData) ->
  exists coord intermediateCoord packed,
    compileCoord' self axisTags = Ok coord /\
    compileIntermediateCoord' self axisTags = Ok intermediateCoord /\
    pack_HH (len auxData)
      (Z.lor
         (Z.lor
            match dict_get bytes_eqb sharedCoordIndices coord with
            | Some index => index
            | None => EMBEDDED_PEAK_TUPLE
            end
            match intermediateCoord with
            | Some _ => INTERMEDIATE_REGION
            | None => 0
            end)
         match sharedPoints with
         | Some _ => 0
         | None => PRIVATE_POINT_NUMBERS
         end) = Ok packed /\
    header
    = packed
      ++ match dict_get bytes_eqb sharedCoordIndices coord with
         | Some _ => []
         | None => coord
         end
      ++ match intermediateCoord with
         | Some ic => ic
         | None => []
         end /\
    match sharedPoints with
    | Some points => compileDeltas float self points = Ok auxData
    | None =>
        exists ps ds,
          compilePoints (getUsedPoints float self) (len (coordinates self))
            = Ok ps /\
          compileDeltas float self (getUsedPoints float self) = Ok ds /\
          auxData = ps ++ ds
    end.
Proof.
  intros Hc. unfold compile in Hc.
  destruct (assert _) as [[]|]; [|discriminate]. cbn [bind] in Hc.
  destruct (compileCoord' self axisTags) as [coord|]; [|discriminate].
  cbn [bind] in Hc.
  destruct (compileIntermediateCoord' self axisTags) as [ic|];
    [|destruct (dict_get _ _ _); discriminate].
  exists coord, ic.
  destruct ic as [icb|], sharedPoints as [points|];
    (destruct (dict_get bytes_eqb sharedCoordIndices coord) as [index|]);
    cbn [bind] in Hc;
    repeat match type of Hc with
           | context [bind ?m _] =>
               lazymatch m with
               | context [bind _ _] => fail
               | _ => idtac
               end;
               destruct m eqn:?; [|discriminate]; cbn [bind] in Hc
           end;
    apply Ok_inj in Hc; injection Hc as <- <-;
    rewrite ?Z.lor_0_r;
    eexists; (split; [reflexivity|]); (split; [reflexivity|]);
    (split; [eassumption|]);
    (split; [cbn [bytesjoin concat app]; rewrite ?app_nil_r; reflexivity|]);
    first [reflexivity | eexists _, _; repeat split; reflexivity].
Qed.

Lemma hasImpact_used (coords : list (option delta)) : forall i,
  hasImpact_coordinates coords = true <-> getUsedPoints_from i coords <> [].
Proof.
  induction coords as [|[c|] rest IH]; intros i;
    cbn [hasImpact_coordinates getUsedPoints_from].
  - split; [discriminate|congruence].
  - split; [discriminate|reflexivity].
  - apply IH.
Qed.

Lemma used_points_facts (self : TupleVariation float) :
  NoDup (getUsedPoints float self) /\
  Forall (fun p => 0 <= p < len (coordinates self)) (getUsedPoints float self) /\
  sorted (getUsedPoints float self) = getUsedPoints float self /\
  Forall (fun p => exists c, py_getitem (coordinates self) p = Ok (Some c))
    (getUsedPoints float self).
Proof.
  unfold getUsedPoints.
  pose proof (getUsedPoints_from_ascending (coordinates self) 0 (-1)
                ltac:(lia)) as Ha.
  split; [eapply ascending_NoDup, Ha|].
  split; [|split; [eapply sorted_of_ascending, Ha|]].
  - apply Forall_forall. intros p Hp. apply getUsedPoints_from_In in Hp.
    destruct Hp as (Hp & c & Hc). rewrite Z.sub_0_r in Hc.
    assert (Hn : nth_error (coordinates self) (Z.to_nat p) <> None)
      by congruence.
    apply nth_error_Some in Hn. unfold len. lia.
  - apply Forall_forall. intros p Hp. apply getUsedPoints_from_In in Hp.
    destruct Hp as (Hp & c & Hc). rewrite Z.sub_0_r in Hc.
    exists c. apply py_getitem_nth; assumption.
Qed.

Lemma all_set_entries (coords : list (option delta)) : forall points,
  Forall (fun p => exists c, py_getitem coords p = Ok (Some c)) points ->
  map (py_getitem coords) points
  = map (fun c => Ok (Some c))
      (flat_map (fun p => match py_getitem coords p with
                          | Ok (Some c) => [c]
                          | _ => []
                          end) points).
Proof.
  induction 1 as [|p rest (c & Hc) _ IH]; [reflexivity|].
  cbn [map flat_map]. rewrite Hc. cbn [app map]. congruence.
Qed.

(** X12. The auxiliary data that [compile] writes with private point numbers
    can be read back. If some coordinate is set, there are at most 65536
    coordinates, and the set ones are all of them or fewer than 32768, then
    [decompilePoints_] returns the used points, and from the offset it
    returns two calls of [decompileDeltas_], one after the other, return the
    x and the y deltas of the coordinates at those points and end at the end
    of the data. *)
Theorem compile_private_roundtrip (self : TupleVariation float)
    (axisTags : list string) (sharedCoordIndices : list (bytes * Z))
    (header auxData : bytes) (tableTag : string) :
  compile' self axisTags sharedCoordIndices None = Ok (header, auxData) ->
  hasImpact self = true ->
  len (coordinates self) <= 65536 ->
  len (getUsedPoints float self) = len (coordinates self)
  \/ len (getUsedPoints float self) < 32768 ->
  string_in tableTag ["cvar"%string; "gvar"%string] = true ->
  exists xs ys p1 p2,
    decompilePoints_ (len (coordinates self)) auxData 0 tableTag
      = Ok (getUsedPoints float self, p1, []) /\
    decompileDeltas_ (len (getUsedPoints float self)) auxData p1
      = Ok (xs, p2) /\
    decompileDeltas_ (len (getUsedPoints float self)) auxData p2
      = Ok (ys, len auxData) /\
    map (py_getitem (coordinates self)) (getUsedPoints float self)
    = map (fun '(x, y) => Ok (Some (XY x y))) (combine xs ys).
Proof.
  intros Hc Himpact Hmax Hsize Htag.
  apply compile_parts in Hc.
  destruct Hc as (_ & _ & _ & _ & _ & _ & _ & ps & ds & Hps & Hds & ->).
  destruct (used_points_facts self) as (Hd & Hin & Hsorted & Hset).
  set (used := getUsedPoints float self) in *.
  assert (Hne : used <> []).
  { apply (hasImpact_used (coordinates self) 0). exact Himpact. }
  assert (Hpoints : forall post,
    decompilePoints_ (len (coordinates self)) (ps ++ post) 0 tableTag
    = Ok (used, len ps, [])).
  { intros post. rewrite <- Hsorted.
    destruct (Z.eq_dec (len used) (len (coordinates self))) as [Hall|Hpart].
    - destruct (compilePoints_full_decodes_at used _ tableTag Hd Hin Hall Htag)
        as [Hps' Hdec].
      rewrite Hps in Hps'. apply Ok_inj in Hps'. subst ps.
      exact (Hdec [] post).
    - destruct Hsize as [|Hsmall]; [contradiction|].
      destruct (compilePoints_partial_decodes_at used _ tableTag Hne Hd Hin
                  Hpart Hsmall Hmax Htag) as (enc & Hps' & Hdec).
      rewrite Hps in Hps'. apply Ok_inj in Hps'. subst enc.
      exact (Hdec [] post). }
  unfold compileDeltas in Hds. rewrite Hsorted in Hds.
  destruct (compileDeltas_collect float self used) as [[xs ys]|] eqn:Ec;
    [|discriminate].
  cbn [bind] in Hds.
  destruct (compileDeltaValues_ xs) as [ex|] eqn:Ex; [|discriminate].
  cbn [bind] in Hds.
  destruct (compileDeltaValues_ ys) as [ey|] eqn:Ey; [|discriminate].
  cbn [bind] in Hds. apply Ok_inj in Hds. subst ds.
  destruct (compileDeltas_collect_entries float self _ xs ys Ec) as [He Hl].
  pose proof (all_set_entries (coordinates self) used Hset) as Hmap.
  rewrite He, map_map in Hmap.
  assert (Hcount : len used = len xs).
  { apply (f_equal len) in Hmap. rewrite !len_map in Hmap.
    rewrite Hmap. unfold len in *. rewrite length_combine. lia. }
  destruct (two_streams_decode xs ys ex ey Ex Ey ps []) as [Hx Hy].
  rewrite app_nil_r in Hx, Hy.
  exists xs, ys, (len ps), (len ps + len ex).
  split; [apply Hpoints|].
  split; [rewrite Hcount; exact Hx|].
  split; [rewrite Hcount, Hl, len_app; exact Hy|].
  rewrite Hmap. apply map_ext. intros [x y]. reflexivity.
Qed.

(** X13. When no coordinate is set, [compile] with private point numbers
    still returns, with the single byte 0x00 as auxiliary data. That byte
    reads back as all the points, and reading the deltas of even one point
    after it raises [IndexError]. *)
Theorem compile_without_impact (self : TupleVariation float)
    (axisTags : list string) (sharedCoordIndices : list (bytes * Z))
    (header auxData : bytes) (tableTag : string) :
  compile' self axisTags sharedCoordIndices None = Ok (header, auxData) ->
  hasImpact self = false ->
  string_in tableTag ["cvar"%string; "gvar"%string] = true ->
  auxData = [x00] /\
  decompilePoints_ (len (coordinates self)) auxData 0 tableTag
    = Ok (range (len (coordinates self)), 1, []) /\
  (0 < len (coordinates self) ->
   decompileDeltas_ (len (coordinates self)) auxData 1 = Raise IndexError).
Proof.
  intros Hc Himpact Htag.
  apply compile_parts in Hc.
  destruct Hc as (_ & _ & _ & _ & _ & _ & _ & ps & ds & Hps & Hds & ->).
  assert (Hused : getUsedPoints float self = []).
  { unfold hasImpact in Himpact.
    destruct (getUsedPoints float self) as [|p rest] eqn:E; [reflexivity|].
    assert (H : hasImpact_coordinates (coordinates self) = true).
    { apply (hasImpact_used (coordinates self) 0).
      unfold getUsedPoints in E. rewrite E. discriminate. }
    congruence. }
  rewrite Hused in Hps, Hds.
  rewrite compilePoints_nil in Hps. apply Ok_inj in Hps. subst ps.
  change (compileDeltas float self []) with (Ok (@nil byte)) in Hds.
  apply Ok_inj in Hds. subst ds.
  split; [reflexivity|]. split.
  - apply (decompilePoints_zero _ [x00] 0); [assumption|reflexivity].
  - intros Hn. unfold decompileDeltas_.
    set (n := len (coordinates self)) in *.
    replace (Z.to_nat n) with (S (Z.to_nat (n - 1))) by lia.
    cbn [decompileDeltas_loop app]. change (len []) with 0.
    destruct (Z.ltb_spec 0 n); [|lia]. reflexivity.
Qed.

Lemma pack_h_length v c : pack_h v = Ok c -> len c = 2.
Proof.
  unfold pack_h. destruct (_ && _); [|discriminate].
  intros H. apply Ok_inj in H. subst c. reflexivity.
Qed.

Lemma compileCoord_axes_length (self : TupleVariation float) :
  forall axisTags result,
    compileCoord_axes float zero floatToFixed self axisTags = Ok result ->
    len (bytesjoin result) = 2 * len axisTags.
Proof.
  induction axisTags as [|axis rest IH]; intros result H;
    cbn [compileCoord_axes] in H.
  - apply Ok_inj in H. subst result. reflexivity.
  - destruct (axes_get float zero self axis) as [[lo v] hi].
    destruct (pack_h _) as [c|] eqn:Ec; [|discriminate]. cbn [bind] in H.
    destruct (compileCoord_axes _ _ _ _ rest) as [r|]; [|discriminate].
    cbn [bind] in H. apply Ok_inj in H. subst result.
    unfold bytesjoin in *. cbn [concat]. len_simpl.
    rewrite (IH r eq_refl), (pack_h_length _ _ Ec). lia.
Qed.

Lemma compileCoord_length (self : TupleVariation float) axisTags coord :
  compileCoord' self axisTags = Ok coord -> len coord = 2 * len axisTags.
Proof.
  unfold compileCoord. intros H.
  destruct (compileCoord_axes _ _ _ _ _) as [r|] eqn:E; [|discriminate].
  cbn [bind] in H. apply Ok_inj in H. subst coord.
  eapply compileCoord_axes_length, E.
Qed.

Lemma compileIntermediateCoord_axes_length (self : TupleVariation float) :
  forall axisTags minCoords maxCoords,
    compileIntermediateCoord_axes float zero floatToFixed self axisTags
      = Ok (minCoords, maxCoords) ->
    len (bytesjoin minCoords) = 2 * len axisTags /\
    len (bytesjoin maxCoords) = 2 * len axisTags.
Proof.
  induction axisTags as [|axis rest IH]; intros minCoords maxCoords H;
    cbn [compileIntermediateCoord_axes] in H.
  - apply Ok_inj in H. injection H as <- <-. split; reflexivity.
  - destruct (axes_get float zero self axis) as [[lo v] hi].
    destruct (pack_h (floatToFixed lo 14)) as [c1|] eqn:E1; [|discriminate].
    cbn [bind] in H.
    destruct (pack_h (floatToFixed hi 14)) as [c2|] eqn:E2; [|discriminate].
    cbn [bind] in H.
    destruct (compileIntermediateCoord_axes _ _ _ _ rest) as [[r1 r2]|];
      [|discriminate].
    cbn [bind] in H. apply Ok_inj in H. injection H as <- <-.
    destruct (IH r1 r2 eq_refl) as [H1 H2].
    unfold bytesjoin in *. cbn [concat]. len_simpl.
    rewrite H1, H2, (pack_h_length _ _ E1), (pack_h_length _ _ E2). lia.
Qed.

Lemma compileIntermediateCoord_length (self : TupleVariation float)
    axisTags ic :
  compileIntermediateCoord' self axisTags = Ok (Some ic) ->
  len ic = 4 * len axisTags.
Proof.
  unfold compileIntermediateCoord. intros H.
  destruct (negb _); [discriminate|].
  destruct (compileIntermediateCoord_axes _ _ _ _ _) as [[r1 r2]|] eqn:E;
    [|discriminate].
  cbn [bind] in H. apply Ok_inj in H. injection H as <-.
  destruct (compileIntermediateCoord_axes_length self _ _ _ E) as [H1 H2].
  unfold bytesjoin in *. rewrite concat_app. len_simpl. lia.
Qed.

Lemma dict_get_In {K V} (eqb : K -> K -> bool) (d : list (K * V)) k v :
  dict_get eqb d k = Some v -> exists k', In (k', v) d.
Proof.
  induction d as [|[k' v'] d IH]; cbn [dict_get]; [discriminate|].
  destruct (eqb k k').
  - intros [= ->]. exists k'. left. reflexivity.
  - intros H. destruct (IH H) as [k'' Hin]. exists k''. right. assumption.
Qed.

Lemma header_flag_tests (base : Z) (intermediate private : bool) :
  0 <= base < 0x1000 \/ base = EMBEDDED_PEAK_TUPLE ->
  let flags :=
    Z.lor (Z.lor base (if intermediate then INTERMEDIATE_REGION else 0))
          (if private then PRIVATE_POINT_NUMBERS else 0) in
  (Z.land flags EMBEDDED_PEAK_TUPLE =? 0) = negb (base =? EMBEDDED_PEAK_TUPLE)
  /\ (Z.land flags INTERMEDIATE_REGION =? 0) = negb intermediate.
Proof.
  intros Hbase.
  pose (P := fun base =>
    forallb (fun '(i, p) =>
      let flags :=
        Z.lor (Z.lor base (if i : bool then INTERMEDIATE_REGION else 0))
              (if p : bool then PRIVATE_POINT_NUMBERS else 0) in
      Bool.eqb (Z.land flags EMBEDDED_PEAK_TUPLE =? 0)
               (negb (base =? EMBEDDED_PEAK_TUPLE))
      && Bool.eqb (Z.land flags INTERMEDIATE_REGION =? 0) (negb i))
      [(false, false); (false, true); (true, false); (true, true)]).
  assert (H : P base = true).
  { destruct Hbase as [Hidx| ->].
    - apply (check_range P 0 0x1000); [vm_compute; reflexivity | lia].
    - vm_compute. reflexivity. }
  unfold P in H. rewrite forallb_forall in H.
  specialize (H (intermediate, private)). cbv beta iota zeta in H.
  assert (Hin : In (intermediate, private)
                  [(false, false); (false, true); (true, false); (true, true)])
    by (destruct intermediate, private; cbn; tauto).
  specialize (H Hin). apply andb_prop in H. destruct H as [H1 H2].
  cbv zeta. split; apply Bool.eqb_prop; assumption.
Qed.

(** X14. The header that [compile] returns is as long as [getTupleSize_]
    says for the flags written in it and the number of axis tags, provided
    every index of [sharedCoordIndices] is below 0x1000, so that it stays
    clear of the flag bits. *)
Theorem header_size_law (self : TupleVariation float)
    (axisTags : list string) (sharedCoordIndices : list (bytes * Z))
    (sharedPoints : option (list Z)) (header auxData : bytes) :
  Forall (fun item => 0 <= snd item < 0x1000) sharedCoordIndices ->
  compile' self axisTags sharedCoordIndices sharedPoints
    = Ok (header, auxData) ->
  exists b0 b1 b2 b3 rest,
    header = b0 :: b1 :: b2 :: b3 :: rest /\
    len header
    = getTupleSize_ (byteord b2 * 256 + byteord b3) (len axisTags).
Proof.
  intros Hidx Hc. apply compile_parts in Hc.
  destruct Hc as (coord & ic & packed & Hcoord & Hic & Hpack & -> & _).
  apply compileCoord_length in Hcoord.
  unfold pack_HH in Hpack.
  destruct (pack_H (len auxData)) as [h1|] eqn:E1; [|discriminate].
  cbn [bind] in Hpack.
  destruct (pack_H _) as [h2|] eqn:E2 in Hpack; [|discriminate].
  cbn [bind] in Hpack. apply Ok_inj in Hpack. subst packed.
  apply pack_H_value in E1. destruct E1 as (_ & b0 & b1 & -> & _).
  apply pack_H_value in E2. destruct E2 as (_ & b2 & b3 & -> & Hv).
  exists b0, b1, b2, b3. eexists. split; [reflexivity|].
  rewrite Hv. unfold getTupleSize_.
  assert (Hbase :
    0 <= match dict_get bytes_eqb sharedCoordIndices coord with
         | Some index => index
         | None => EMBEDDED_PEAK_TUPLE
         end < 0x1000
    \/ match dict_get bytes_eqb sharedCoordIndices coord with
       | Some index => index
       | None => EMBEDDED_PEAK_TUPLE
       end = EMBEDDED_PEAK_TUPLE).
  { destruct (dict_get bytes_eqb sharedCoordIndices coord) as [index|] eqn:Eg;
      [left|right; reflexivity].
    apply dict_get_In in Eg. destruct Eg as [k Hin].
    rewrite Forall_forall in Hidx. exact (Hidx _ Hin). }
  destruct (header_flag_tests _
              match ic with Some _ => true | None => false end
              match sharedPoints with Some _ => false | None => true end
              Hbase) as [H15 H14].
  cbv zeta in H15, H14.
  assert (Hflags :
    Z.lor
      (Z.lor
         match dict_get bytes_eqb sharedCoordIndices coord with
         | Some index => index
         | None => EMBEDDED_PEAK_TUPLE
         end
         match ic with Some _ => INTERMEDIATE_REGION | None => 0 end)
      match sharedPoints with Some _ => 0 | None => PRIVATE_POINT_NUMBERS end
    = Z.lor
        (Z.lor
           match dict_get bytes_eqb sharedCoordIndices coord with
           | Some index => index
           | None => EMBEDDED_PEAK_TUPLE
           end
           (if match ic with Some _ => true | None => false end
            then INTERMEDIATE_REGION else 0))
        (if match sharedPoints with Some _ => false | None => true end
         then PRIVATE_POINT_NUMBERS else 0))
    by (destruct ic, sharedPoints; reflexivity).
  rewrite Hflags, H15, H14. clear Hflags H15 H14.
  destruct (dict_get bytes_eqb sharedCoordIndices coord) as [index|] eqn:Eg.
  - destruct Hbase as [Hb|Hb]; [|unfold EMBEDDED_PEAK_TUPLE in Hb].
    + destruct (Z.eqb_spec index EMBEDDED_PEAK_TUPLE) as [He|_];
        [unfold EMBEDDED_PEAK_TUPLE in He; lia|].
      destruct ic as [icb|]; cbn [negb]; len_simpl.
      * rewrite (compileIntermediateCoord_length self axisTags icb Hic). lia.
      * lia.
    + apply dict_get_In in Eg. destruct Eg as [k Hin].
      rewrite Forall_forall in Hidx. specialize (Hidx _ Hin). cbn in Hidx. lia.
  - rewrite Z.eqb_refl.
    destruct ic as [icb|]; cbn [negb]; len_simpl.
    + rewrite (compileIntermediateCoord_length self axisTags icb Hic). lia.
    + lia.
Qed.

End CompileMore.

Lemma compile_private_roundtrip_witness :
  exists xs ys p1 p2,
    decompilePoints_ 3
      [x02; x01; x00; x02; x01; x01; x03; x00; x02; x40; xfe; xd4] 0 "gvar"
      = Ok ([0; 2], p1, []) /\
    decompileDeltas_ 2
      [x02; x01; x00; x02; x01; x01; x03; x00; x02; x40; xfe; xd4] p1
      = Ok (xs, p2) /\
    decompileDeltas_ 2
      [x02; x01; x00; x02; x01; x01; x03; x00; x02; x40; xfe; xd4] p2
      = Ok (ys, 12) /\
    [Ok (Some (XY 1 2)); Ok (Some (XY 3 (-300)))]
    = map (fun '(x, y) => Ok (Some (XY x y))) (combine xs ys).
Proof.
  exact (compile_private_roundtrip Z 0 Z.ltb Z.eqb (fun v _ => v)
           {| axes := [("wght"%string, (0, 16384, 16384))];
              coordinates := [Some (XY 1 2); None; Some (XY 3 (-300))] |}
           ["wght"%string; "wdth"%string] []
           [x00; x0c; xa0; x00; x40; x00; x00; x00]
           [x02; x01; x00; x02; x01; x01; x03; x00; x02; x40; xfe; xd4]
           "gvar" eq_refl eq_refl ltac:(vm_compute; discriminate)
           (or_intror eq_refl) eq_refl).
Defined.

Lemma compile_without_impact_witness :
  [x00] = [x00] /\
  decompilePoints_ 2 [x00] 0 "gvar" = Ok (range 2, 1, []) /\
  (0 < 2 -> decompileDeltas_ 2 [x00] 1 = Raise IndexError).
Proof.
  exact (compile_without_impact Z 0 Z.ltb Z.eqb (fun v _ => v)
           {| axes := []; coordinates := [None; None] |}
           [] [] [x00; x01; xa0; x00] [x00] "gvar" eq_refl eq_refl eq_refl).
Defined.

Lemma header_size_law_witness :
  exists b0 b1 b2 b3 rest,
    [x00; x0c; xa0; x00; x40; x00; x00; x00] = b0 :: b1 :: b2 :: b3 :: rest /\
    len [x00; x0c; xa0; x00; x40; x00; x00; x00]
    = getTupleSize_ (byteord b2 * 256 + byteord b3)
        (len ["wght"%string; "wdth"%string]).
Proof.
  apply (header_size_law Z 0 Z.ltb Z.eqb (fun v _ => v)
           {| axes := [("wght"%string, (0, 16384, 16384))];
              coordinates := [Some (XY 1 2); None; Some (XY 3 (-300))] |}
           ["wght"%string; "wdth"%string] [] None
           [x00; x0c; xa0; x00; x40; x00; x00; x00]
           [x02; x01; x00; x02; x01; x01; x03; x00; x02; x40; xfe; xd4]).
  - constructor.
  - reflexivity.
Defined.

(** ** Coordinates, written and read *)

Lemma dict_get_set {V} (d : list (string * V)) k v k' :
  dict_get String.eqb (dict_set String.eqb d k v) k'
  = if String.eqb k' k then Some v else dict_get String.eqb d k'.
Proof.
  induction d as [|[k0 v0] d IH]; cbn [dict_set dict_get]; [reflexivity|].
  destruct (String.eqb_spec k k0) as [->|Hk]; cbn [dict_get].
  - destruct (String.eqb k' k0); reflexivity.
  - rewrite IH.
    destruct (String.eqb_spec k' k0) as [->|]; [|reflexivity].
    destruct (String.eqb_spec k0 k); [congruence|reflexivity].
Qed.

Lemma unpack_pack_h v c : pack_h v = Ok c -> unpack_h c = Ok v.
Proof.
  unfold pack_h.
  destruct (Z.leb_spec (-32768) v), (Z.leb_spec v 32767); try discriminate.
  cbn [andb]. intros Hc. apply Ok_inj in Hc. subst c. cbn [unpack_h].
  rewrite signed16_pack by (unfold int16; lia). reflexivity.
Qed.

Lemma unpack_h_length s :
  (len s = 2 -> exists v, unpack_h s = Ok v) /\
  (len s <> 2 -> unpack_h s = Raise StructError).
Proof.
  destruct s as [|a [|b [|c s]]]; len_simpl; split; intros H;
    try reflexivity; try (cbn in H; lia); cbn [unpack_h]; eauto;
    pose proof (len_nonneg s); lia.
Qed.

Section CoordFacts.

Variable float : Type.
Variable zero : float.
Variable flt : float -> float -> bool.
Variable feq : float -> float -> bool.
Variable floatToFixed : float -> Z -> Z.
Variable fixedToFloat : Z -> Z -> float.

Local Abbreviation decompileCoord_axes' :=
  (decompileCoord_axes float fixedToFloat).

(** Reading back chunks that hold [g axis] for every axis, in order. *)
Lemma decompileCoord_axes_chunks (g : string -> Z) :
  forall axisTags chunks,
    Forall2 (fun axis c => pack_h (g axis) = Ok c) axisTags chunks ->
    forall coord pre post,
      decompileCoord_axes' axisTags (pre ++ bytesjoin chunks ++ post) coord
        (len pre)
      = Ok (fold_left
              (fun d axis => dict_set String.eqb d axis (fixedToFloat (g axis) 14))
              axisTags coord,
            len pre + len (bytesjoin chunks)).
Proof.
  induction 1 as [|axis c axisTags chunks Hc _ IH]; intros coord pre post.
  - cbn [decompileCoord_axes fold_left bytesjoin concat]. len_simpl.
    rewrite Z.add_0_r. reflexivity.
  - cbn [decompileCoord_axes fold_left]. unfold bytesjoin in *.
    cbn [concat]. rewrite <- app_assoc.
    rewrite py_slice_app
      by (rewrite ?(pack_h_length _ _ Hc); reflexivity).
    rewrite (unpack_pack_h _ _ Hc). cbn [bind].
    specialize (IH (dict_set String.eqb coord axis (fixedToFloat (g axis) 14))
                  (pre ++ c) post).
    rewrite <- app_assoc, len_app, (pack_h_length _ _ Hc) in IH.
    rewrite IH. len_simpl. rewrite (pack_h_length _ _ Hc).
    f_equal. f_equal. lia.
Qed.

Lemma dict_get_fold (g : string -> Z) : forall axisTags coord axis,
  dict_get String.eqb
    (fold_left
       (fun d a => dict_set String.eqb d a (fixedToFloat (g a) 14))
       axisTags coord) axis
  = if string_in axis axisTags then Some (fixedToFloat (g axis) 14)
    else dict_get String.eqb coord axis.
Proof.
  induction axisTags as [|a rest IH]; intros coord axis;
    cbn [fold_left]; [reflexivity|].
  rewrite IH. unfold string_in. cbn [existsb].
  destruct (existsb (String.eqb axis) rest); [rewrite orb_true_r; reflexivity|].
  rewrite orb_false_r, dict_get_set.
  destruct (String.eqb_spec axis a) as [->|]; reflexivity.
Qed.

Lemma compileCoord_axes_chunks (self : TupleVariation float) :
  forall axisTags chunks,
    compileCoord_axes float zero floatToFixed self axisTags = Ok chunks ->
    Forall2
      (fun axis c =>
         pack_h (floatToFixed (snd (fst (axes_get float zero self axis))) 14)
         = Ok c)
      axisTags chunks.
Proof.
  induction axisTags as [|axis rest IH]; intros chunks H;
    cbn [compileCoord_axes] in H.
  - apply Ok_inj in H. subst chunks. constructor.
  - destruct (axes_get float zero self axis) as [[lo v] hi] eqn:Ea.
    destruct (pack_h _) as [c|] eqn:Ec; [|discriminate]. cbn [bind] in H.
    destruct (compileCoord_axes _ _ _ _ rest) as [r|]; [|discriminate].
    cbn [bind] in H. apply Ok_inj in H. subst chunks.
    constructor; [rewrite Ea; exact Ec|apply IH; reflexivity].
Qed.

(** X15. What [compileCoord] writes, [decompileCoord_] reads back, wherever
    the bytes sit: it ends where they end, and its dictionary has exactly
    the axis tags as keys, each with the peak of that axis after the
    conversion to fixed point and back. *)
Theorem coord_roundtrip (self : TupleVariation float)
    (axisTags : list string) (enc : bytes) :
  compileCoord float zero floatToFixed self axisTags = Ok enc ->
  forall pre post,
    exists coord,
      decompileCoord_ float fixedToFloat axisTags (pre ++ enc ++ post)
        (len pre)
      = Ok (coord, len pre + len enc) /\
      forall axis,
        dict_get String.eqb coord axis
        = if string_in axis axisTags
          then Some (fixedToFloat
                       (floatToFixed
                          (snd (fst (axes_get float zero self axis))) 14) 14)
          else None.
Proof.
  intros H pre post. unfold compileCoord in H.
  destruct (compileCoord_axes _ _ _ _ _) as [chunks|] eqn:E; [|discriminate].
  cbn [bind] in H. apply Ok_inj in H. subst enc.
  apply compileCoord_axes_chunks in E.
  eexists. split.
  - unfold decompileCoord_. apply (decompileCoord_axes_chunks _ _ _ E).
  - intros axis. rewrite dict_get_fold. reflexivity.
Qed.

Lemma decompileCoord_axes_reads : forall axisTags data coord pos,
  0 <= pos <= len data ->
  (pos + 2 * len axisTags <= len data ->
   exists coord',
     decompileCoord_axes' axisTags data coord pos
     = Ok (coord', pos + 2 * len axisTags)) /\
  (len data < pos + 2 * len axisTags ->
   decompileCoord_axes' axisTags data coord pos = Raise StructError).
Proof.
  induction axisTags as [|axis rest IH]; intros data coord pos Hpos;
    cbn [decompileCoord_axes]; len_simpl.
  - split; intros Hlen; [|lia]. rewrite Z.add_0_r. eauto.
  - pose proof (len_nonneg rest).
    pose proof (py_slice_length data pos (pos + 2) ltac:(lia)) as Hs.
    destruct (unpack_h_length (py_slice data pos (pos + 2))) as [Hok Hbad].
    destruct (Z_le_dec (pos + 2) (len data)) as [Hroom|Hshort].
    + destruct Hok as [v Hv]; [lia|]. rewrite Hv. cbn [bind].
      destruct (IH data (dict_set String.eqb coord axis (fixedToFloat v 14))
                  (pos + 2) ltac:(lia)) as [H1 H2].
      split; intros Hlen.
      * destruct H1 as [coord' Hc]; [lia|]. exists coord'. rewrite Hc.
        f_equal. f_equal. lia.
      * apply H2. lia.
    + rewrite Hbad by lia. split; intros Hlen; [lia|reflexivity].
Qed.

Lemma decompileCoords_rounds_reads : forall rounds axisTags data result pos,
  0 <= pos <= len data ->
  (pos + len rounds * (2 * len axisTags) <= len data ->
   exists coords,
     decompileCoords_rounds float fixedToFloat rounds axisTags data result pos
     = Ok (result ++ coords, pos + len rounds * (2 * len axisTags))
     /\ len coords = len rounds) /\
  (len data < pos + len rounds * (2 * len axisTags) ->
   decompileCoords_rounds float fixedToFloat rounds axisTags data result pos
   = Raise StructError).
Proof.
  induction rounds as [|r rounds IH]; intros axisTags data result pos Hpos;
    cbn [decompileCoords_rounds]; len_simpl.
  - split; intros Hlen; [|lia]. exists []. rewrite app_nil_r, Z.add_0_r.
    split; reflexivity.
  - pose proof (len_nonneg rounds). pose proof (len_nonneg axisTags).
    unfold decompileCoord_.
    destruct (decompileCoord_axes_reads axisTags data [] pos Hpos) as [H1 H2].
    destruct (Z_le_dec (pos + 2 * len axisTags) (len data)) as [Hroom|Hshort].
    + destruct (H1 Hroom) as [coord Hc]. rewrite Hc. cbn [bind].
      destruct (IH axisTags data (result ++ [coord]) (pos + 2 * len axisTags)
                  ltac:(lia)) as [H3 H4].
      split; intros Hlen.
      * destruct H3 as (coords & Hr & Hl); [nia|].
        exists (coord :: coords). rewrite Hr, <- app_assoc. len_simpl.
        split; [f_equal; f_equal; lia|lia].
      * apply H4. nia.
    + rewrite H2 by lia. split; intros Hlen; [nia|reflexivity].
Qed.

(** X16. From an offset inside the data, [decompileCoords_] reads
    [numCoords] tuples of two bytes per axis tag: when the data holds that
    many bytes it returns [numCoords] dictionaries and the offset after
    them, and when the data is shorter it raises [struct.error]. *)
Theorem decompileCoords_reads (axisTags : list string) (numCoords : Z)
    (data : bytes) (offset : Z) :
  0 <= offset <= len data -> 0 <= numCoords ->
  (offset + numCoords * (2 * len axisTags) <= len data ->
   exists result,
     decompileCoords_ float fixedToFloat axisTags numCoords data offset
     = Ok (result, offset + numCoords * (2 * len axisTags))
     /\ len result = numCoords) /\
  (len data < offset + numCoords * (2 * len axisTags) ->
   decompileCoords_ float fixedToFloat axisTags numCoords data offset
   = Raise StructError).
Proof.
  intros Hoff Hn. unfold decompileCoords_.
  destruct (decompileCoords_rounds_reads (range numCoords) axisTags data []
              offset Hoff) as [H1 H2].
  rewrite len_range in H1, H2 by assumption.
  split; [|exact H2].
  intros H. destruct (H1 H) as (coords & Hr & Hl).
  exists coords. split; assumption.
Qed.

Lemma compileIntermediateCoord_axes_chunks (self : TupleVariation float) :
  forall axisTags minCoords maxCoords,
    compileIntermediateCoord_axes float zero floatToFixed self axisTags
    = Ok (minCoords, maxCoords) ->
    Forall2
      (fun axis c =>
         pack_h (floatToFixed (fst (fst (axes_get float zero self axis))) 14)
         = Ok c)
      axisTags minCoords /\
    Forall2
      (fun axis c =>
         pack_h (floatToFixed (snd (axes_get float zero self axis)) 14)
         = Ok c)
      axisTags maxCoords.
Proof.
  induction axisTags as [|axis rest IH]; intros minCoords maxCoords Hc;
    cbn [compileIntermediateCoord_axes] in Hc.
  - apply Ok_inj in Hc. injection Hc as <- <-. split; constructor.
  - destruct (axes_get float zero self axis) as [[lo v] hi] eqn:Ea.
    destruct (pack_h (floatToFixed lo 14)) as [clo|] eqn:Elo; [|discriminate].
    cbn [bind] in Hc.
    destruct (pack_h (floatToFixed hi 14)) as [chi|] eqn:Ehi; [|discriminate].
    cbn [bind] in Hc.
    destruct (compileIntermediateCoord_axes _ _ _ _ rest) as [[mins maxs]|];
      [|discriminate].
    cbn [bind] in Hc. apply Ok_inj in Hc. injection Hc as <- <-.
    destruct (IH mins maxs eq_refl) as [Hmin Hmax].
    split; constructor; try assumption; rewrite Ea; assumption.
Qed.

(** X17. When [compileIntermediateCoord] writes an intermediate region,
    [decompileCoords_] with [numCoords = 2] reads it back, wherever the
    bytes sit, as two dictionaries and ends where the bytes end: the first
    has for every axis tag the start of the region and the second its end,
    each after the conversion to fixed point and back. *)
Theorem intermediate_coord_roundtrip (self : TupleVariation float)
    (axisTags : list string) (enc : bytes) :
  compileIntermediateCoord float zero flt feq floatToFixed self axisTags
  = Ok (Some enc) ->
  forall pre post,
    exists starts ends,
      decompileCoords_ float fixedToFloat axisTags 2 (pre ++ enc ++ post)
        (len pre)
      = Ok ([starts; ends], len pre + len enc) /\
      forall axis,
        dict_get String.eqb starts axis
        = (if string_in axis axisTags
           then Some (fixedToFloat
                        (floatToFixed
                           (fst (fst (axes_get float zero self axis))) 14) 14)
           else None) /\
        dict_get String.eqb ends axis
        = (if string_in axis axisTags
           then Some (fixedToFloat
                        (floatToFixed
                           (snd (axes_get float zero self axis)) 14) 14)
           else None).
Proof.
  intros Hc pre post. unfold compileIntermediateCoord in Hc.
  destruct (negb _); [discriminate|].
  destruct (compileIntermediateCoord_axes _ _ _ _ _) as [[mins maxs]|] eqn:E;
    [|discriminate].
  cbn [bind] in Hc. apply Ok_inj in Hc. injection Hc as <-.
  destruct (compileIntermediateCoord_axes_chunks _ _ _ _ E) as [Hmin Hmax].
  pose proof (decompileCoord_axes_chunks _ _ _ Hmin [] pre
                (bytesjoin maxs ++ post)) as H1.
  pose proof (decompileCoord_axes_chunks _ _ _ Hmax [] (pre ++ bytesjoin mins)
                post) as H2.
  assert (Hj : bytesjoin (mins ++ maxs) = bytesjoin mins ++ bytesjoin maxs)
    by apply concat_app.
  rewrite Hj. do 2 eexists. split.
  - unfold decompileCoords_. change (range 2) with [0; 1].
    cbn [decompileCoords_rounds]. unfold decompileCoord_.
    rewrite <- app_assoc, len_app in H2.
    rewrite <- (app_assoc (bytesjoin mins)), H1. cbn [bind].
    rewrite H2. cbn [app]. rewrite len_app, Z.add_assoc. reflexivity.
  - intros axis. rewrite !dict_get_fold. split; reflexivity.
Qed.

End CoordFacts.

Lemma coord_roundtrip_witness :
  exists coord,
    let pre := [x2a] in
    let post := [xff; xff] in
      decompileCoord_ Z (fun v _ => v) ["wght"%string; "wdth"%string]
        (pre ++ [x40; x00; x00; x00] ++ post) (len pre)
      = Ok (coord, len pre + len [x40; x00; x00; x00]) /\
      forall axis,
        dict_get String.eqb coord axis
        = if string_in axis ["wght"%string; "wdth"%string]
          then Some
                 (snd (fst (axes_get Z 0
                              {| axes := [("wght"%string, (0, 16384, 16384))];
                                 coordinates := [] |} axis)))
          else None.
Proof.
  exact (coord_roundtrip Z 0 (fun v _ => v) (fun v _ => v)
           {| axes := [("wght"%string, (0, 16384, 16384))];
              coordinates := [] |}
           ["wght"%string; "wdth"%string] [x40; x00; x00; x00] eq_refl
           [x2a] [xff; xff]).
Defined.

Lemma decompileCoords_reads_witness :
  (1 + 2 * (2 * len ["wght"%string]) <= len [x2a; x40; x00; xe0; x00] ->
   exists result,
     decompileCoords_ Z (fun v _ => v) ["wght"%string] 2
       [x2a; x40; x00; xe0; x00] 1
     = Ok (result, 1 + 2 * (2 * len ["wght"%string]))
     /\ len result = 2) /\
  (len [x2a; x40; x00; xe0; x00] < 1 + 2 * (2 * len ["wght"%string]) ->
   decompileCoords_ Z (fun v _ => v) ["wght"%string] 2
     [x2a; x40; x00; xe0; x00] 1
   = Raise StructError).
Proof.
  apply (decompileCoords_reads Z (fun v _ => v) ["wght"%string] 2
           [x2a; x40; x00; xe0; x00] 1).
  - vm_compute. split; discriminate.
  - lia.
Defined.

Lemma intermediate_coord_roundtrip_witness :
  exists starts ends,
    let pre := [x2a] in
    let post := [xff; xff] in
      decompileCoords_ Z (fun v _ => v) ["wght"%string] 2
        (pre ++ [x10; x00; x40; x00] ++ post) (len pre)
      = Ok ([starts; ends], len pre + len [x10; x00; x40; x00]) /\
      forall axis,
        dict_get String.eqb starts axis
        = (if string_in axis ["wght"%string]
           then Some
                  (fst (fst (axes_get Z 0
                               {| axes :=
                                    [("wght"%string, (4096, 16384, 16384))];
                                  coordinates := [] |} axis)))
           else None) /\
        dict_get String.eqb ends axis
        = (if string_in axis ["wght"%string]
           then Some
                  (snd (axes_get Z 0
                          {| axes := [("wght"%string, (4096, 16384, 16384))];
                             coordinates := [] |} axis))
           else None).
Proof.
  exact (intermediate_coord_roundtrip Z 0 Z.ltb Z.eqb (fun v _ => v)
           (fun v _ => v)
           {| axes := [("wght"%string, (4096, 16384, 16384))];
              coordinates := [] |}
           ["wght"%string] [x10; x00; x40; x00] eq_refl [x2a]
           [xff; xff]).
Defined.

(** ** Long runs of zeroes *)

Lemma len_repeat {A} (x : A) n : len (repeat x n) = Z.of_nat n.
Proof. unfold len. rewrite repeat_length. reflexivity. Qed.

Lemma zeroes_loop_zeros : forall n fuel done runLength,
  0 <= runLength <= 64 ->
  (Z.to_nat (64 - runLength) < fuel)%nat ->
  encodeDeltaRunAsZeroes_loop fuel (done ++ repeat 0 n) (len done) runLength
  = Ok (len done + Z.min (Z.of_nat n) (64 - runLength),
        runLength + Z.min (Z.of_nat n) (64 - runLength)).
Proof.
  induction n as [|n IH]; intros fuel done rl Hrl Hfuel;
    (destruct fuel as [|fuel]; [lia|]);
    cbn [encodeDeltaRunAsZeroes_loop repeat].
  - rewrite pos_at_end. cbn [andb]. f_equal. f_equal; lia.
  - rewrite pos_in_range. cbn [andb].
    destruct (Z.ltb_spec rl 64) as [Hlt|Hge].
    + rewrite py_getitem_app. cbn [bind]. rewrite Z.eqb_refl.
      rewrite snoc_app, <- (len_snoc done 0), IH by lia.
      rewrite len_snoc. f_equal. f_equal; lia.
    + f_equal. f_equal; lia.
Qed.

Lemma encodeDeltaRunAsZeroes_zeros n done stream :
  (0 < n)%nat ->
  encodeDeltaRunAsZeroes_ (done ++ repeat 0 n) (len done) stream
  = Ok (len done + Z.min (Z.of_nat n) 64,
        stream ++ [byte_of_Z
                     (Z.lor DELTAS_ARE_ZERO (Z.min (Z.of_nat n) 64 - 1))]).
Proof.
  intros Hn. unfold encodeDeltaRunAsZeroes_.
  rewrite zeroes_loop_zeros by lia.
  rewrite Z.sub_0_r, Z.add_0_l. cbn [bind].
  assert (Hk : 1 <= Z.min (Z.of_nat n) 64 <= 64) by lia.
  rewrite (assert_run_length _ Hk). cbn [bind].
  destruct (delta_header_bits _ Hk) as ((Hr & _) & _).
  rewrite (bytechr_ok _ Hr). reflexivity.
Qed.

Lemma compileDeltaValues_loop_zero_step n fuel done stream :
  (0 < n)%nat ->
  compileDeltaValues_loop (S fuel) (done ++ repeat 0 n) (len done) stream
  = compileDeltaValues_loop fuel (done ++ repeat 0 n)
      (len done + Z.min (Z.of_nat n) 64)
      (stream ++ [byte_of_Z
                    (Z.lor DELTAS_ARE_ZERO (Z.min (Z.of_nat n) 64 - 1))]).
Proof.
  intros Hn. cbn [compileDeltaValues_loop].
  rewrite encodeDeltaRunAsZeroes_zeros by assumption.
  destruct n as [|n]; [lia|]. cbn [repeat].
  rewrite pos_in_range, py_getitem_app. cbn [bind]. rewrite Z.eqb_refl.
  reflexivity.
Qed.

Lemma compileDeltaValues_loop_end fuel (deltas : list Z) stream :
  compileDeltaValues_loop (S fuel) deltas (len deltas) stream = Ok stream.
Proof. cbn [compileDeltaValues_loop]. rewrite Z.ltb_irrefl. reflexivity. Qed.

Lemma compileDeltaValues_loop_zeros : forall q r fuel done stream,
  (r < 64)%nat ->
  (q + (if Nat.eqb r 0 then 0 else 1) < fuel)%nat ->
  compileDeltaValues_loop fuel (done ++ repeat 0 (q * 64 + r)) (len done)
    stream
  = Ok (stream ++ repeat xbf q
          ++ (if Nat.eqb r 0 then []
              else [byte_of_Z (Z.lor DELTAS_ARE_ZERO (Z.of_nat r - 1))])).
Proof.
  induction q as [|q IH]; intros r fuel done stream Hr Hfuel.
  - cbn [Nat.mul Nat.add repeat app].
    destruct (Nat.eqb_spec r 0) as [->|Hr0].
    + destruct fuel as [|fuel]; [lia|]. cbn [repeat].
      rewrite !app_nil_r. apply compileDeltaValues_loop_end.
    + destruct fuel as [|[|fuel]]; try lia.
      rewrite compileDeltaValues_loop_zero_step by lia.
      replace (Z.min (Z.of_nat r) 64) with (Z.of_nat r) by lia.
      rewrite <- (len_repeat 0 r), <- len_app.
      rewrite compileDeltaValues_loop_end, len_repeat. reflexivity.
  - destruct fuel as [|fuel]; [lia|].
    replace (S q * 64 + r)%nat with (64 + (q * 64 + r))%nat by lia.
    remember (q * 64 + r)%nat as m eqn:Em.
    remember 64%nat as k eqn:Ek.
    rewrite compileDeltaValues_loop_zero_step by lia.
    replace (Z.min (Z.of_nat (k + m)) 64) with (Z.of_nat k) by lia.
    rewrite repeat_app, app_assoc.
    rewrite <- (len_repeat 0 k), <- len_app. subst m.
    rewrite IH by lia.
    rewrite len_repeat. subst k.
    change (byte_of_Z (Z.lor DELTAS_ARE_ZERO (Z.of_nat 64 - 1))) with xbf.
    rewrite <- !app_assoc. reflexivity.
Qed.

(** X18. An all-zero delta sequence of any length [k] compiles to zero runs
    only: [k / 64] bytes 0xBF, each standing for 64 zeroes, followed, when
    64 does not divide [k], by one byte [0x80 | (k mod 64 - 1)]; so to
    [(k + 63) / 64] bytes. *)
Theorem zero_runs (D : list Z) :
  Forall (fun v => v = 0) D ->
  exists enc,
    compileDeltaValues_ D = Ok enc /\
    enc = repeat xbf (Z.to_nat (len D / 64))
          ++ (if len D mod 64 =? 0 then []
              else [byte_of_Z (Z.lor DELTAS_ARE_ZERO (len D mod 64 - 1))]) /\
    len enc = (len D + 63) / 64.
Proof.
  intros Hz. eexists. split; [|split; [reflexivity|]].
  - pose proof (len_nonneg D) as Hlen.
    pose proof (Z.div_mod (len D) 64 ltac:(lia)) as Hdm.
    pose proof (Z.mod_pos_bound (len D) 64 ltac:(lia)) as Hm.
    pose proof (Z.div_pos (len D) 64 Hlen ltac:(lia)) as Hq.
    set (q := Z.to_nat (len D / 64)). set (r := Z.to_nat (len D mod 64)).
    assert (HD : D = repeat 0 (q * 64 + r)).
    { rewrite (all_zero_repeat D Hz) at 1. f_equal. lia. }
    assert (Hf : (q + (if Nat.eqb r 0 then 0 else 1) < S (length D))%nat).
    { unfold len in *. destruct (Nat.eqb_spec r 0); lia. }
    pose proof (compileDeltaValues_loop_zeros q r (S (length D)) [] []
                  ltac:(lia) Hf) as Hloop.
    cbn [app] in Hloop. change (len (@nil Z)) with 0 in Hloop.
    unfold compileDeltaValues_. rewrite <- HD in Hloop. rewrite Hloop.
    f_equal. f_equal.
    destruct (Z.eqb_spec (len D mod 64) 0) as [E|E];
      destruct (Nat.eqb_spec r 0); try lia; [reflexivity|].
    unfold r. rewrite Z2Nat.id by lia. reflexivity.
  - pose proof (len_nonneg D) as Hlen.
    pose proof (Z.div_mod (len D) 64 ltac:(lia)) as Hdm.
    pose proof (Z.mod_pos_bound (len D) 64 ltac:(lia)) as Hm.
    pose proof (Z.div_pos (len D) 64 Hlen ltac:(lia)) as Hq.
    rewrite len_app, len_repeat, Z2Nat.id by lia.
    destruct (Z.eqb_spec (len D mod 64) 0) as [E|E]; len_simpl.
    + apply (Z.div_unique _ _ _ 63); lia.
    + apply (Z.div_unique _ _ _ (len D mod 64 - 1)); lia.
Qed.

Lemma zero_runs_witness :
  exists enc,
    compileDeltaValues_ (repeat 0 130) = Ok enc /\
    enc = repeat xbf (Z.to_nat (len (repeat 0 130) / 64))
          ++ (if len (repeat 0 130) mod 64 =? 0 then []
              else [byte_of_Z
                      (Z.lor DELTAS_ARE_ZERO
                         (len (repeat 0 130) mod 64 - 1))]) /\
    len enc = (len (repeat 0 130) + 63) / 64.
Proof.
  apply (zero_runs (repeat 0 130)).
  apply Forall_forall. intros v Hv. apply repeat_spec in Hv. exact Hv.
Defined.

(** ** Axis tags that [compile] does not know *)

(** X19. [compile] first checks the keys of [self.axes]: when one of them is
    not among [axisTags] the call raises [AssertionError], whatever the
    coordinates, the shared tuples and the shared points are. *)
Theorem compile_unknown_axis (float : Type) (zero : float)
    (flt feq : float -> float -> bool) (floatToFixed : float -> Z -> Z)
    (self : TupleVariation float) (axisTags : list string)
    (sharedCoordIndices : list (bytes * Z)) (sharedPoints : option (list Z))
    (tag : string) :
  In tag (map fst (axes self)) ->
  ~ In tag axisTags ->
  compile float zero flt feq floatToFixed self axisTags sharedCoordIndices
    sharedPoints
  = Raise AssertionError.
Proof.
  intros Hkey Hnot. unfold compile.
  assert (Hall : forallb (fun tag => string_in tag axisTags)
                   (map fst (axes self)) = false).
  { destruct (forallb _ _) eqn:E; [|reflexivity].
    rewrite forallb_forall in E. specialize (E tag Hkey).
    unfold string_in in E. apply existsb_exists in E.
    destruct E as (t & Hin & Heq). apply String.eqb_eq in Heq. subst t.
    contradiction. }
  rewrite Hall. reflexivity.
Qed.

Lemma compile_unknown_axis_witness :
  compile Z 0 Z.ltb Z.eqb (fun v _ => v)
    {| axes := [("wght"%string, (0, 16384, 16384));
                ("opsz"%string, (0, 8192, 8192))];
       coordinates := [Some (XY 1 2)] |}
    ["wght"%string; "wdth"%string] [] None
  = Raise AssertionError.
Proof.
  apply (compile_unknown_axis Z 0 Z.ltb Z.eqb (fun v _ => v) _ _ _ _
           "opsz"%string).
  - cbn. right. left. reflexivity.
  - cbn. intros [H|[H|[]]]; discriminate.
Defined.
